(** * The Scale Mesos scheduler: callback dispatcher

    A shallow embedding of [scale/scheduler/scale_scheduler.py] (class
    [ScaleScheduler]) and the properties of its Driver callbacks.

    The dispatcher is a Python object whose methods mutate its own
    attributes and call into collaborators (managers, background thread
    objects, the backing store, the agent log API).  The embedding threads
    a [World] (the attributes of [self] plus a trace of every collaborator
    call) through a state-and-exception monad.  Python exceptions do not
    roll back mutations, so the world survives a [Raise]. *)

From stdpp Require Import base numbers gmap strings list.

Local Open Scope Z_scope.
Local Open Scope string_scope.

(** ** Values exchanged with Mesos *)

(** Identity of a [SchedulerDriver] handle and of an [ExecutorInfo]. *)
Definition Driver := nat.
Definition ExecutorInfo := nat.

(** [mesos_pb2.TaskState]. *)
Inductive TaskState :=
| TASK_STAGING | TASK_STARTING | TASK_RUNNING | TASK_FINISHED
| TASK_FAILED | TASK_KILLED | TASK_LOST | TASK_ERROR.

#[global] Instance TaskState_eq_dec : EqDecision TaskState.
Proof. solve_decision. Defined.

(** [mesos_pb2.TaskStatus]: the dispatcher reads [task_id.value] and
    [state]; [message] and [timestamp] are read by [mesos_api.utils]. *)
Module TaskStatus.
Record t := mk { task_id : string; state : TaskState; message : string; timestamp : Z }.
End TaskStatus.

(** [mesos_pb2.MasterInfo]. *)
Module MasterInfo.
Record t := mk { hostname : string; port : Z }.
End MasterInfo.

(** [mesos_pb2.Resource] and [mesos_pb2.Offer].  Scalar values are only
    copied by the dispatcher, never computed with. *)
Module Resource.
Record t := mk { name : string; scalar : Z }.
End Resource.

Module Offer.
Record t := mk { id : string; slave_id : string; resources : list Resource.t }.
End Offer.

(** ** Python exceptions

    The instances of [Exception] a collaborator can raise; every one of
    them is caught by [except Exception], only [DatabaseError] by
    [except DatabaseError]. *)
Inductive Exception :=
| DatabaseError
| AttributeError
| OtherException (cls : string).

#[global] Instance Exception_eq_dec : EqDecision Exception.
Proof. solve_decision. Defined.

(** ** Collaborator data *)

(** [error.models.Error].
    Modelled from the spec: the class is not part of the dispatcher source;
    a built-in error is a well-known error identified by its name. *)
Inductive Error := BuiltinError (name : string).

#[global] Instance Error_eq_dec : EqDecision Error.
Proof. solve_decision. Defined.

(** [Error.objects.get_builtin_error].
    Modelled from the spec: returns the well-known error of that name
    ([mesos-lost], [node-lost], [scheduler-lost]). *)
Definition get_builtin_error (name : string) : Error := BuiltinError name.

(** [job.resources.NodeResources] and [scheduler.offer.offer.ResourceOffer]. *)
Module NodeResources.
Record t := mk { cpus : Z; mem : Z; disk : Z }.
End NodeResources.

Module ResourceOffer.
Record t := mk { id : string; agent_id : string; resources : NodeResources.t }.
End ResourceOffer.

(** [job.execution.running.tasks.results.TaskResults]; the constructor
    takes the task id and leaves the other attributes unset. *)
Module TaskResults.
Record t := mk {
    task_id : string;
    exit_code : option Z;
    when : option Z;
    stdout : option string;
    stderr : option string }.

Definition new (task_id : string) : t := mk task_id None None None None.
Definition set_exit_code (v : option Z) (r : t) : t :=
    mk (task_id r) v (when r) (stdout r) (stderr r).
Definition set_when (v : Z) (r : t) : t :=
    mk (task_id r) (exit_code r) (Some v) (stdout r) (stderr r).
Definition set_stdout (v : string) (r : t) : t :=
    mk (task_id r) (exit_code r) (when r) (Some v) (stderr r).
Definition set_stderr (v : string) (r : t) : t :=
    mk (task_id r) (exit_code r) (when r) (stdout r) (Some v).
End TaskResults.

(** A task of a running job execution; the dispatcher reads [task.id]. *)
Module Task.
Record t := mk { id : string }.
End Task.

(** States of the task state machine of a running job execution.
    Modelled from the spec: the state machine is not part of the
    dispatcher source; its terminal states are finished, failed and lost. *)
Inductive Phase := Queued | Launched | Running | Finished | Failed | Lost.

(** [job.execution.running.job_exe.RunningJobExecution], as far as the
    dispatcher reads it. *)
Module RunningJobExecution.
Record t := mk {
    id : Z;
    node_id : Z;
    _node_hostname : string;
    _node_port : Z;
    current_task : option Task.t;
    phase : Phase }.

(** Modelled from the spec: [is_finished()] reports a terminal state. *)
Definition is_finished (e : t) : bool :=
    match phase e with
    | Finished | Failed | Lost => true
    | Queued | Launched | Running => false
    end.
End RunningJobExecution.

(** What a state-changing method of a running job execution
    ([task_running], [task_complete], [task_fail], [execution_lost]) did:
    the mutable attributes it left behind and the exception it raised, if
    any.  The methods belong to a collaborator, so the dispatcher is
    verified for every behaviour they may have. *)
Module Transition.
Record t := mk {
    next_task : option Task.t;
    next_phase : Phase;
    raised : option Exception }.

Definition apply (tr : t) (e : RunningJobExecution.t) : RunningJobExecution.t :=
    RunningJobExecution.mk
      (RunningJobExecution.id e) (RunningJobExecution.node_id e)
      (RunningJobExecution._node_hostname e) (RunningJobExecution._node_port e)
      (next_task tr) (next_phase tr).
End Transition.

(** A node known to the node manager. *)
Module Node.
Record t := mk { id : Z; hostname : string; port : Z; is_lost : bool }.
Definition mark_lost (n : t) : t := mk (id n) (hostname n) (port n) true.
End Node.

(** [scheduler.sync.node_manager.NodeManager].
    Modelled from the spec: the canonical map of known agents, which
    registers previously unseen agent ids and marks agents lost. *)
Module NodeManager.
Record t := mk { nodes : gmap string Node.t; new_agent_ids : gset string }.

Definition new : t := mk ∅ ∅.
Definition get_node (agent_id : string) (m : t) : option Node.t := nodes m !! agent_id.
Definition add_agent_ids (agent_ids : list string) (m : t) : t :=
    mk (nodes m)
       (new_agent_ids m ∪ list_to_set (filter (λ a, nodes m !! a = None) agent_ids)).
Definition lost_node (agent_id : string) (m : t) : t :=
    mk (alter Node.mark_lost agent_id (nodes m)) (new_agent_ids m).
End NodeManager.

(** [scheduler.offer.manager.OfferManager].
    Modelled from the spec: offers are stored per agent; [lost_node]
    purges every offer of the agent and later offers of that agent are
    rejected; [remove_offers] is idempotent removal by offer id. *)
Module OfferManager.
Record t := mk { offers : list ResourceOffer.t; lost_agents : gset string }.

Definition new : t := mk [] ∅.
Definition add_new_offers (l : list ResourceOffer.t) (m : t) : t :=
    mk ((offers m ++ filter (λ o, ResourceOffer.agent_id o ∉ lost_agents m) l)%list) (lost_agents m).
Definition remove_offers (ids : list string) (m : t) : t :=
    mk (filter (λ o, ResourceOffer.id o ∉ ids) (offers m)) (lost_agents m).
Definition lost_node (agent_id : string) (m : t) : t :=
    mk (filter (λ o, ResourceOffer.agent_id o ≠ agent_id) (offers m))
       (lost_agents m ∪ {[agent_id]}).
End OfferManager.

(** [job.execution.running.manager.RunningJobExecutionManager].
    Modelled from the spec: a map of the live job executions, indexed by
    job execution id. *)
Module RunningJobExecutionManager.
Definition get_job_exe (job_exe_id : Z) (m : gmap Z RunningJobExecution.t)
    : option RunningJobExecution.t := m !! job_exe_id.
Definition remove_job_exe (job_exe_id : Z) (m : gmap Z RunningJobExecution.t)
    : gmap Z RunningJobExecution.t := delete job_exe_id m.
Definition get_job_exes_on_node (node_id : Z) (m : gmap Z RunningJobExecution.t)
    : list RunningJobExecution.t :=
    filter (λ e, RunningJobExecution.node_id e = node_id) (map_to_list m).*2.
End RunningJobExecutionManager.

(** The three background loops. *)
Inductive Loop := DbSyncLoop | ReconLoop | SchedulingLoop.

(** [scheduler.threads.db_sync.DatabaseSyncThread],
    [scheduler.threads.recon.ReconciliationThread] and
    [scheduler.threads.schedule.SchedulingThread].
    Modelled from the spec: each loop object holds the driver handle it
    uses and the flag its loop checks; the reconciliation thread owns the
    reconciliation set, to which task ids are added and from which they are
    removed. *)
Module DatabaseSyncThread.
Record t := mk { driver : option Driver; running : bool }.
Definition new (d : option Driver) : t := mk d true.
Definition set_driver (d : option Driver) (th : t) : t := mk d (running th).
Definition shutdown (th : t) : t := mk (driver th) false.
End DatabaseSyncThread.

Module ReconciliationThread.
Record t := mk { driver : option Driver; running : bool; task_ids : gset string }.
Definition new (d : option Driver) : t := mk d true ∅.
Definition set_driver (d : option Driver) (th : t) : t := mk d (running th) (task_ids th).
Definition shutdown (th : t) : t := mk (driver th) false (task_ids th).
Definition add_task_ids (l : list string) (th : t) : t :=
    mk (driver th) (running th) (task_ids th ∪ list_to_set l).
Definition remove_task_id (task_id : string) (th : t) : t :=
    mk (driver th) (running th) (task_ids th ∖ {[task_id]}).
End ReconciliationThread.

Module SchedulingThread.
Record t := mk { driver : option Driver; running : bool }.
Definition new (d : option Driver) : t := mk d true.
Definition set_driver (d : option Driver) (th : t) : t := mk d (running th).
Definition shutdown (th : t) : t := mk (driver th) false.
End SchedulingThread.

(** A [job.models.JobExecution] row returned by the backing store. *)
Module JobExecution.
Record t := mk { id : Z }.
End JobExecution.

(** ** Trace of collaborator calls

    Every call that leaves the dispatcher is recorded, newest first. *)
Inductive Level := DEBUG | INFO | WARNING | ERROR | EXCEPTION.

Inductive LogArg := LStr (s : string) | LInt (n : Z).

Inductive Event :=
| EvNow
| EvLog (lvl : Level) (fmt : string) (args : list LogArg)
| EvUpdateMaster (hostname : string) (port : Z)
| EvInitializeSystem
| EvJobTypeSync
| EvSchedulerSync
| EvGetRunningJobExes
| EvHandleJobFailure (job_exe_id : Z) (when : Z) (error : Error)
| EvGetJobExe (job_exe_id : Z)
| EvRemoveJobExe (job_exe_id : Z)
| EvGetJobExesOnNode (node_id : Z)
| EvGetNode (agent_id : string)
| EvAddAgentIds (agent_ids : list string)
| EvNodeLost (agent_id : string)
| EvAddNewOffers (offers : list ResourceOffer.t)
| EvRemoveOffers (offer_ids : list string)
| EvOfferLost (agent_id : string)
| EvReconAdd (task_ids : list string)
| EvReconRemove (task_id : string)
| EvThreadShutdown (loop : Loop)
| EvTaskDirectory (hostname : string) (port : Z) (task_id : string)
| EvTaskFile (hostname : string) (port : Z) (task_dir file : string)
| EvTaskUrl (hostname : string) (port : Z) (task_dir file : string)
| EvTaskRunning (job_exe_id : Z) (task_id : string) (when : option Z) (stdout_url stderr_url : string)
| EvTaskComplete (job_exe_id : Z) (results : TaskResults.t)
| EvTaskFail (job_exe_id : Z) (results : TaskResults.t) (error : option Error)
| EvExecutionLost (job_exe_id : Z) (when : Z).

(** ** The world: the attributes of [self] and what surrounds them

    The first eleven fields are the attributes set by
    [ScaleScheduler.__init__] (the job type manager and the scheduler
    manager are only ever asked to synchronise, which the trace records);
    [started_threads] lists the [threading.Thread]s started so far. *)
Record World := mkWorld {
  _driver : option Driver;
  _executor : ExecutorInfo;
  _framework_id : option string;
  _master_hostname : option string;
  _master_port : option Z;
  _job_exe_manager : gmap Z RunningJobExecution.t;
  _node_manager : NodeManager.t;
  _offer_manager : OfferManager.t;
  _db_sync_thread : option DatabaseSyncThread.t;
  _recon_thread : option ReconciliationThread.t;
  _scheduling_thread : option SchedulingThread.t;
  started_threads : list Loop;
  trace : list Event }.

Definition set_driver v w :=
  mkWorld v (_executor w) (_framework_id w) (_master_hostname w) (_master_port w)
    (_job_exe_manager w) (_node_manager w) (_offer_manager w) (_db_sync_thread w)
    (_recon_thread w) (_scheduling_thread w) (started_threads w) (trace w).
Definition set_framework_id v w :=
  mkWorld (_driver w) (_executor w) v (_master_hostname w) (_master_port w)
    (_job_exe_manager w) (_node_manager w) (_offer_manager w) (_db_sync_thread w)
    (_recon_thread w) (_scheduling_thread w) (started_threads w) (trace w).
Definition set_master_hostname v w :=
  mkWorld (_driver w) (_executor w) (_framework_id w) v (_master_port w)
    (_job_exe_manager w) (_node_manager w) (_offer_manager w) (_db_sync_thread w)
    (_recon_thread w) (_scheduling_thread w) (started_threads w) (trace w).
Definition set_master_port v w :=
  mkWorld (_driver w) (_executor w) (_framework_id w) (_master_hostname w) v
    (_job_exe_manager w) (_node_manager w) (_offer_manager w) (_db_sync_thread w)
    (_recon_thread w) (_scheduling_thread w) (started_threads w) (trace w).
Definition set_job_exe_manager v w :=
  mkWorld (_driver w) (_executor w) (_framework_id w) (_master_hostname w) (_master_port w)
    v (_node_manager w) (_offer_manager w) (_db_sync_thread w)
    (_recon_thread w) (_scheduling_thread w) (started_threads w) (trace w).
Definition set_node_manager v w :=
  mkWorld (_driver w) (_executor w) (_framework_id w) (_master_hostname w) (_master_port w)
    (_job_exe_manager w) v (_offer_manager w) (_db_sync_thread w)
    (_recon_thread w) (_scheduling_thread w) (started_threads w) (trace w).
Definition set_offer_manager v w :=
  mkWorld (_driver w) (_executor w) (_framework_id w) (_master_hostname w) (_master_port w)
    (_job_exe_manager w) (_node_manager w) v (_db_sync_thread w)
    (_recon_thread w) (_scheduling_thread w) (started_threads w) (trace w).
Definition set_db_sync_thread v w :=
  mkWorld (_driver w) (_executor w) (_framework_id w) (_master_hostname w) (_master_port w)
    (_job_exe_manager w) (_node_manager w) (_offer_manager w) v
    (_recon_thread w) (_scheduling_thread w) (started_threads w) (trace w).
Definition set_recon_thread v w :=
  mkWorld (_driver w) (_executor w) (_framework_id w) (_master_hostname w) (_master_port w)
    (_job_exe_manager w) (_node_manager w) (_offer_manager w) (_db_sync_thread w)
    v (_scheduling_thread w) (started_threads w) (trace w).
Definition set_scheduling_thread v w :=
  mkWorld (_driver w) (_executor w) (_framework_id w) (_master_hostname w) (_master_port w)
    (_job_exe_manager w) (_node_manager w) (_offer_manager w) (_db_sync_thread w)
    (_recon_thread w) v (started_threads w) (trace w).
Definition set_started_threads v w :=
  mkWorld (_driver w) (_executor w) (_framework_id w) (_master_hostname w) (_master_port w)
    (_job_exe_manager w) (_node_manager w) (_offer_manager w) (_db_sync_thread w)
    (_recon_thread w) (_scheduling_thread w) v (trace w).
Definition set_trace v w :=
  mkWorld (_driver w) (_executor w) (_framework_id w) (_master_hostname w) (_master_port w)
    (_job_exe_manager w) (_node_manager w) (_offer_manager w) (_db_sync_thread w)
    (_recon_thread w) (_scheduling_thread w) (started_threads w) v.

(** The reconciliation set, empty while there is no reconciliation thread. *)
Definition recon_set (w : World) : gset string :=
  match _recon_thread w with
  | Some th => ReconciliationThread.task_ids th
  | None => ∅
  end.

(** The calls made so far, oldest first. *)
Definition history (w : World) : list Event := rev (trace w).

(** ** State and exception monad *)

Inductive Result (A : Type) :=
| Normal (a : A)
| Raise (e : Exception).
Arguments Normal {A} a.
Arguments Raise {A} e.

Definition M (S A : Type) : Type := S → Result A * S.

Definition ret {S A} (a : A) : M S A := λ s, (Normal a, s).
Definition raise {S A} (e : Exception) : M S A := λ s, (Raise e, s).
Definition bind {S A B} (m : M S A) (k : A → M S B) : M S B :=
  λ s, match m s with
       | (Normal a, s') => k a s'
       | (Raise e, s') => (Raise e, s')
       end.
Definition answer {S A} (r : Result A) : M S A := λ s, (r, s).
Definition gets {S A} (f : S → A) : M S A := λ s, (Normal (f s), s).
Definition modify {S} (f : S → S) : M S unit := λ s, (Normal tt, f s).

#[global] Instance M_ret {S} : MRet (M S) := λ A, ret.
#[global] Instance M_bind {S} : MBind (M S) := λ A B k m, bind m k.

(** [try: body except Exception: handler]. *)
Definition try_except {S A} (body : M S A) (handler : Exception → M S A) : M S A :=
  λ s, match body s with
       | (Raise e, s') => handler e s'
       | r => r
       end.

(** [try: body except DatabaseError: handler]; anything else is re-raised. *)
Definition try_except_DatabaseError {S A} (body : M S A) (handler : M S A) : M S A :=
  try_except body (λ e, if decide (e = DatabaseError) then handler else raise e).

(** [for x in l: body]. *)
Fixpoint for_each {S A} (l : list A) (body : A → M S unit) : M S unit :=
  match l with
  | [] => ret tt
  | x :: rest => body x ;; for_each rest body
  end.

(** A block of code that works on one mutable Python object [o] bound to a
    local variable: the object is part of the state of the block, so that
    what was assigned before an exception is still there in the handler. *)
Definition lift {O A} (m : M World A) : M (O * World) A :=
  λ '(o, w), let '(r, w') := m w in (r, (o, w')).
Definition get_local {O} : M (O * World) O := λ '(o, w), (Normal o, (o, w)).
Definition set_local {O} (f : O → O) : M (O * World) unit := λ '(o, w), (Normal tt, (f o, w)).
Definition with_local {O A} (o : O) (m : M (O * World) A) : M World O :=
  λ w, let '(r, (o', w')) := m (o, w) in
       (match r with Normal _ => Normal o' | Raise e => Raise e end, w').

(** ** Collaborators whose code lies outside the dispatcher

    None of these functions is defined in [scale_scheduler.py]; the
    dispatcher is verified for every behaviour they may have.  A call that
    reaches the backing store or an agent may raise: its outcome is a
    [Result], and may differ from one call to the next (the first argument
    is the number of calls made before it).  Times are in microseconds. *)
Record Collaborators := mkCollaborators {
  (* django.utils.timezone.now *)
  now_at : nat → Z;
  (* RunningJobExecution.get_job_exe_id: the job execution a task id embeds *)
  get_job_exe_id : string → Z;
  (* mesos_api.utils *)
  status_to_string : TaskState → string;
  parse_exit_code : TaskStatus.t → option Z;
  get_status_timestamp : TaskStatus.t → Z;
  (* the backing store *)
  update_master : nat → string → Z → Result unit;
  initialize_system : nat → Result unit;
  job_type_sync : nat → Result unit;
  scheduler_sync : nat → Result unit;
  get_running_job_exes : nat → Result (list JobExecution.t);
  handle_job_failure : nat → Z → Z → Error → Result unit;
  (* mesos_api.api: agent log retrieval *)
  get_slave_task_directory : nat → string → Z → string → Result string;
  get_slave_task_file : nat → string → Z → string → string → Result string;
  get_slave_task_url : nat → string → Z → string → string → Result string;
  (* methods of a running job execution *)
  task_running :
    nat → RunningJobExecution.t → string → option Z → string → string → Transition.t;
  task_complete : nat → RunningJobExecution.t → TaskResults.t → Transition.t;
  task_fail : nat → RunningJobExecution.t → TaskResults.t → option Error → Transition.t;
  execution_lost : nat → RunningJobExecution.t → Z → Transition.t }.

(** [datetime.timedelta(milliseconds=5)] and [(milliseconds=100)]. *)
Definition NORMAL_WARN_THRESHOLD : Z := 5000.
Definition DATABASE_WARN_THRESHOLD : Z := 100000.

(** [ScaleScheduler.__init__]. *)
Definition ScaleScheduler_init (executor : ExecutorInfo) : World :=
  mkWorld None executor None None None ∅ NodeManager.new OfferManager.new
    None None None [] [].

Section Dispatcher.

Variable env : Collaborators.

(** *** Primitive calls *)

Definition emit (ev : Event) : M World unit :=
  modify (λ w, set_trace (ev :: trace w) w).

Definition tick : M World nat := gets (λ w, length (trace w)).

(** A call to a collaborator that may raise. *)
Definition call {A} (ev : Event) (outcome : nat → Result A) : M World A :=
  n ← tick;
  emit ev;;
  answer (outcome n).

Definition now : M World Z :=
  n ← tick;
  emit EvNow;;
  ret (now_at env n).

Definition logger (lvl : Level) (fmt : string) (args : list LogArg) : M World unit :=
  emit (EvLog lvl fmt args).

(** Reading [self._xxx_thread.attr] while the attribute is still [None]
    raises [AttributeError]. *)
Definition deref {A} (field : World → option A) : M World A :=
  o ← gets field;
  match o with
  | Some th => ret th
  | None => raise AttributeError
  end.

Definition recon_thread_remove_task_id (task_id : string) : M World unit :=
  th ← deref _recon_thread;
  emit (EvReconRemove task_id);;
  modify (set_recon_thread (Some (ReconciliationThread.remove_task_id task_id th))).

Definition recon_thread_add_task_ids (task_ids : list string) : M World unit :=
  th ← deref _recon_thread;
  emit (EvReconAdd task_ids);;
  modify (set_recon_thread (Some (ReconciliationThread.add_task_ids task_ids th))).

Definition job_exe_manager_get_job_exe (job_exe_id : Z) : M World (option RunningJobExecution.t) :=
  emit (EvGetJobExe job_exe_id);;
  gets (λ w, RunningJobExecutionManager.get_job_exe job_exe_id (_job_exe_manager w)).

Definition job_exe_manager_remove_job_exe (job_exe_id : Z) : M World unit :=
  emit (EvRemoveJobExe job_exe_id);;
  modify (λ w, set_job_exe_manager
                 (RunningJobExecutionManager.remove_job_exe job_exe_id (_job_exe_manager w)) w).

Definition job_exe_manager_get_job_exes_on_node (node_id : Z)
  : M World (list RunningJobExecution.t) :=
  emit (EvGetJobExesOnNode node_id);;
  gets (λ w, RunningJobExecutionManager.get_job_exes_on_node node_id (_job_exe_manager w)).

Definition node_manager_get_node (agent_id : string) : M World (option Node.t) :=
  emit (EvGetNode agent_id);;
  gets (λ w, NodeManager.get_node agent_id (_node_manager w)).

Definition node_manager_add_agent_ids (agent_ids : list string) : M World unit :=
  emit (EvAddAgentIds agent_ids);;
  modify (λ w, set_node_manager (NodeManager.add_agent_ids agent_ids (_node_manager w)) w).

Definition node_manager_lost_node (agent_id : string) : M World unit :=
  emit (EvNodeLost agent_id);;
  modify (λ w, set_node_manager (NodeManager.lost_node agent_id (_node_manager w)) w).

Definition offer_manager_add_new_offers (l : list ResourceOffer.t) : M World unit :=
  emit (EvAddNewOffers l);;
  modify (λ w, set_offer_manager (OfferManager.add_new_offers l (_offer_manager w)) w).

Definition offer_manager_remove_offers (ids : list string) : M World unit :=
  emit (EvRemoveOffers ids);;
  modify (λ w, set_offer_manager (OfferManager.remove_offers ids (_offer_manager w)) w).

Definition offer_manager_lost_node (agent_id : string) : M World unit :=
  emit (EvOfferLost agent_id);;
  modify (λ w, set_offer_manager (OfferManager.lost_node agent_id (_offer_manager w)) w).

(** [threading.Thread(target=...)], [daemon = True], [start()]. *)
Definition start_thread (loop : Loop) : M World unit :=
  modify (λ w, set_started_threads (started_threads w ++ [loop])%list w).

(** A state-changing method of the running job execution bound to the
    local variable.  The object is shared with the manager, which sees the
    mutation too, whether or not the method raises. *)
Definition exe_method (ev : RunningJobExecution.t → Event)
    (method : nat → RunningJobExecution.t → Transition.t)
  : M (RunningJobExecution.t * World) unit :=
  λ '(exe, w),
    let tr := method (length (trace w)) exe in
    let exe' := Transition.apply tr exe in
    let w' := set_job_exe_manager
                (alter (λ _, exe') (RunningJobExecution.id exe) (_job_exe_manager w))
                (set_trace (ev exe :: trace w) w) in
    (match Transition.raised tr with
     | Some e => Raise e
     | None => Normal tt
     end, (exe', w')).

(** The tail shared by the timed callbacks: [duration = now() - started]
    and one message, a warning above the threshold. *)
Definition log_duration (msg : string) (threshold started : Z) : M World unit :=
  finished ← now;
  let duration := finished - started in
  if decide (duration > threshold)
  then logger WARNING msg [LInt duration]
  else logger DEBUG msg [LInt duration].

(** *** [_reconcile_running_jobs] *)

Fixpoint reconcile_loop (job_exes : list JobExecution.t) (task_ids : list string)
  : M World (list string) :=
  match job_exes with
  | [] => ret task_ids
  | job_exe :: rest =>
      running_job_exe ← job_exe_manager_get_job_exe (JobExecution.id job_exe);
      task_ids ←
        match running_job_exe with
        | Some exe =>
            match RunningJobExecution.current_task exe with
            | Some task => ret (task_ids ++ [Task.id task])%list
            | None => ret task_ids
            end
        | None =>
            (* Fail any executions that the scheduler has lost *)
            when ← now;
            call (EvHandleJobFailure (JobExecution.id job_exe) when
                    (get_builtin_error "scheduler-lost"))
                 (λ n, handle_job_failure env n (JobExecution.id job_exe) when
                         (get_builtin_error "scheduler-lost"));;
            ret task_ids
        end;
      reconcile_loop rest task_ids
  end.

Definition _reconcile_running_jobs : M World unit :=
  job_exes ← call EvGetRunningJobExes (get_running_job_exes env);
  task_ids ← reconcile_loop job_exes [];
  recon_thread_add_task_ids task_ids.

(** *** [registered] and [reregistered] *)

Definition registered (driver : Driver) (frameworkId : string) (masterInfo : MasterInfo.t)
  : M World unit :=
  modify (set_driver (Some driver));;
  modify (set_framework_id (Some frameworkId));;
  modify (set_master_hostname (Some (MasterInfo.hostname masterInfo)));;
  modify (set_master_port (Some (MasterInfo.port masterInfo)));;
  call (EvUpdateMaster (MasterInfo.hostname masterInfo) (MasterInfo.port masterInfo))
       (λ n, update_master env n (MasterInfo.hostname masterInfo) (MasterInfo.port masterInfo));;
  logger INFO "Scale scheduler registered as framework %s with Mesos master at %s:%i"
         [LStr frameworkId; LStr (MasterInfo.hostname masterInfo);
          LInt (MasterInfo.port masterInfo)];;
  call EvInitializeSystem (initialize_system env);;
  (* Initial database sync *)
  call EvJobTypeSync (job_type_sync env);;
  call EvSchedulerSync (scheduler_sync env);;
  (* Start up background threads *)
  d ← gets _driver;
  modify (set_db_sync_thread (Some (DatabaseSyncThread.new d)));;
  start_thread DbSyncLoop;;
  d ← gets _driver;
  modify (set_recon_thread (Some (ReconciliationThread.new d)));;
  start_thread ReconLoop;;
  d ← gets _driver;
  modify (set_scheduling_thread (Some (SchedulingThread.new d)));;
  start_thread SchedulingLoop;;
  _reconcile_running_jobs.

Definition reregistered (driver : Driver) (masterInfo : MasterInfo.t) : M World unit :=
  modify (set_driver (Some driver));;
  modify (set_master_hostname (Some (MasterInfo.hostname masterInfo)));;
  modify (set_master_port (Some (MasterInfo.port masterInfo)));;
  call (EvUpdateMaster (MasterInfo.hostname masterInfo) (MasterInfo.port masterInfo))
       (λ n, update_master env n (MasterInfo.hostname masterInfo) (MasterInfo.port masterInfo));;
  logger INFO "Scale scheduler re-registered with Mesos master at %s:%i"
         [LStr (MasterInfo.hostname masterInfo); LInt (MasterInfo.port masterInfo)];;
  (* Update driver for background threads *)
  d ← gets _driver;
  th ← deref _db_sync_thread;
  modify (set_db_sync_thread (Some (DatabaseSyncThread.set_driver d th)));;
  d ← gets _driver;
  th ← deref _recon_thread;
  modify (set_recon_thread (Some (ReconciliationThread.set_driver d th)));;
  d ← gets _driver;
  th ← deref _scheduling_thread;
  modify (set_scheduling_thread (Some (SchedulingThread.set_driver d th)));;
  _reconcile_running_jobs.

(** *** [disconnected] *)

Definition disconnected (driver : Driver) : M World unit :=
  hostname ← gets _master_hostname;
  port ← gets _master_port;
  match hostname with
  | Some h =>
      if decide (h ≠ "")
      then logger ERROR "Scale scheduler disconnected from the Mesos master at %s:%i"
                  [LStr h; LInt (default 0 port)]
      else logger ERROR "Scale scheduler disconnected from the Mesos master" []
  | None => logger ERROR "Scale scheduler disconnected from the Mesos master" []
  end.

(** *** [resourceOffers] and [offerRescinded] *)

(** The body of [for resource in offer.resources], on [(disk, mem, cpus)]. *)
Definition read_resource (acc : Z * Z * Z) (resource : Resource.t) : Z * Z * Z :=
  let '(disk, mem, cpus) := acc in
  if decide (Resource.name resource = "disk") then (Resource.scalar resource, mem, cpus)
  else if decide (Resource.name resource = "mem") then (disk, Resource.scalar resource, cpus)
  else if decide (Resource.name resource = "cpus") then (disk, mem, Resource.scalar resource)
  else acc.

(** The body of [for offer in offers]. *)
Definition project_offer (offer : Offer.t) : ResourceOffer.t :=
  let offer_id := Offer.id offer in
  let agent_id := Offer.slave_id offer in
  let '(disk, mem, cpus) := foldl read_resource (0, 0, 0) (Offer.resources offer) in
  let resources := NodeResources.mk cpus mem disk in
  ResourceOffer.mk offer_id agent_id resources.

Definition resourceOffers (driver : Driver) (offers : list Offer.t) : M World unit :=
  started ← now;
  let agent_ids := Offer.slave_id <$> offers in
  let resource_offers := project_offer <$> offers in
  node_manager_add_agent_ids agent_ids;;
  offer_manager_add_new_offers resource_offers;;
  log_duration "Scheduler resourceOffers() took %.3f seconds" NORMAL_WARN_THRESHOLD started.

Definition offerRescinded (driver : Driver) (offerId : string) : M World unit :=
  started ← now;
  let offer_id := offerId in
  offer_manager_remove_offers [offer_id];;
  log_duration "Scheduler offerRescinded() took %.3f seconds" NORMAL_WARN_THRESHOLD started.

(** *** [statusUpdate] *)

(** Lines 262-272: the guarded block that pulls the task logs into
    [results]. *)
Definition pull_logs (hostname : string) (port : Z) (task_id : string)
  : M (TaskResults.t * World) unit :=
  try_except
    (log_start_time ← lift now;
     task_dir ← lift (call (EvTaskDirectory hostname port task_id)
                           (λ n, get_slave_task_directory env n hostname port task_id));
     out ← lift (call (EvTaskFile hostname port task_dir "stdout")
                      (λ n, get_slave_task_file env n hostname port task_dir "stdout"));
     set_local (TaskResults.set_stdout out);;
     err ← lift (call (EvTaskFile hostname port task_dir "stderr")
                      (λ n, get_slave_task_file env n hostname port task_dir "stderr"));
     set_local (TaskResults.set_stderr err);;
     log_end_time ← lift now;
     lift (logger DEBUG "Time to pull logs for task: %s" [LInt (log_end_time - log_start_time)]))
    (λ _, lift (logger EXCEPTION "Error pulling logs for task %s" [LStr task_id])).

(** Lines 274-287: apply the status update to the running job execution. *)
Definition apply_status_update (status : TaskStatus.t) (task_id : string)
    (results : TaskResults.t) : M (RunningJobExecution.t * World) unit :=
  match TaskStatus.state status with
  | TASK_RUNNING =>
      running_job_exe ← get_local;
      let hostname := RunningJobExecution._node_hostname running_job_exe in
      let port := RunningJobExecution._node_port running_job_exe in
      task_dir ← lift (call (EvTaskDirectory hostname port task_id)
                            (λ n, get_slave_task_directory env n hostname port task_id));
      stdout_url ← lift (call (EvTaskUrl hostname port task_dir "stdout")
                              (λ n, get_slave_task_url env n hostname port task_dir "stdout"));
      stderr_url ← lift (call (EvTaskUrl hostname port task_dir "stderr")
                              (λ n, get_slave_task_url env n hostname port task_dir "stderr"));
      exe_method
        (λ e, EvTaskRunning (RunningJobExecution.id e) task_id (TaskResults.when results)
                stdout_url stderr_url)
        (λ n e, task_running env n e task_id (TaskResults.when results) stdout_url stderr_url)
  | TASK_FINISHED =>
      exe_method (λ e, EvTaskComplete (RunningJobExecution.id e) results)
                 (λ n e, task_complete env n e results)
  | TASK_LOST =>
      exe_method
        (λ e, EvTaskFail (RunningJobExecution.id e) results
                (Some (get_builtin_error "mesos-lost")))
        (λ n e, task_fail env n e results (Some (get_builtin_error "mesos-lost")))
  | TASK_ERROR | TASK_FAILED | TASK_KILLED =>
      exe_method (λ e, EvTaskFail (RunningJobExecution.id e) results None)
                 (λ n e, task_fail env n e results None)
  | TASK_STAGING | TASK_STARTING => ret tt
  end.

(** Lines 245-252: everything before the [try]. *)
Definition statusUpdate_entry (status : TaskStatus.t) : M World Z :=
  started ← now;
  let task_id := TaskStatus.task_id status in
  logger INFO "Status update for task %s: %s"
         [LStr task_id; LStr (status_to_string env (TaskStatus.state status))];;
  (* Since we have a status update for this task, remove it from reconciliation set *)
  recon_thread_remove_task_id task_id;;
  ret started.

(** Lines 255-294: the body of the [try]. *)
Definition statusUpdate_try (status : TaskStatus.t) : M World unit :=
  let task_id := TaskStatus.task_id status in
  let job_exe_id := get_job_exe_id env task_id in
  running_job_exe ← job_exe_manager_get_job_exe job_exe_id;
  match running_job_exe with
  | Some running_job_exe =>
      let results := TaskResults.new task_id in
      let results := TaskResults.set_exit_code (parse_exit_code env status) results in
      let results := TaskResults.set_when (get_status_timestamp env status) results in
      results ←
        (if decide (TaskStatus.state status ≠ TASK_LOST)
         then with_local results
                (pull_logs (RunningJobExecution._node_hostname running_job_exe)
                           (RunningJobExecution._node_port running_job_exe) task_id)
         else ret results);
      (* Apply status update to running job execution *)
      running_job_exe ← with_local running_job_exe (apply_status_update status task_id results);
      (* Remove finished job execution *)
      if RunningJobExecution.is_finished running_job_exe
      then job_exe_manager_remove_job_exe job_exe_id
      else ret tt
  | None =>
      (* Scheduler doesn't have any knowledge of this job execution *)
      when ← now;
      call (EvHandleJobFailure job_exe_id when (get_builtin_error "scheduler-lost"))
           (λ n, handle_job_failure env n job_exe_id when (get_builtin_error "scheduler-lost"))
  end.

(** Lines 296-298: the handler of the [try]. *)
Definition statusUpdate_except (status : TaskStatus.t) : M World unit :=
  let task_id := TaskStatus.task_id status in
  let job_exe_id := get_job_exe_id env task_id in
  logger EXCEPTION "Error handling status update for job execution: %s" [LInt job_exe_id];;
  (* Error handling status update, add task so it can be reconciled *)
  recon_thread_add_task_ids [task_id].

Definition statusUpdate (driver : Driver) (status : TaskStatus.t) : M World unit :=
  started ← statusUpdate_entry status;
  try_except (statusUpdate_try status) (λ _, statusUpdate_except status);;
  log_duration "Scheduler statusUpdate() took %.3f seconds" DATABASE_WARN_THRESHOLD started.

(** *** [frameworkMessage], [executorLost], [error] *)

Definition frameworkMessage (driver : Driver) (executorId slaveId message : string)
  : M World unit :=
  started ← now;
  let agent_id := slaveId in
  node ← node_manager_get_node agent_id;
  match node with
  | Some node =>
      logger INFO "Message from %s on host %s: %s"
             [LStr executorId; LStr (Node.hostname node); LStr message]
  | None =>
      logger INFO "Message from %s on agent %s: %s" [LStr executorId; LStr agent_id; LStr message]
  end;;
  log_duration "Scheduler frameworkMessage() took %.3f seconds" NORMAL_WARN_THRESHOLD started.

Definition executorLost (driver : Driver) (executorId slaveId : string) (status : Z)
  : M World unit :=
  started ← now;
  let agent_id := slaveId in
  node ← node_manager_get_node agent_id;
  match node with
  | Some node =>
      logger ERROR "Executor %s lost on host: %s" [LStr executorId; LStr (Node.hostname node)]
  | None =>
      logger ERROR "Executor %s lost on agent: %s" [LStr executorId; LStr agent_id]
  end;;
  log_duration "Scheduler executorLost() took %.3f seconds" NORMAL_WARN_THRESHOLD started.

Definition error (driver : Driver) (message : string) : M World unit :=
  logger ERROR "Unrecoverable error: %s" [LStr message].

(** *** [slaveLost] *)

(** Lines 358-367: the body of the loop over the executions on the node. *)
Definition slaveLost_exe (started : Z) : M (RunningJobExecution.t * World) unit :=
  try_except_DatabaseError
    (exe_method (λ e, EvExecutionLost (RunningJobExecution.id e) started)
                (λ n e, execution_lost env n e started))
    (running_job_exe ← get_local;
     lift (logger EXCEPTION "Error failing lost job execution: %s"
                  [LInt (RunningJobExecution.id running_job_exe)]);;
     (* Error failing execution, add task so it can be reconciled *)
     match RunningJobExecution.current_task running_job_exe with
     | Some task => lift (recon_thread_add_task_ids [Task.id task])
     | None => ret tt
     end);;
  running_job_exe ← get_local;
  if RunningJobExecution.is_finished running_job_exe
  then lift (job_exe_manager_remove_job_exe (RunningJobExecution.id running_job_exe))
  else ret tt.

Definition slaveLost (driver : Driver) (slaveId : string) : M World unit :=
  started ← now;
  let agent_id := slaveId in
  node ← node_manager_get_node agent_id;
  match node with
  | Some node => logger ERROR "Node lost on host %s" [LStr (Node.hostname node)]
  | None => logger ERROR "Node lost on agent %s" [LStr agent_id]
  end;;
  node_manager_lost_node agent_id;;
  offer_manager_lost_node agent_id;;
  (* Fail job executions that were running on the lost node *)
  match node with
  | Some node =>
      exes ← job_exe_manager_get_job_exes_on_node (Node.id node);
      for_each exes (λ running_job_exe, with_local running_job_exe (slaveLost_exe started);; ret tt)
  | None => ret tt
  end;;
  log_duration "Scheduler slaveLost() took %.3f seconds" DATABASE_WARN_THRESHOLD started.

(** *** [shutdown] *)

Definition shutdown : M World unit :=
  logger INFO "Scheduler shutdown invoked, stopping background threads" [];;
  th ← deref _db_sync_thread;
  emit (EvThreadShutdown DbSyncLoop);;
  modify (set_db_sync_thread (Some (DatabaseSyncThread.shutdown th)));;
  th ← deref _recon_thread;
  emit (EvThreadShutdown ReconLoop);;
  modify (set_recon_thread (Some (ReconciliationThread.shutdown th)));;
  th ← deref _scheduling_thread;
  emit (EvThreadShutdown SchedulingLoop);;
  modify (set_scheduling_thread (Some (SchedulingThread.shutdown th))).

End Dispatcher.

(** ** Concrete collaborators and worlds

    A backing store and agents that always answer, with running job
    executions that follow the task state machine of the design
    (RUNNING moves launched to running, FINISHED finishes, LOST and node
    loss lose, ERROR/FAILED/KILLED fail), and variants in which one
    collaborator fails. *)
Module Scenario.

Definition running (e : RunningJobExecution.t) : Transition.t :=
  Transition.mk (RunningJobExecution.current_task e)
    (match RunningJobExecution.phase e with Launched => Running | p => p end) None.
Definition finish (p : Phase) : Transition.t := Transition.mk None p None.
Definition db_error (e : RunningJobExecution.t) : Transition.t :=
  Transition.mk (RunningJobExecution.current_task e) (RunningJobExecution.phase e)
    (Some DatabaseError).

(** Task ids of the scenarios and the job execution each embeds. *)
Definition job_exe_of (task_id : string) : Z :=
  if decide (task_id = "t1") then 1
  else if decide (task_id = "t2") then 2
  else if decide (task_id = "t3") then 3
  else 0.

Definition healthy : Collaborators :=
  mkCollaborators
    (λ n, 10 * Z.of_nat n)
    job_exe_of
    (λ _, "TASK")
    (λ _, Some 0)
    TaskStatus.timestamp
    (λ _ _ _, Normal tt) (λ _, Normal tt) (λ _, Normal tt) (λ _, Normal tt)
    (λ _, Normal [JobExecution.mk 1; JobExecution.mk 9])
    (λ _ _ _ _, Normal tt)
    (λ _ _ _ task_id, Normal ("/slave/" +:+ task_id))
    (λ _ _ _ _ file, Normal ("contents of " +:+ file))
    (λ _ host _ task_dir file, Normal (host +:+ task_dir +:+ "/" +:+ file))
    (λ _ e _ _ _ _, running e)
    (λ _ _ _, finish Finished)
    (λ _ _ _ error, finish (match error with Some _ => Lost | None => Failed end))
    (λ _ _ _, finish Lost).

(** The backing store is down: every write to it raises. *)
Definition database_down : Collaborators :=
  mkCollaborators
    (now_at healthy) (get_job_exe_id healthy) (status_to_string healthy)
    (parse_exit_code healthy) (get_status_timestamp healthy)
    (λ _ _ _, Raise DatabaseError) (λ _, Raise DatabaseError)
    (λ _, Raise DatabaseError) (λ _, Raise DatabaseError)
    (λ _, Raise DatabaseError)
    (λ _ _ _ _, Raise DatabaseError)
    (get_slave_task_directory healthy) (get_slave_task_file healthy)
    (get_slave_task_url healthy)
    (λ _ e _ _ _ _, db_error e) (λ _ e _, db_error e) (λ _ e _ _, db_error e)
    (λ _ e _, db_error e).

(** The agents are unreachable: every log retrieval call raises. *)
Definition agent_down : Collaborators :=
  mkCollaborators
    (now_at healthy) (get_job_exe_id healthy) (status_to_string healthy)
    (parse_exit_code healthy) (get_status_timestamp healthy)
    (update_master healthy) (initialize_system healthy) (job_type_sync healthy)
    (scheduler_sync healthy) (get_running_job_exes healthy) (handle_job_failure healthy)
    (λ _ _ _ _, Raise (OtherException "HTTPError"))
    (λ _ _ _ _ _, Raise (OtherException "HTTPError"))
    (λ _ _ _ _ _, Raise (OtherException "HTTPError"))
    (task_running healthy) (task_complete healthy) (task_fail healthy)
    (execution_lost healthy).

(** A running job execution fails with something else than a
    [DatabaseError] when told its node is lost. *)
Definition execution_lost_crashes : Collaborators :=
  mkCollaborators
    (now_at healthy) (get_job_exe_id healthy) (status_to_string healthy)
    (parse_exit_code healthy) (get_status_timestamp healthy)
    (update_master healthy) (initialize_system healthy) (job_type_sync healthy)
    (scheduler_sync healthy) (get_running_job_exes healthy) (handle_job_failure healthy)
    (get_slave_task_directory healthy) (get_slave_task_file healthy)
    (get_slave_task_url healthy)
    (task_running healthy) (task_complete healthy) (task_fail healthy)
    (λ _ e _,
       Transition.mk (RunningJobExecution.current_task e) (RunningJobExecution.phase e)
         (Some (OtherException "ValueError"))).


Definition exe1 : RunningJobExecution.t :=
  RunningJobExecution.mk 1 10 "host1" 5051 (Some (Task.mk "t1")) Launched.
Definition exe2 : RunningJobExecution.t :=
  RunningJobExecution.mk 2 10 "host1" 5051 (Some (Task.mk "t2")) Running.
Definition exe3 : RunningJobExecution.t :=
  RunningJobExecution.mk 3 20 "host2" 5051 (Some (Task.mk "t3")) Running.

Definition node1 : Node.t := Node.mk 10 "host1" 5051 false.
Definition node2 : Node.t := Node.mk 20 "host2" 5051 false.

Definition offer1 : ResourceOffer.t :=
  ResourceOffer.mk "o1" "a1" (NodeResources.mk 4 8192 10240).
Definition offer2 : ResourceOffer.t :=
  ResourceOffer.mk "o2" "a2" (NodeResources.mk 2 4096 1024).

Definition recon_thread : ReconciliationThread.t :=
  ReconciliationThread.mk (Some 0%nat) true {["t1"; "t2"; "t3"]}.

(** A scheduler that has registered with driver 0: three executions run on
    two nodes, and all three tasks await reconciliation. *)
Definition busy : World :=
  mkWorld (Some 0%nat) 0%nat (Some "framework") (Some "master") (Some 5050)
    (<[1 := exe1]> (<[2 := exe2]> (<[3 := exe3]> ∅)))
    (NodeManager.mk (<["a1" := node1]> (<["a2" := node2]> ∅)) ∅)
    (OfferManager.mk [offer1; offer2] ∅)
    (Some (DatabaseSyncThread.new (Some 0%nat)))
    (Some recon_thread)
    (Some (SchedulingThread.new (Some 0%nat)))
    [DbSyncLoop; ReconLoop; SchedulingLoop] [].

Definition status (task_id : string) (state : TaskState) : TaskStatus.t :=
  TaskStatus.mk task_id state "" 1000.

End Scenario.

(** * Reasoning about the dispatcher *)

(** ** What a computation leaves untouched

    [preserves R m]: whatever [m] does, and whether it returns or raises,
    the state it leaves is related by [R] to the state it started from. *)
Definition preserves {S A} (R : relation S) (m : M S A) : Prop :=
  ∀ s, R s (m s).2.

(** A relation on worlds seen from a block that owns a local object. *)
Definition on_world {O} (R : relation World) : relation (O * World) :=
  λ s s', R s.2 s'.2.

#[global] Instance on_world_preorder {O} (R : relation World) :
  PreOrder R → PreOrder (@on_world O R).
Proof.
  intros [Hr Ht]. split.
  - intros [o w]. apply Hr.
  - intros [o1 w1] [o2 w2] [o3 w3]. apply Ht.
Qed.

Section Preserves.

Context {S : Type} (R : relation S) `{!PreOrder R}.

Lemma preserves_ret {A} (a : A) : preserves R (ret a).
Proof. intros s. reflexivity. Qed.

Lemma preserves_raise {A} (e : Exception) : preserves R (@raise S A e).
Proof. intros s. reflexivity. Qed.

Lemma preserves_answer {A} (r : Result A) : preserves R (answer r).
Proof. intros s. reflexivity. Qed.

Lemma preserves_gets {A} (f : S → A) : preserves R (gets f).
Proof. intros s. reflexivity. Qed.

Lemma preserves_modify (f : S → S) : (∀ s, R s (f s)) → preserves R (modify f).
Proof. intros H s. apply H. Qed.

Lemma preserves_bind {A B} (m : M S A) (k : A → M S B) :
  preserves R m → (∀ a, preserves R (k a)) → preserves R (m ≫= k).
Proof.
  intros Hm Hk s. unfold mbind, M_bind, bind.
  specialize (Hm s). destruct (m s) as [[a|e] s']; cbn in *; [|done].
  etrans; [exact Hm|apply Hk].
Qed.

Lemma preserves_try_except {A} (body : M S A) (handler : Exception → M S A) :
  preserves R body → (∀ e, preserves R (handler e)) →
  preserves R (try_except body handler).
Proof.
  intros Hb Hh s. unfold try_except.
  specialize (Hb s). destruct (body s) as [[a|e] s']; cbn in *; [done|].
  etrans; [exact Hb|apply Hh].
Qed.

Lemma preserves_try_except_DatabaseError {A} (body handler : M S A) :
  preserves R body → preserves R handler →
  preserves R (try_except_DatabaseError body handler).
Proof.
  intros Hb Hh. apply preserves_try_except; [done|].
  intros e. case_decide; [done|apply preserves_raise].
Qed.

Lemma preserves_for_each {A} (l : list A) (body : A → M S unit) :
  (∀ x, preserves R (body x)) → preserves R (for_each l body).
Proof.
  intros Hb. induction l as [|x l IH]; cbn.
  - apply preserves_ret.
  - apply preserves_bind; auto.
Qed.

End Preserves.

Section PreservesLocal.

Context {O : Type} (R : relation World) `{!PreOrder R}.

Lemma preserves_lift {A} (m : M World A) :
  preserves R m → preserves (@on_world O R) (lift m).
Proof.
  intros Hm [o w]. unfold lift, on_world. specialize (Hm w).
  destruct (m w) as [r w']. exact Hm.
Qed.

Lemma preserves_get_local : preserves (@on_world O R) get_local.
Proof. intros [o w]. unfold on_world. cbn. reflexivity. Qed.

Lemma preserves_set_local (f : O → O) : preserves (@on_world O R) (set_local f).
Proof. intros [o w]. unfold on_world. cbn. reflexivity. Qed.

Lemma preserves_with_local {A} (o : O) (m : M (O * World) A) :
  preserves (@on_world O R) m → preserves R (with_local o m).
Proof.
  intros Hm w. unfold with_local. specialize (Hm (o, w)). unfold on_world in Hm.
  destruct (m (o, w)) as [r [o' w']]. exact Hm.
Qed.

End PreservesLocal.

(** ** Footprints

    Which attributes a relation on worlds lets a computation change. *)
Class TraceFootprint (R : relation World) := {
  footprint_preorder :: PreOrder R;
  footprint_emit : ∀ ev w, R w (set_trace (ev :: trace w) w) }.

Class JobExeFootprint (R : relation World) := {
  footprint_job_exes : ∀ m w, R w (set_job_exe_manager m w) }.

Class AgentFootprint (R : relation World) := {
  footprint_nodes : ∀ m w, R w (set_node_manager m w);
  footprint_offers : ∀ m w, R w (set_offer_manager m w) }.

Class IdentityFootprint (R : relation World) := {
  footprint_driver : ∀ v w, R w (set_driver v w);
  footprint_framework_id : ∀ v w, R w (set_framework_id v w);
  footprint_master_hostname : ∀ v w, R w (set_master_hostname v w);
  footprint_master_port : ∀ v w, R w (set_master_port v w);
  footprint_db_sync_thread : ∀ v w, R w (set_db_sync_thread v w);
  footprint_recon_thread : ∀ v w, R w (set_recon_thread v w);
  footprint_scheduling_thread : ∀ v w, R w (set_scheduling_thread v w);
  footprint_started_threads : ∀ v w, R w (set_started_threads v w) }.

Class ReconAddFootprint (R : relation World) := {
  footprint_recon_add : ∀ l th w,
    _recon_thread w = Some th →
    R w (set_recon_thread (Some (ReconciliationThread.add_task_ids l th)) w) }.

Class ReconRemoveFootprint (R : relation World) := {
  footprint_recon_remove : ∀ t th w,
    _recon_thread w = Some th →
    R w (set_recon_thread (Some (ReconciliationThread.remove_task_id t th)) w) }.

(** The reconciliation thread is the same object, perhaps with another
    reconciliation set. *)
Definition same_recon_thread (o o' : option ReconciliationThread.t) : Prop :=
  match o, o' with
  | Some th, Some th' =>
      ReconciliationThread.driver th' = ReconciliationThread.driver th ∧
      ReconciliationThread.running th' = ReconciliationThread.running th
  | None, None => True
  | _, _ => False
  end.

(** ... and its reconciliation set has only grown. *)
Definition grown_recon_thread (o o' : option ReconciliationThread.t) : Prop :=
  match o, o' with
  | Some th, Some th' =>
      ReconciliationThread.driver th' = ReconciliationThread.driver th ∧
      ReconciliationThread.running th' = ReconciliationThread.running th ∧
      ReconciliationThread.task_ids th ⊆ ReconciliationThread.task_ids th'
  | None, None => True
  | _, _ => False
  end.

(** [dispatching w w']: [w'] differs from [w] at most in the contents of
    the managers, in the reconciliation set and in the calls recorded.  The
    identity of the scheduler, its driver and master, its loop objects and
    the threads started are the same. *)
Record dispatching (w w' : World) : Prop := mkDispatching {
  dispatching_driver : _driver w' = _driver w;
  dispatching_executor : _executor w' = _executor w;
  dispatching_framework_id : _framework_id w' = _framework_id w;
  dispatching_master_hostname : _master_hostname w' = _master_hostname w;
  dispatching_master_port : _master_port w' = _master_port w;
  dispatching_db_sync_thread : _db_sync_thread w' = _db_sync_thread w;
  dispatching_recon_thread : same_recon_thread (_recon_thread w) (_recon_thread w');
  dispatching_scheduling_thread : _scheduling_thread w' = _scheduling_thread w;
  dispatching_started_threads : started_threads w' = started_threads w;
  dispatching_trace : ∃ post, trace w' = (post ++ trace w)%list }.

(** [reconciling w w']: [w'] differs from [w] at most by task ids added to
    the reconciliation set and by the calls recorded. *)
Record reconciling (w w' : World) : Prop := mkReconciling {
  reconciling_driver : _driver w' = _driver w;
  reconciling_executor : _executor w' = _executor w;
  reconciling_framework_id : _framework_id w' = _framework_id w;
  reconciling_master_hostname : _master_hostname w' = _master_hostname w;
  reconciling_master_port : _master_port w' = _master_port w;
  reconciling_job_exe_manager : _job_exe_manager w' = _job_exe_manager w;
  reconciling_node_manager : _node_manager w' = _node_manager w;
  reconciling_offer_manager : _offer_manager w' = _offer_manager w;
  reconciling_db_sync_thread : _db_sync_thread w' = _db_sync_thread w;
  reconciling_recon_thread : grown_recon_thread (_recon_thread w) (_recon_thread w');
  reconciling_scheduling_thread : _scheduling_thread w' = _scheduling_thread w;
  reconciling_started_threads : started_threads w' = started_threads w;
  reconciling_trace : ∃ post, trace w' = (post ++ trace w)%list }.

Lemma same_recon_thread_refl o : same_recon_thread o o.
Proof. destruct o; cbn; auto. Qed.

Lemma same_recon_thread_trans o1 o2 o3 :
  same_recon_thread o1 o2 → same_recon_thread o2 o3 → same_recon_thread o1 o3.
Proof.
  destruct o1, o2, o3; cbn; try tauto.
  intros [-> ->] [-> ->]. auto.
Qed.

Lemma grown_recon_thread_refl o : grown_recon_thread o o.
Proof. destruct o; cbn; auto. Qed.

Lemma grown_recon_thread_trans o1 o2 o3 :
  grown_recon_thread o1 o2 → grown_recon_thread o2 o3 → grown_recon_thread o1 o3.
Proof.
  destruct o1, o2, o3; cbn; try tauto.
  intros (-> & -> & H1) (-> & -> & H2). repeat split; auto. set_solver.
Qed.

Lemma trace_suffix_trans (t1 t2 t3 : list Event) :
  (∃ post, t2 = (post ++ t1)%list) → (∃ post, t3 = (post ++ t2)%list) →
  ∃ post, t3 = (post ++ t1)%list.
Proof.
  intros [p1 ->] [p2 ->]. exists (p2 ++ p1)%list. by rewrite app_assoc.
Qed.

#[global] Instance dispatching_preorder : PreOrder dispatching.
Proof.
  split.
  - intros w. split; auto using same_recon_thread_refl. by exists [].
  - intros w1 w2 w3 [] []. split; try congruence.
    + eauto using same_recon_thread_trans.
    + eauto using trace_suffix_trans.
Qed.

#[global] Instance reconciling_preorder : PreOrder reconciling.
Proof.
  split.
  - intros w. split; auto using grown_recon_thread_refl. by exists [].
  - intros w1 w2 w3 [] []. split; try congruence.
    + eauto using grown_recon_thread_trans.
    + eauto using trace_suffix_trans.
Qed.

#[global] Instance dispatching_trace_footprint : TraceFootprint dispatching.
Proof.
  split; [apply _|]. intros ev w.
  split; cbn; auto using same_recon_thread_refl. by exists [ev].
Qed.

#[global] Instance dispatching_job_exe_footprint : JobExeFootprint dispatching.
Proof.
  split; intros m w; split; cbn; auto using same_recon_thread_refl; by exists [].
Qed.

#[global] Instance dispatching_agent_footprint : AgentFootprint dispatching.
Proof.
  split; intros m w; split; cbn; auto using same_recon_thread_refl; by exists [].
Qed.

#[global] Instance dispatching_recon_add_footprint : ReconAddFootprint dispatching.
Proof.
  split. intros l th w H. split; cbn; auto; [by rewrite H|by exists []].
Qed.

#[global] Instance dispatching_recon_remove_footprint : ReconRemoveFootprint dispatching.
Proof.
  split. intros l th w H. split; cbn; auto; [by rewrite H|by exists []].
Qed.

#[global] Instance reconciling_trace_footprint : TraceFootprint reconciling.
Proof.
  split; [apply _|]. intros ev w.
  split; cbn; auto using grown_recon_thread_refl. by exists [ev].
Qed.

#[global] Instance reconciling_recon_add_footprint : ReconAddFootprint reconciling.
Proof.
  split. intros l th w H. split; cbn; auto; [|by exists []].
  rewrite H. cbn. repeat split; auto. set_solver.
Qed.

(** ** Footprints of the primitive calls and of the callbacks *)

Create HintDb footprint.

#[global] Hint Resolve preserves_ret preserves_raise preserves_answer preserves_gets
  preserves_get_local preserves_set_local : footprint.

Ltac footprint_step :=
  lazymatch goal with
  | |- ∀ _, _ => intros
  | |- PreOrder _ => apply _
  | |- preserves _ (let _ := _ in _) => cbv zeta
  | |- preserves _ (mbind _ _) => apply preserves_bind
  | |- preserves _ (try_except _ _) => apply preserves_try_except
  | |- preserves _ (try_except_DatabaseError _ _) => apply preserves_try_except_DatabaseError
  | |- preserves _ (for_each _ _) => apply preserves_for_each
  | |- preserves _ (with_local _ _) => apply preserves_with_local
  | |- preserves _ (lift _) => apply preserves_lift
  | |- preserves _ (match ?x with _ => _ end) => destruct x
  | |- preserves _ _ => solve [eauto with footprint typeclass_instances]
  end.

Ltac footprint := repeat footprint_step.

Section Footprints.

Variable env : Collaborators.
Context (R : relation World) `{!TraceFootprint R}.

Lemma preserves_emit ev : preserves R (emit ev).
Proof. apply preserves_modify; try apply _. intros w. apply footprint_emit. Qed.

Lemma preserves_tick : preserves R tick.
Proof. unfold tick. footprint. Qed.

Hint Resolve preserves_emit preserves_tick : footprint.

Lemma preserves_call {A} ev (outcome : nat → Result A) : preserves R (call ev outcome).
Proof. unfold call. footprint. Qed.

Lemma preserves_now : preserves R (now env).
Proof. unfold now. footprint. Qed.

Lemma preserves_logger lvl fmt args : preserves R (logger lvl fmt args).
Proof. apply preserves_emit. Qed.

Lemma preserves_deref {A} (field : World → option A) : preserves R (deref field).
Proof. unfold deref. footprint. Qed.

Hint Resolve preserves_call preserves_now preserves_logger preserves_deref : footprint.

Lemma preserves_log_duration msg threshold started :
  preserves R (log_duration env msg threshold started).
Proof. unfold log_duration. footprint. Qed.

Lemma preserves_job_exe_manager_get_job_exe i :
  preserves R (job_exe_manager_get_job_exe i).
Proof. unfold job_exe_manager_get_job_exe. footprint. Qed.

Lemma preserves_job_exe_manager_get_job_exes_on_node i :
  preserves R (job_exe_manager_get_job_exes_on_node i).
Proof. unfold job_exe_manager_get_job_exes_on_node. footprint. Qed.

Lemma preserves_node_manager_get_node a : preserves R (node_manager_get_node a).
Proof. unfold node_manager_get_node. footprint. Qed.

Hint Resolve preserves_log_duration preserves_job_exe_manager_get_job_exe
  preserves_job_exe_manager_get_job_exes_on_node preserves_node_manager_get_node : footprint.

Lemma preserves_pull_logs hostname port task_id :
  preserves (on_world R) (pull_logs env hostname port task_id).
Proof. unfold pull_logs. footprint. Qed.

Lemma preserves_reconcile_loop job_exes task_ids :
  preserves R (reconcile_loop env job_exes task_ids).
Proof.
  revert task_ids. induction job_exes as [|job_exe rest IH]; intros task_ids; cbn.
  - footprint.
  - footprint; apply IH.
Qed.

Lemma preserves_disconnected driver : preserves R (disconnected driver).
Proof. unfold disconnected. footprint. Qed.

Lemma preserves_frameworkMessage driver executorId slaveId message :
  preserves R (frameworkMessage env driver executorId slaveId message).
Proof. unfold frameworkMessage. footprint. Qed.

Lemma preserves_executorLost driver executorId slaveId status :
  preserves R (executorLost env driver executorId slaveId status).
Proof. unfold executorLost. footprint. Qed.

Lemma preserves_error driver message : preserves R (error driver message).
Proof. unfold error. footprint. Qed.

Section ReconAdd.

Context `{!ReconAddFootprint R}.

Lemma preserves_recon_thread_add_task_ids l : preserves R (recon_thread_add_task_ids l).
Proof.
  intros w. unfold recon_thread_add_task_ids, deref.
  cbv [mbind M_bind bind gets emit modify ret raise]. cbn.
  destruct (_recon_thread w) as [th|] eqn:Hth; cbn; [|reflexivity].
  etrans; [apply footprint_emit|]. by apply footprint_recon_add.
Qed.

Hint Resolve preserves_recon_thread_add_task_ids preserves_reconcile_loop : footprint.

Lemma preserves_statusUpdate_except status : preserves R (statusUpdate_except env status).
Proof. unfold statusUpdate_except. footprint. Qed.

Lemma preserves_reconcile_running_jobs : preserves R (_reconcile_running_jobs env).
Proof. unfold _reconcile_running_jobs. footprint. Qed.

End ReconAdd.

Section Agents.

Context `{!AgentFootprint R}.

Lemma preserves_node_manager_add_agent_ids l : preserves R (node_manager_add_agent_ids l).
Proof.
  unfold node_manager_add_agent_ids. footprint.
  apply preserves_modify; try apply _. intros w. apply footprint_nodes.
Qed.

Lemma preserves_node_manager_lost_node a : preserves R (node_manager_lost_node a).
Proof.
  unfold node_manager_lost_node. footprint.
  apply preserves_modify; try apply _. intros w. apply footprint_nodes.
Qed.

Lemma preserves_offer_manager_add_new_offers l :
  preserves R (offer_manager_add_new_offers l).
Proof.
  unfold offer_manager_add_new_offers. footprint.
  apply preserves_modify; try apply _. intros w. apply footprint_offers.
Qed.

Lemma preserves_offer_manager_remove_offers l :
  preserves R (offer_manager_remove_offers l).
Proof.
  unfold offer_manager_remove_offers. footprint.
  apply preserves_modify; try apply _. intros w. apply footprint_offers.
Qed.

Lemma preserves_offer_manager_lost_node a : preserves R (offer_manager_lost_node a).
Proof.
  unfold offer_manager_lost_node. footprint.
  apply preserves_modify; try apply _. intros w. apply footprint_offers.
Qed.

Hint Resolve preserves_node_manager_add_agent_ids preserves_node_manager_lost_node
  preserves_offer_manager_add_new_offers preserves_offer_manager_remove_offers
  preserves_offer_manager_lost_node : footprint.

Lemma preserves_resourceOffers driver offers :
  preserves R (resourceOffers env driver offers).
Proof. unfold resourceOffers. footprint. Qed.

Lemma preserves_offerRescinded driver offerId :
  preserves R (offerRescinded env driver offerId).
Proof. unfold offerRescinded. footprint. Qed.

Section Managers.

Context `{!JobExeFootprint R}.

Lemma preserves_job_exe_manager_remove_job_exe i :
  preserves R (job_exe_manager_remove_job_exe i).
Proof.
  unfold job_exe_manager_remove_job_exe. footprint.
  apply preserves_modify; try apply _. intros w. apply footprint_job_exes.
Qed.

Lemma preserves_exe_method ev method : preserves (on_world R) (exe_method ev method).
Proof.
  intros [exe w]. unfold on_world, exe_method. cbn.
  etrans; [apply footprint_emit|]. apply footprint_job_exes.
Qed.

Hint Resolve preserves_job_exe_manager_remove_job_exe preserves_exe_method
  preserves_pull_logs : footprint.

Lemma preserves_apply_status_update status task_id results :
  preserves (on_world R) (apply_status_update env status task_id results).
Proof. unfold apply_status_update. footprint. Qed.

Hint Resolve preserves_apply_status_update : footprint.

Lemma preserves_statusUpdate_try status : preserves R (statusUpdate_try env status).
Proof. unfold statusUpdate_try. footprint. Qed.

Section Recon.

Context `{!ReconAddFootprint R} `{!ReconRemoveFootprint R}.

Lemma preserves_recon_thread_remove_task_id t :
  preserves R (recon_thread_remove_task_id t).
Proof.
  intros w. unfold recon_thread_remove_task_id, deref.
  cbv [mbind M_bind bind gets emit modify ret raise]. cbn.
  destruct (_recon_thread w) as [th|] eqn:Hth; cbn; [|reflexivity].
  etrans; [apply footprint_emit|]. by apply footprint_recon_remove.
Qed.

Hint Resolve preserves_recon_thread_remove_task_id preserves_recon_thread_add_task_ids
  preserves_statusUpdate_try preserves_statusUpdate_except : footprint.

Lemma preserves_statusUpdate_entry status : preserves R (statusUpdate_entry env status).
Proof. unfold statusUpdate_entry. footprint. Qed.

Hint Resolve preserves_statusUpdate_entry : footprint.

Lemma preserves_statusUpdate driver status : preserves R (statusUpdate env driver status).
Proof. unfold statusUpdate. footprint. Qed.

Lemma preserves_slaveLost_exe started : preserves (on_world R) (slaveLost_exe env started).
Proof. unfold slaveLost_exe. footprint. Qed.

Hint Resolve preserves_slaveLost_exe : footprint.

Lemma preserves_slaveLost driver slaveId : preserves R (slaveLost env driver slaveId).
Proof. unfold slaveLost. footprint. Qed.

End Recon.

End Managers.

End Agents.

Section Identity.

Context `{!IdentityFootprint R} `{!ReconAddFootprint R}.

Hint Resolve preserves_reconcile_running_jobs : footprint.

Ltac identity_footprint :=
  footprint;
  apply preserves_modify; try apply _; intros w;
  first [ apply footprint_driver | apply footprint_framework_id
        | apply footprint_master_hostname | apply footprint_master_port
        | apply footprint_db_sync_thread | apply footprint_recon_thread
        | apply footprint_scheduling_thread | apply footprint_started_threads ].

Lemma preserves_registered driver frameworkId masterInfo :
  preserves R (registered env driver frameworkId masterInfo).
Proof. unfold registered, start_thread. identity_footprint. Qed.

Lemma preserves_reregistered driver masterInfo :
  preserves R (reregistered env driver masterInfo).
Proof. unfold reregistered. identity_footprint. Qed.

Lemma preserves_shutdown : preserves R shutdown.
Proof. unfold shutdown. identity_footprint. Qed.

End Identity.

End Footprints.

(** ** Running the dispatcher symbolically *)

Ltac run :=
  cbv [mbind M_bind mret M_ret bind ret raise answer gets modify try_except
       try_except_DatabaseError lift get_local set_local with_local
       emit tick call now logger deref
       recon_thread_remove_task_id recon_thread_add_task_ids
       job_exe_manager_get_job_exe job_exe_manager_remove_job_exe
       job_exe_manager_get_job_exes_on_node node_manager_get_node
       node_manager_add_agent_ids node_manager_lost_node
       offer_manager_add_new_offers offer_manager_remove_offers offer_manager_lost_node
       start_thread exe_method recon_set history
       set_driver set_framework_id set_master_hostname set_master_port
       set_job_exe_manager set_node_manager set_offer_manager set_db_sync_thread
       set_recon_thread set_scheduling_thread set_started_threads set_trace
       _driver _executor _framework_id _master_hostname _master_port
       _job_exe_manager _node_manager _offer_manager _db_sync_thread
       _recon_thread _scheduling_thread started_threads trace] in *.

Lemma bind_run {S A B} (m : M S A) (k : A → M S B) (s : S) :
  (m ≫= k) s =
  match m s with
  | (Normal a, s') => k a s'
  | (Raise e, s') => (Raise e, s')
  end.
Proof. reflexivity. Qed.

Lemma elem_of_rev {A} (x : A) (l : list A) : x ∈ rev l ↔ x ∈ l.
Proof. rewrite !list_elem_of_In. symmetry. apply in_rev. Qed.

Lemma history_app (w w' : World) (post : list Event) :
  trace w' = (post ++ trace w)%list → history w' = (history w ++ rev post)%list.
Proof. unfold history. intros ->. apply rev_app_distr. Qed.


Lemma dispatching_is_Some_recon_thread (w w' : World) :
  dispatching w w' → is_Some (_recon_thread w) → is_Some (_recon_thread w').
Proof.
  intros [_ _ _ _ _ _ H _ _ _] [th Hth]. rewrite Hth in H.
  destruct (_recon_thread w'); [by eexists|done].
Qed.

Section Claims.

Variable env : Collaborators.

(** The message logged on entry to [statusUpdate]. *)
Definition status_update_logged (status : TaskStatus.t) : Event :=
  EvLog INFO "Status update for task %s: %s"
    [LStr (TaskStatus.task_id status);
     LStr (status_to_string env (TaskStatus.state status))].

(** The message logged by the handler of [statusUpdate]. *)
Definition status_update_error_logged (status : TaskStatus.t) : Event :=
  EvLog EXCEPTION "Error handling status update for job execution: %s"
    [LInt (get_job_exe_id env (TaskStatus.task_id status))].

(** The message of [log_duration] when the clock reads [finished]. *)
Definition duration_logged (msg : string) (threshold started finished : Z) : Event :=
  EvLog (if decide (finished - started > threshold) then WARNING else DEBUG) msg
    [LInt (finished - started)].

Lemma log_duration_eq msg threshold started w :
  log_duration env msg threshold started w =
  (Normal tt,
   set_trace (duration_logged msg threshold started (now_at env (length (trace w)))
                :: EvNow :: trace w) w).
Proof.
  unfold log_duration, duration_logged. destruct w. run. by case_decide.
Qed.

Lemma log_duration_run msg threshold started w :
  ∃ lvl d, log_duration env msg threshold started w =
           (Normal tt, set_trace (EvLog lvl msg [LInt d] :: EvNow :: trace w) w).
Proof.
  unfold log_duration. destruct w. run. case_decide; eauto.
Qed.

Lemma recon_thread_add_task_ids_run l th w :
  _recon_thread w = Some th →
  recon_thread_add_task_ids l w =
  (Normal tt, set_recon_thread (Some (ReconciliationThread.add_task_ids l th))
                (set_trace (EvReconAdd l :: trace w) w)).
Proof. destruct w. run. by intros ->. Qed.

Lemma statusUpdate_entry_run status th w :
  _recon_thread w = Some th →
  statusUpdate_entry env status w =
  (Normal (now_at env (length (trace w))),
   set_recon_thread
     (Some (ReconciliationThread.remove_task_id (TaskStatus.task_id status) th))
     (set_trace (EvReconRemove (TaskStatus.task_id status)
                   :: status_update_logged status :: EvNow :: trace w) w)).
Proof. unfold statusUpdate_entry, status_update_logged. destruct w. run. by intros ->. Qed.

Lemma statusUpdate_except_run status th w :
  _recon_thread w = Some th →
  statusUpdate_except env status w =
  (Normal tt,
   set_recon_thread
     (Some (ReconciliationThread.add_task_ids [TaskStatus.task_id status] th))
     (set_trace (EvReconAdd [TaskStatus.task_id status]
                   :: status_update_error_logged status :: trace w) w)).
Proof. unfold statusUpdate_except, status_update_error_logged. destruct w. run. by intros ->. Qed.

(** Once the reconciliation thread exists, what follows the entry of
    [statusUpdate] always returns. *)
Lemma statusUpdate_handling_returns status started w :
  is_Some (_recon_thread w) →
  ∃ w', (try_except (statusUpdate_try env status) (λ _, statusUpdate_except env status);;
         log_duration env "Scheduler statusUpdate() took %.3f seconds"
           DATABASE_WARN_THRESHOLD started) w = (Normal tt, w') ∧
        dispatching w w'.
Proof.
  intros Hth.
  set (m := (try_except _ _ ;; _)).
  assert (Hd : dispatching w (m w).2).
  { apply (preserves_bind dispatching).
    - apply preserves_try_except; [apply _| |intros e].
      + apply preserves_statusUpdate_try; apply _.
      + apply preserves_statusUpdate_except; apply _.
    - intros []. apply preserves_log_duration. apply _. }
  exists (m w).2. split; [|done]. clear Hd.
  subst m. rewrite bind_run. unfold try_except.
  pose proof (preserves_statusUpdate_try env dispatching status w) as Hd.
  destruct (statusUpdate_try env status w) as [[[]|e] w2]; cbn in Hd.
  - destruct (log_duration_run "Scheduler statusUpdate() took %.3f seconds"
                DATABASE_WARN_THRESHOLD started w2) as (lvl & d & ->). done.
  - destruct (dispatching_is_Some_recon_thread _ _ Hd Hth) as [th2 Hth2].
    rewrite (statusUpdate_except_run status th2 w2 Hth2).
    destruct (log_duration_run "Scheduler statusUpdate() took %.3f seconds"
                DATABASE_WARN_THRESHOLD started
                (set_recon_thread
                   (Some (ReconciliationThread.add_task_ids [TaskStatus.task_id status] th2))
                   (set_trace (EvReconAdd [TaskStatus.task_id status]
                                 :: status_update_error_logged status :: trace w2) w2)))
      as (lvl & d & ->). done.
Qed.


Lemma statusUpdate_entry_unregistered status w :
  _recon_thread w = None →
  statusUpdate_entry env status w =
  (Raise AttributeError, set_trace (status_update_logged status :: EvNow :: trace w) w).
Proof. unfold statusUpdate_entry, status_update_logged. destruct w. run. by intros ->. Qed.

Lemma statusUpdate_entry_registered status w started w1 :
  statusUpdate_entry env status w = (Normal started, w1) →
  is_Some (_recon_thread w) ∧ is_Some (_recon_thread w1).
Proof.
  destruct (_recon_thread w) as [th|] eqn:Hth.
  - rewrite (statusUpdate_entry_run status th w Hth). intros [= <- <-]. by split; eexists.
  - by rewrite (statusUpdate_entry_unregistered status w Hth).
Qed.

(** C4. When the handling of a status update (the body of the [try],
    started in the world the entry left) raises, whatever the exception,
    [statusUpdate] still returns normally: the handler logs the exception
    and adds the task id back to the reconciliation set, where it still is
    when the callback returns; after the handler only the duration is
    measured and logged. *)
Theorem statusUpdate_failure_is_reconciled driver status w started w1 e w2 :
  statusUpdate_entry env status w = (Normal started, w1) →
  statusUpdate_try env status w1 = (Raise e, w2) →
  ∃ w' lvl d,
    statusUpdate env driver status w = (Normal tt, w') ∧
    TaskStatus.task_id status ∈ recon_set w' ∧
    history w' =
      (history w2 ++ [status_update_error_logged status;
                      EvReconAdd [TaskStatus.task_id status];
                      EvNow;
                      EvLog lvl "Scheduler statusUpdate() took %.3f seconds" [LInt d]])%list.
Proof.
  intros Hentry Htry.
  destruct (statusUpdate_entry_registered _ _ _ _ Hentry) as [_ Hth1].
  pose proof (preserves_statusUpdate_try env dispatching status w1) as Hd.
  rewrite Htry in Hd. cbn in Hd.
  destruct (dispatching_is_Some_recon_thread _ _ Hd Hth1) as [th2 Hth2].
  pose proof (statusUpdate_except_run status th2 w2 Hth2) as Hexc.
  set (w3 := set_recon_thread _ _) in Hexc.
  destruct (log_duration_run "Scheduler statusUpdate() took %.3f seconds"
              DATABASE_WARN_THRESHOLD started w3) as (lvl & d & Hlog).
  eexists _, lvl, d. split_and!.
  - unfold statusUpdate. rewrite bind_run, Hentry, bind_run.
    unfold try_except. rewrite Htry, Hexc. exact Hlog.
  - change (TaskStatus.task_id status ∈
            ReconciliationThread.task_ids th2 ∪ list_to_set [TaskStatus.task_id status]).
    apply elem_of_union. right. apply elem_of_list_to_set, list_elem_of_singleton. done.
  - unfold history. cbn. by rewrite <- !app_assoc.
Qed.

(** C3, as amended.  For every [statusUpdate] (the reconciliation thread
    exists) whose decoded job execution id is unknown to the manager, the
    dispatcher reports the execution as failed to the queue, with the clock
    reading and the built-in error scheduler-lost, and leaves the manager
    alone.  When the report returns, the task id is not added back: the
    reconciliation set is the one on entry without the task id.  When the
    report raises, the handler logs the exception and adds the task id
    back.  In both cases the callback returns normally. *)
Theorem statusUpdate_unknown_execution driver status th w :
  _recon_thread w = Some th →
  _job_exe_manager w !! get_job_exe_id env (TaskStatus.task_id status) = None →
  let task_id := TaskStatus.task_id status in
  let job_exe_id := get_job_exe_id env task_id in
  let when := now_at env (4 + length (trace w)) in
  let reported :=
    [EvNow; status_update_logged status; EvReconRemove task_id; EvGetJobExe job_exe_id;
     EvNow; EvHandleJobFailure job_exe_id when (get_builtin_error "scheduler-lost")] in
  ∃ w' lvl d,
    statusUpdate env driver status w = (Normal tt, w') ∧
    _job_exe_manager w' = _job_exe_manager w ∧
    match handle_job_failure env (5 + length (trace w)) job_exe_id when
            (get_builtin_error "scheduler-lost") with
    | Normal _ =>
        recon_set w' = recon_set w ∖ {[task_id]} ∧
        history w' =
          (history w ++ reported ++
           [EvNow; EvLog lvl "Scheduler statusUpdate() took %.3f seconds" [LInt d]])%list
    | Raise _ =>
        recon_set w' = recon_set w ∖ {[task_id]} ∪ {[task_id]} ∧
        history w' =
          (history w ++ reported ++
           [status_update_error_logged status; EvReconAdd [task_id];
            EvNow; EvLog lvl "Scheduler statusUpdate() took %.3f seconds" [LInt d]])%list
    end.
Proof.
  intros Hth Hget task_id job_exe_id when reported.
  subst task_id job_exe_id when reported.
  unfold statusUpdate, statusUpdate_entry, statusUpdate_try, statusUpdate_except,
    status_update_logged, status_update_error_logged.
  destruct w. run. unfold RunningJobExecutionManager.get_job_exe.
  cbn in Hth, Hget. rewrite Hth, Hget.
  destruct (handle_job_failure env _ _ _ _) as [[]|e];
    rewrite log_duration_eq; unfold duration_logged;
    eexists _, _, _; (split_and!; [reflexivity|reflexivity| |]);
    cbn; rewrite <- ?app_assoc, ?union_empty_r_L; reflexivity.
Qed.

(** The results object built from a status before any log is pulled
    (lines 258-260). *)
Definition parsed_results (status : TaskStatus.t) : TaskResults.t :=
  TaskResults.set_when (get_status_timestamp env status)
    (TaskResults.set_exit_code (parse_exit_code env status)
       (TaskResults.new (TaskStatus.task_id status))).

(** Calls to the agent log API. *)
Definition is_log_retrieval (ev : Event) : bool :=
  match ev with
  | EvTaskDirectory _ _ _ | EvTaskFile _ _ _ _ | EvTaskUrl _ _ _ _ => true
  | _ => false
  end.

(** C6. For every [statusUpdate] with state LOST for an execution the
    manager knows (the reconciliation thread exists), the callback returns
    normally; right after looking the execution up it calls [task_fail] on
    it with the parsed results and the built-in error mesos-lost; and no
    call of the whole callback goes to the agent log API: neither the task
    directory probe nor a file fetch nor a URL derivation. *)
Theorem statusUpdate_lost_task driver status th exe w :
  _recon_thread w = Some th →
  TaskStatus.state status = TASK_LOST →
  _job_exe_manager w !! get_job_exe_id env (TaskStatus.task_id status) = Some exe →
  let task_id := TaskStatus.task_id status in
  let job_exe_id := get_job_exe_id env task_id in
  ∃ w' post,
    statusUpdate env driver status w = (Normal tt, w') ∧
    history w' =
      (history w ++
       [EvNow; status_update_logged status; EvReconRemove task_id; EvGetJobExe job_exe_id;
        EvTaskFail (RunningJobExecution.id exe) (parsed_results status)
          (Some (get_builtin_error "mesos-lost"))] ++ post)%list ∧
    Forall (λ ev, is_log_retrieval ev = false) post.
Proof.
  intros Hth Hlost Hget task_id job_exe_id. subst task_id job_exe_id.
  unfold statusUpdate, statusUpdate_entry, statusUpdate_try, statusUpdate_except,
    apply_status_update, status_update_logged, parsed_results.
  destruct w. run. unfold RunningJobExecutionManager.get_job_exe.
  cbn in Hth, Hget. rewrite Hth, Hget, Hlost.
  destruct (decide (TASK_LOST ≠ TASK_LOST)) as [?|_]; [done|]. cbn.
  destruct (Transition.raised _) as [e|]; cbn.
  - rewrite log_duration_eq. eexists _, _; (split_and!; [reflexivity| |]);
      cbn; rewrite <- ?app_assoc; try reflexivity; repeat constructor.
  - destruct (RunningJobExecution.is_finished _); cbn; rewrite log_duration_eq;
      eexists _, _; (split_and!; [reflexivity| |]);
      cbn; rewrite <- ?app_assoc; try reflexivity; repeat constructor.
Qed.

(** The messages of the guarded log pull. *)
Definition pull_logged (log_start_time log_end_time : Z) : Event :=
  EvLog DEBUG "Time to pull logs for task: %s" [LInt (log_end_time - log_start_time)].

Definition pull_error_logged (task_id : string) : Event :=
  EvLog EXCEPTION "Error pulling logs for task %s" [LStr task_id].

(** What the guarded log pull (lines 262-272) amounts to when it starts
    after [n] calls: the results it leaves and the calls it makes, oldest
    first.  A failure of the probe or of a fetch ends the pull with the
    error message; what was fetched before stays in the results. *)
Definition log_pull (n : nat) (hostname : string) (port : Z) (task_id : string)
    (results : TaskResults.t) : TaskResults.t * list Event :=
  let probe := EvTaskDirectory hostname port task_id in
  match get_slave_task_directory env (1 + n) hostname port task_id with
  | Raise _ => (results, [EvNow; probe; pull_error_logged task_id])
  | Normal task_dir =>
      let fetch_out := EvTaskFile hostname port task_dir "stdout" in
      let fetch_err := EvTaskFile hostname port task_dir "stderr" in
      match get_slave_task_file env (2 + n) hostname port task_dir "stdout" with
      | Raise _ => (results, [EvNow; probe; fetch_out; pull_error_logged task_id])
      | Normal out =>
          match get_slave_task_file env (3 + n) hostname port task_dir "stderr" with
          | Raise _ =>
              (TaskResults.set_stdout out results,
               [EvNow; probe; fetch_out; fetch_err; pull_error_logged task_id])
          | Normal err =>
              (TaskResults.set_stderr err (TaskResults.set_stdout out results),
               [EvNow; probe; fetch_out; fetch_err; EvNow;
                pull_logged (now_at env n) (now_at env (4 + n))])
          end
      end
  end.

(** The guarded log pull never raises and is described by [log_pull]. *)
Lemma pull_logs_run hostname port task_id results w :
  pull_logs env hostname port task_id (results, w) =
  (Normal tt,
   ((log_pull (length (trace w)) hostname port task_id results).1,
    set_trace (rev (log_pull (length (trace w)) hostname port task_id results).2 ++ trace w)%list
      w)).
Proof.
  unfold pull_logs, log_pull, pull_logged, pull_error_logged. destruct w. run. cbn.
  destruct (get_slave_task_directory env _ _ _ _) as [task_dir|e]; [|reflexivity].
  destruct (get_slave_task_file env _ _ _ _ "stdout") as [out|e]; [|reflexivity].
  destruct (get_slave_task_file env _ _ _ _ "stderr") as [err|e]; reflexivity.
Qed.

Lemma log_pull_results n hostname port task_id results :
  let results' := (log_pull n hostname port task_id results).1 in
  TaskResults.task_id results' = TaskResults.task_id results ∧
  TaskResults.exit_code results' = TaskResults.exit_code results ∧
  TaskResults.when results' = TaskResults.when results.
Proof.
  unfold log_pull.
  destruct (get_slave_task_directory env _ _ _ _) as [task_dir|e]; [|done].
  destruct (get_slave_task_file env _ _ _ _ "stdout") as [out|e]; [|done].
  destruct (get_slave_task_file env _ _ _ _ "stderr") as [err|e]; done.
Qed.

(** Case analysis on the answers of the collaborators met along a run. *)
Ltac answers :=
  repeat
    (match goal with
     | |- context [match get_slave_task_directory env ?n ?h ?p ?t with _ => _ end] =>
         destruct (get_slave_task_directory env n h p t)
     | |- context [match get_slave_task_file env ?n ?h ?p ?d ?f with _ => _ end] =>
         destruct (get_slave_task_file env n h p d f)
     | |- context [match get_slave_task_url env ?n ?h ?p ?d ?f with _ => _ end] =>
         destruct (get_slave_task_url env n h p d f)
     | |- context [match Transition.raised ?tr with _ => _ end] =>
         destruct (Transition.raised tr) eqn:?
     | |- context [if RunningJobExecution.is_finished ?e then _ else _] =>
         destruct (RunningJobExecution.is_finished e)
     end; cbn).

(** Splitting a trace (newest first) into what was added on top of [base]. *)
Ltac added_to base t :=
  lazymatch t with
  | base => constr:(@nil Event)
  | ?ev :: ?rest => let l := added_to base rest in constr:(ev :: l)
  end.

(** Proves [history W = history_of_base ++ ?new ...] for a world [W] whose
    trace is a list of calls consed onto the trace [base]. *)
Ltac history_added base :=
  lazymatch goal with
  | |- rev ?t = _ =>
      let l := added_to base t in
      change t with (l ++ base)%list;
      rewrite (rev_app_distr l base); cbn [rev app];
      rewrite <- ?app_assoc; f_equal; reflexivity
  end.

(** C7, as amended.  For every [statusUpdate] with a state other than
    LOST for an execution the manager knows (the reconciliation thread
    exists), the callback returns normally and the guarded log pull runs
    first: whatever the task directory probe and the file fetches do, a
    failure among them is caught and logged inside the pull ([log_pull]) and
    the handling goes on.  For FINISHED the next call is [task_complete],
    for FAILED, KILLED and ERROR it is [task_fail], with the results the
    pull left.  For RUNNING the transition needs a second, unguarded probe
    and the two URL derivations: [task_running] is called when all three
    return; when one of them raises, no transition is applied, the handler
    of the callback logs the exception and the task id is added back to the
    reconciliation set. *)
Theorem statusUpdate_log_retrieval_failure driver status th exe w :
  _recon_thread w = Some th →
  TaskStatus.state status ≠ TASK_LOST →
  _job_exe_manager w !! get_job_exe_id env (TaskStatus.task_id status) = Some exe →
  let task_id := TaskStatus.task_id status in
  let job_exe_id := get_job_exe_id env task_id in
  let exe_id := RunningJobExecution.id exe in
  let hostname := RunningJobExecution._node_hostname exe in
  let port := RunningJobExecution._node_port exe in
  let looked_up :=
    (history w ++ [EvNow; status_update_logged status; EvReconRemove task_id;
                   EvGetJobExe job_exe_id])%list in
  let pull := log_pull (length looked_up) hostname port task_id (parsed_results status) in
  let pulled := (looked_up ++ pull.2)%list in
  let results := pull.1 in
  ∃ w' post,
    statusUpdate env driver status w = (Normal tt, w') ∧
    history w' = (pulled ++ post)%list ∧
    match TaskStatus.state status with
    | TASK_FINISHED => ∃ post', post = EvTaskComplete exe_id results :: post'
    | TASK_FAILED | TASK_KILLED | TASK_ERROR =>
        ∃ post', post = EvTaskFail exe_id results None :: post'
    | TASK_RUNNING =>
        let probe := EvTaskDirectory hostname port task_id in
        let failed finished :=
          [status_update_error_logged status; EvReconAdd [task_id]; EvNow;
           duration_logged "Scheduler statusUpdate() took %.3f seconds"
             DATABASE_WARN_THRESHOLD (now_at env (length (trace w))) finished] in
        match get_slave_task_directory env (length pulled) hostname port task_id with
        | Raise _ => (∃ finished, post = probe :: failed finished) ∧ task_id ∈ recon_set w'
        | Normal task_dir =>
            let url_out := EvTaskUrl hostname port task_dir "stdout" in
            let url_err := EvTaskUrl hostname port task_dir "stderr" in
            match get_slave_task_url env (1 + length pulled) hostname port task_dir "stdout" with
            | Raise _ =>
                (∃ finished, post = probe :: url_out :: failed finished) ∧
                task_id ∈ recon_set w'
            | Normal stdout_url =>
                match get_slave_task_url env (2 + length pulled) hostname port task_dir
                        "stderr" with
                | Raise _ =>
                    (∃ finished, post = probe :: url_out :: url_err :: failed finished) ∧
                    task_id ∈ recon_set w'
                | Normal stderr_url =>
                    ∃ post',
                      post = probe :: url_out :: url_err
                               :: EvTaskRunning exe_id task_id (TaskResults.when results)
                                    stdout_url stderr_url :: post'
                end
            end
        end
    | TASK_STAGING | TASK_STARTING | TASK_LOST => True
    end.
Proof.
  intros Hth Hstate Hget. cbv zeta.
  assert (Hn1 : ∀ a b c d : Event,
            length (history w ++ [a; b; c; d]) = length (d :: c :: b :: a :: trace w)).
  { intros. unfold history. rewrite length_app, length_rev. cbn. lia. }
  rewrite Hn1.
  assert (Hn2 : ∀ (a b c d : Event) l,
            length ((history w ++ [a; b; c; d]) ++ l) =
            length (rev l ++ d :: c :: b :: a :: trace w)).
  { intros. unfold history. rewrite !length_app, !length_rev. cbn. lia. }
  rewrite !Hn2. clear Hn1 Hn2.
  unfold statusUpdate, statusUpdate_entry, statusUpdate_try, statusUpdate_except,
    apply_status_update, status_update_logged, status_update_error_logged.
  destruct (TaskStatus.state status) eqn:Hst; try done;
    destruct w as [? ? ? ? ? ? ? ? ? ? ? ? trace0]; run;
    unfold RunningJobExecutionManager.get_job_exe;
    cbn in Hth, Hget; rewrite Hth, Hget;
    (destruct (decide (_ ≠ TASK_LOST)) as [_|?]; [|done]);
    rewrite pull_logs_run; unfold log_pull; cbn.
  all: destruct (get_slave_task_directory env (S (S (S (S (S (length trace0)))))) _ _ _)
         as [task_dir|?]; cbn;
       [destruct (get_slave_task_file env (S (S (S (S (S (S (length trace0))))))) _ _ _ _)
          as [out|?]; cbn;
        [destruct (get_slave_task_file env (S (S (S (S (S (S (S (length trace0)))))))) _ _ _ _)
           as [err|?]; cbn|]|].
  all: answers.
  all: rewrite ?log_duration_eq.
  all: eexists _, _; split; [reflexivity|]; split; [cbn -[rev]; history_added trace0|cbn].
  all: try exact I.
  all: try by eexists.
  all: split; [by eexists|].
  all: apply elem_of_union; right; apply elem_of_union; left; by apply elem_of_singleton.
Qed.

(** ** The loop of [slaveLost] *)

(** The manager indexes every running job execution under its own id. *)
Definition keyed (w : World) : Prop :=
  ∀ i e, _job_exe_manager w !! i = Some e → RunningJobExecution.id e = i.

(** The message logged when failing a lost execution fails. *)
Definition lost_error_logged (exe : RunningJobExecution.t) : Event :=
  EvLog EXCEPTION "Error failing lost job execution: %s" [LInt (RunningJobExecution.id exe)].

(** One pass of the loop (lines 358-367) for execution [exe], when
    [execution_lost] returns or raises a [DatabaseError]: the world it
    leaves, given the reconciliation thread [th] of the world it starts
    in. *)
Definition lost_step (started : Z) (exe : RunningJobExecution.t)
    (th : ReconciliationThread.t) (w : World) : World :=
  let tr := execution_lost env (length (trace w)) exe started in
  let exe' := Transition.apply tr exe in
  let requeued :=
    if decide (Transition.raised tr = Some DatabaseError)
    then RunningJobExecution.current_task exe' else None in
  let manager' := alter (λ _, exe') (RunningJobExecution.id exe) (_job_exe_manager w) in
  set_job_exe_manager
    (if RunningJobExecution.is_finished exe'
     then delete (RunningJobExecution.id exe) manager' else manager')
    (set_recon_thread
       (Some match requeued with
             | Some task => ReconciliationThread.add_task_ids [Task.id task] th
             | None => th
             end)
       (set_trace
          ((if RunningJobExecution.is_finished exe'
            then [EvRemoveJobExe (RunningJobExecution.id exe)] else []) ++
           match requeued with Some task => [EvReconAdd [Task.id task]] | None => [] end ++
           (if decide (Transition.raised tr = Some DatabaseError)
            then [lost_error_logged exe] else []) ++
           EvExecutionLost (RunningJobExecution.id exe) started :: trace w)%list w)).

Definition slaveLost_body (started : Z) (exe : RunningJobExecution.t) : M World unit :=
  with_local exe (slaveLost_exe env started);; ret tt.

Lemma slaveLost_body_returns started exe th w :
  _recon_thread w = Some th →
  Transition.raised (execution_lost env (length (trace w)) exe started) = None ∨
  Transition.raised (execution_lost env (length (trace w)) exe started) = Some DatabaseError →
  slaveLost_body started exe w = (Normal tt, lost_step started exe th w).
Proof.
  intros Hth Hr. unfold slaveLost_body, slaveLost_exe, lost_step, lost_error_logged.
  destruct w as [? ? ? ? ? ? ? ? ? rt ? ? trace0]. cbn in Hth, Hr. subst rt. run. cbn.
  destruct Hr as [Hr|Hr]; rewrite Hr; cbn.
  - destruct (decide (None = Some DatabaseError)) as [?|_]; [done|].
    destruct (RunningJobExecution.is_finished _); reflexivity.
  - destruct (decide (DatabaseError = DatabaseError)) as [_|?]; [|done].
    destruct (decide (Some DatabaseError = Some DatabaseError)) as [_|?]; [|done]. cbn.
    destruct (Transition.next_task _) as [task|]; cbn;
      destruct (RunningJobExecution.is_finished _); reflexivity.
Qed.

Lemma slaveLost_body_raises started exe w e :
  Transition.raised (execution_lost env (length (trace w)) exe started) = Some e →
  e ≠ DatabaseError →
  (slaveLost_body started exe w).1 = Raise e.
Proof.
  intros Hr He. unfold slaveLost_body, slaveLost_exe.
  destruct w as [? ? ? ? ? ? ? ? ? rt ? ? trace0]. cbn in Hr. run. cbn.
  rewrite Hr. cbn. destruct (decide (e = DatabaseError)) as [?|_]; done.
Qed.

(** One pass of the loop for execution [exe] when [execution_lost] raises
    something else than a [DatabaseError]: the world it leaves.  The
    manager sees the state the call left the execution in; nothing is
    logged, added to the reconciliation set or removed. *)
Definition crash_step (started : Z) (exe : RunningJobExecution.t) (w : World) : World :=
  set_job_exe_manager
    (alter (λ _, Transition.apply (execution_lost env (length (trace w)) exe started) exe)
       (RunningJobExecution.id exe) (_job_exe_manager w))
    (set_trace (EvExecutionLost (RunningJobExecution.id exe) started :: trace w) w).

Lemma slaveLost_body_crashes started exe w e :
  Transition.raised (execution_lost env (length (trace w)) exe started) = Some e →
  e ≠ DatabaseError →
  slaveLost_body started exe w = (Raise e, crash_step started exe w).
Proof.
  intros Hr Hne. unfold slaveLost_body, slaveLost_exe, crash_step.
  destruct w. run. cbn in Hr. rewrite Hr. cbn.
  destruct (decide (e = DatabaseError)); done.
Qed.

Lemma elem_of_add_task_ids t l th :
  t ∈ l → t ∈ ReconciliationThread.task_ids (ReconciliationThread.add_task_ids l th).
Proof.
  intros Hin. unfold ReconciliationThread.add_task_ids.
  cbn [ReconciliationThread.task_ids]. apply elem_of_union. right.
  by apply elem_of_list_to_set.
Qed.

Lemma add_task_ids_subseteq l th :
  ReconciliationThread.task_ids th ⊆
  ReconciliationThread.task_ids (ReconciliationThread.add_task_ids l th).
Proof.
  unfold ReconciliationThread.add_task_ids. cbn [ReconciliationThread.task_ids].
  apply union_subseteq_l.
Qed.

Lemma lost_step_recon_thread started exe th w :
  ∃ th',
    _recon_thread (lost_step started exe th w) = Some th' ∧
    ReconciliationThread.task_ids th ⊆ ReconciliationThread.task_ids th' ∧
    (Transition.raised (execution_lost env (length (trace w)) exe started)
       = Some DatabaseError →
     ∀ task,
       RunningJobExecution.current_task
         (Transition.apply (execution_lost env (length (trace w)) exe started) exe)
         = Some task →
       Task.id task ∈ ReconciliationThread.task_ids th').
Proof.
  unfold lost_step.
  cbn [_recon_thread set_job_exe_manager set_recon_thread set_trace Transition.apply
       RunningJobExecution.current_task].
  destruct (decide (_ = Some DatabaseError)) as [Hdb|Hdb].
  - destruct (Transition.next_task _) as [task|] eqn:Htask; eexists; split_and!; try done.
    + apply add_task_ids_subseteq.
    + intros _ task' [= <-]. apply elem_of_add_task_ids, list_elem_of_singleton. done.
  - eexists; split_and!; done.
Qed.

Lemma lost_step_lookup_eq started exe th w :
  _job_exe_manager w !! RunningJobExecution.id exe = Some exe →
  let exe' := Transition.apply (execution_lost env (length (trace w)) exe started) exe in
  _job_exe_manager (lost_step started exe th w) !! RunningJobExecution.id exe =
  if RunningJobExecution.is_finished exe' then None else Some exe'.
Proof.
  intros Hget. unfold lost_step. cbn.
  destruct (RunningJobExecution.is_finished _).
  - apply lookup_delete_eq.
  - by rewrite lookup_alter_eq, Hget.
Qed.

Lemma lost_step_lookup_ne started exe th w i :
  i ≠ RunningJobExecution.id exe →
  _job_exe_manager (lost_step started exe th w) !! i = _job_exe_manager w !! i.
Proof.
  intros Hne. unfold lost_step. cbn.
  destruct (RunningJobExecution.is_finished _).
  - rewrite lookup_delete_ne, lookup_alter_ne; done.
  - rewrite lookup_alter_ne; done.
Qed.

Lemma lost_step_trace started exe th w :
  ∃ new,
    trace (lost_step started exe th w) =
    (new ++ EvExecutionLost (RunningJobExecution.id exe) started :: trace w)%list.
Proof.
  unfold lost_step. cbn. eexists. rewrite !app_assoc. reflexivity.
Qed.

(** What the loop has done for execution [exe] by the time it has left
    the world [w']: [execution_lost] was called on it and returned or
    raised a [DatabaseError]; the execution is in the manager, in the state
    the call left it in, exactly when that state is not terminal; and after
    a [DatabaseError] its current task, if it has one, is in the
    reconciliation set. *)
Definition lost_outcome (started : Z) (exe : RunningJobExecution.t) (w' : World) : Prop :=
  ∃ n,
    let tr := execution_lost env n exe started in
    let exe' := Transition.apply tr exe in
    (Transition.raised tr = None ∨ Transition.raised tr = Some DatabaseError) ∧
    _job_exe_manager w' !! RunningJobExecution.id exe =
      (if RunningJobExecution.is_finished exe' then None else Some exe') ∧
    (Transition.raised tr = Some DatabaseError →
     ∀ task, RunningJobExecution.current_task exe' = Some task →
             Task.id task ∈ recon_set w').

Lemma slaveLost_loop_spec started l : ∀ w th w',
  _recon_thread w = Some th →
  NoDup (RunningJobExecution.id <$> l) →
  (∀ e, e ∈ l → _job_exe_manager w !! RunningJobExecution.id e = Some e) →
  for_each l (slaveLost_body started) w = (Normal tt, w') →
  (∃ th', _recon_thread w' = Some th' ∧
          ReconciliationThread.task_ids th ⊆ ReconciliationThread.task_ids th') ∧
  (∃ new, trace w' = (new ++ trace w)%list ∧
          ∀ e, e ∈ l → EvExecutionLost (RunningJobExecution.id e) started ∈ new) ∧
  (∀ i, i ∉ RunningJobExecution.id <$> l →
        _job_exe_manager w' !! i = _job_exe_manager w !! i) ∧
  (∀ e, e ∈ l → lost_outcome started e w').
Proof.
  induction l as [|exe l IH]; intros w th w' Hth Hnd Hin Hrun.
  - cbn in Hrun. injection Hrun as <-. split_and!.
    + exists th. done.
    + exists []. split; [done|]. intros e He. by apply elem_of_nil in He.
    + done.
    + intros e He. by apply elem_of_nil in He.
  - cbn [for_each] in Hrun. rewrite bind_run in Hrun.
    apply NoDup_cons in Hnd as [Hfresh Hnd]. cbn [fmap list_fmap] in Hfresh.
    set (tr := execution_lost env (length (trace w)) exe started) in *.
    assert (Hr : Transition.raised tr = None ∨ Transition.raised tr = Some DatabaseError).
    { destruct (Transition.raised tr) as [e|] eqn:Hr; [|by left].
      destruct (decide (e = DatabaseError)) as [->|Hne]; [by right|].
      pose proof (slaveLost_body_raises started exe w e Hr Hne) as Hraise.
      destruct (slaveLost_body started exe w) as [r w1]. cbn in Hraise. subst r. done. }
    rewrite (slaveLost_body_returns started exe th w Hth Hr) in Hrun.
    set (w1 := lost_step started exe th w) in *.
    destruct (lost_step_recon_thread started exe th w) as (th1 & Hth1 & Hsub1 & Htask1).
    destruct (lost_step_trace started exe th w) as [new1 Hnew1].
    fold w1 in Hth1, Hnew1.
    assert (Hin1 : ∀ e, e ∈ l → _job_exe_manager w1 !! RunningJobExecution.id e = Some e).
    { intros e He. unfold w1. rewrite lost_step_lookup_ne.
      - apply Hin. by right.
      - intros Heq. apply Hfresh. rewrite <- Heq. by apply list_elem_of_fmap_2. }
    destruct (IH w1 th1 w' Hth1 Hnd Hin1 Hrun) as ((th' & Hth' & Hsub) & (new & Hnew & Hev) & Hother & Hout).
    assert (Hexe : _job_exe_manager w !! RunningJobExecution.id exe = Some exe).
    { apply Hin. by left. }
    split_and!.
    + exists th'. split; [done|]. by etrans.
    + exists (new ++ new1 ++ [EvExecutionLost (RunningJobExecution.id exe) started])%list.
      split.
      * rewrite Hnew, Hnew1. rewrite <- !app_assoc. reflexivity.
      * intros e He. apply elem_of_cons in He as [->|He].
        -- apply elem_of_app. right. apply elem_of_app. right. by left.
        -- apply elem_of_app. left. by apply Hev.
    + intros i Hi. apply not_elem_of_cons in Hi as [Hne Hi].
      rewrite (Hother i Hi). unfold w1. by apply lost_step_lookup_ne.
    + intros e He. apply elem_of_cons in He as [->|He]; [|by apply Hout].
      exists (length (trace w)). fold tr. cbn zeta. split_and!.
      * exact Hr.
      * rewrite (Hother _ Hfresh). unfold w1. by apply lost_step_lookup_eq.
      * intros Hdb task Htask. unfold recon_set. rewrite Hth'.
        apply Hsub. by apply (Htask1 Hdb task).
Qed.

Lemma slaveLost_loop_returns started l :
  (∀ n e, Transition.raised (execution_lost env n e started) = None ∨
          Transition.raised (execution_lost env n e started) = Some DatabaseError) →
  ∀ w, is_Some (_recon_thread w) →
       ∃ w', for_each l (slaveLost_body started) w = (Normal tt, w').
Proof.
  intros Hok. induction l as [|exe l IH]; intros w [th Hth].
  - by eexists.
  - cbn [for_each]. rewrite bind_run.
    rewrite (slaveLost_body_returns started exe th w Hth (Hok _ _)).
    apply IH. destruct (lost_step_recon_thread started exe th w) as (th1 & -> & _). by eexists.
Qed.


Lemma get_job_exes_on_node_elem (node_id : Z) (m : gmap Z RunningJobExecution.t) e :
  e ∈ RunningJobExecutionManager.get_job_exes_on_node node_id m ↔
  RunningJobExecution.node_id e = node_id ∧ ∃ i, m !! i = Some e.
Proof.
  unfold RunningJobExecutionManager.get_job_exes_on_node.
  rewrite list_elem_of_filter, list_elem_of_fmap. split.
  - intros [Hn ([i e'] & -> & Hin)]. split; [done|]. exists i.
    by apply elem_of_map_to_list.
  - intros [Hn [i Hi]]. split; [done|]. exists (i, e). split; [done|].
    by apply elem_of_map_to_list.
Qed.

Lemma get_job_exes_on_node_NoDup (node_id : Z) (m : gmap Z RunningJobExecution.t) :
  (∀ i e, m !! i = Some e → RunningJobExecution.id e = i) →
  NoDup (RunningJobExecution.id <$> RunningJobExecutionManager.get_job_exes_on_node node_id m).
Proof.
  intros Hkeyed. unfold RunningJobExecutionManager.get_job_exes_on_node.
  apply (sublist_NoDup _ (RunningJobExecution.id <$> (map_to_list m).*2)).
  - rewrite <- list_fmap_compose.
    rewrite (list_fmap_ext (RunningJobExecution.id ∘ snd) fst (map_to_list m)).
    + apply NoDup_fst_map_to_list.
    + intros n [i e] Hl. cbn. apply Hkeyed.
      apply elem_of_map_to_list. by eapply list_elem_of_lookup_2.
  - apply fmap_sublist, sublist_filter.
Qed.

(** [keeps_agents w w']: the node manager and the offer manager are as they
    were. *)
Definition keeps_agents (w w' : World) : Prop :=
  _node_manager w' = _node_manager w ∧ _offer_manager w' = _offer_manager w.

#[local] Instance keeps_agents_preorder : PreOrder keeps_agents.
Proof.
  split.
  - by intros w.
  - intros w1 w2 w3 [] []. split; congruence.
Qed.

#[local] Instance keeps_agents_trace_footprint : TraceFootprint keeps_agents.
Proof. split; [apply _|]. by intros ev w. Qed.

#[local] Instance keeps_agents_job_exe_footprint : JobExeFootprint keeps_agents.
Proof. split. by intros m w. Qed.

#[local] Instance keeps_agents_recon_add_footprint : ReconAddFootprint keeps_agents.
Proof. split. by intros l th w _. Qed.

#[local] Instance keeps_agents_recon_remove_footprint : ReconRemoveFootprint keeps_agents.
Proof. split. by intros l th w _. Qed.

Lemma slaveLost_loop_keeps_agents started l :
  preserves keeps_agents (for_each l (slaveLost_body started)).
Proof.
  apply preserves_for_each; [apply _|]. intros exe. unfold slaveLost_body.
  apply preserves_bind; [apply _| |intros; apply preserves_ret; apply _].
  apply preserves_with_local. apply preserves_slaveLost_exe; apply _.
Qed.

(** The message logged by [slaveLost] about the lost agent. *)
Definition node_lost_logged (agent_id : string) (node : option Node.t) : Event :=
  match node with
  | Some node => EvLog ERROR "Node lost on host %s" [LStr (Node.hostname node)]
  | None => EvLog ERROR "Node lost on agent %s" [LStr agent_id]
  end.

(** The world in which [slaveLost] has told both managers of the loss. *)
Definition managers_told (agent_id : string) (w : World) : World :=
  set_offer_manager (OfferManager.lost_node agent_id (_offer_manager w))
    (set_node_manager (NodeManager.lost_node agent_id (_node_manager w))
       (set_trace
          (EvOfferLost agent_id :: EvNodeLost agent_id
             :: node_lost_logged agent_id (NodeManager.get_node agent_id (_node_manager w))
             :: EvGetNode agent_id :: EvNow :: trace w) w)).

Lemma slaveLost_run driver agent_id w :
  slaveLost env driver agent_id w =
  let started := now_at env (length (trace w)) in
  (match NodeManager.get_node agent_id (_node_manager w) with
   | Some node =>
       exes ← job_exe_manager_get_job_exes_on_node (Node.id node);
       for_each exes (slaveLost_body started)
   | None => ret tt
   end;;
   log_duration env "Scheduler slaveLost() took %.3f seconds" DATABASE_WARN_THRESHOLD started)
    (managers_told agent_id w).
Proof.
  unfold slaveLost, managers_told, node_lost_logged. destruct w. run. cbn.
  destruct (NodeManager.get_node _ _); reflexivity.
Qed.

Lemma lost_node_offers_purged agent_id (m : OfferManager.t) o :
  o ∈ OfferManager.offers (OfferManager.lost_node agent_id m) →
  ResourceOffer.agent_id o ≠ agent_id.
Proof.
  unfold OfferManager.lost_node. cbn [OfferManager.offers].
  rewrite list_elem_of_filter. by intros [? _].
Qed.

Lemma lost_node_marked agent_id (m : NodeManager.t) node :
  NodeManager.get_node agent_id (NodeManager.lost_node agent_id m) = Some node →
  Node.is_lost node = true.
Proof.
  unfold NodeManager.get_node, NodeManager.lost_node. cbn [NodeManager.nodes].
  rewrite lookup_alter_eq. destruct (NodeManager.nodes m !! agent_id); [|done].
  by intros [= <-].
Qed.

(** [slaveLost] has returned: it has run the loop to its end from the
    world in which both managers were told, and then logged its duration. *)
Lemma slaveLost_returned driver agent_id th w w' :
  _recon_thread w = Some th →
  keyed w →
  slaveLost env driver agent_id w = (Normal tt, w') →
  let started := now_at env (length (trace w)) in
  let w0 := managers_told agent_id w in
  let timed (w1 : World) :=
    set_trace
      (duration_logged "Scheduler slaveLost() took %.3f seconds" DATABASE_WARN_THRESHOLD
         started (now_at env (length (trace w1))) :: EvNow :: trace w1) w1 in
  match NodeManager.get_node agent_id (_node_manager w) with
  | Some n =>
      let l := RunningJobExecutionManager.get_job_exes_on_node (Node.id n)
                 (_job_exe_manager w) in
      ∃ w1 th' new,
        w' = timed w1 ∧
        keeps_agents w0 w1 ∧
        _recon_thread w1 = Some th' ∧
        ReconciliationThread.task_ids th ⊆ ReconciliationThread.task_ids th' ∧
        trace w1 = (new ++ EvGetJobExesOnNode (Node.id n) :: trace w0)%list ∧
        (∀ e, e ∈ l → EvExecutionLost (RunningJobExecution.id e) started ∈ new) ∧
        (∀ i, i ∉ RunningJobExecution.id <$> l →
              _job_exe_manager w1 !! i = _job_exe_manager w !! i) ∧
        (∀ e, e ∈ l → lost_outcome started e w1)
  | None => w' = timed w0
  end.
Proof.
  intros Hth Hkeyed Hrun started w0 timed.
  rewrite slaveLost_run in Hrun. cbv zeta in Hrun. fold started w0 in Hrun.
  rewrite bind_run in Hrun.
  destruct (NodeManager.get_node agent_id (_node_manager w)) as [n|].
  - rewrite bind_run in Hrun.
    set (l := RunningJobExecutionManager.get_job_exes_on_node (Node.id n)
                (_job_exe_manager w)).
    set (w0' := set_trace (EvGetJobExesOnNode (Node.id n) :: trace w0) w0).
    change (job_exe_manager_get_job_exes_on_node (Node.id n) w0)
      with (Normal l, w0') in Hrun.
    cbv beta iota in Hrun.
    pose proof (slaveLost_loop_keeps_agents started l w0') as Hkeep.
    destruct (for_each l (slaveLost_body started) w0') as [[[]|e] w1] eqn:Hloop;
      [|done].
    cbn [snd] in Hkeep. rewrite log_duration_eq in Hrun.
    destruct (slaveLost_loop_spec started l w0' th w1) as
      ((th' & Hth' & Hsub) & (new & Hnew & Hev) & Hother & Hout); try done.
    { by apply get_job_exes_on_node_NoDup. }
    { intros e He. apply get_job_exes_on_node_elem in He as [_ [i Hi]].
      cbn. by rewrite (Hkeyed i e Hi). }
    exists w1, th', new. split_and!; try done. by injection Hrun as <-.
  - change (ret tt w0) with (Normal tt, w0) in Hrun. cbv beta iota in Hrun.
    rewrite log_duration_eq in Hrun. by injection Hrun as <-.
Qed.



(** C5. After [slaveLost] for agent [agent_id] has returned (the
    reconciliation thread exists and the manager indexes executions by
    their id): the node manager and the offer manager were both told of
    the loss before anything else was done, so the agent is marked lost and
    no offer of the agent is left; [execution_lost] was called, with the
    time the callback started, on every running job execution whose node is
    the node of the agent; each of them is in the manager, in the state the
    call left it in, exactly when that state is not terminal; where the
    call raised a [DatabaseError] the current task of the execution, if
    any, is in the reconciliation set, and the executions after it were
    processed all the same; executions on other nodes are untouched. *)
Theorem slaveLost_handles_lost_node driver agent_id th w w' :
  _recon_thread w = Some th →
  keyed w →
  slaveLost env driver agent_id w = (Normal tt, w') →
  let started := now_at env (length (trace w)) in
  let node := NodeManager.get_node agent_id (_node_manager w) in
  let on_node (exe : RunningJobExecution.t) :=
    ∃ n, node = Some n ∧ RunningJobExecution.node_id exe = Node.id n in
  (∃ new,
     history w' =
       (history w ++ [EvNow; EvGetNode agent_id; node_lost_logged agent_id node;
                      EvNodeLost agent_id; EvOfferLost agent_id] ++ new)%list ∧
     ∀ i exe, _job_exe_manager w !! i = Some exe → on_node exe →
              EvExecutionLost i started ∈ new) ∧
  _node_manager w' = NodeManager.lost_node agent_id (_node_manager w) ∧
  _offer_manager w' = OfferManager.lost_node agent_id (_offer_manager w) ∧
  (∀ o, o ∈ OfferManager.offers (_offer_manager w') → ResourceOffer.agent_id o ≠ agent_id) ∧
  (∀ n, NodeManager.get_node agent_id (_node_manager w') = Some n → Node.is_lost n = true) ∧
  (∀ i exe, _job_exe_manager w !! i = Some exe → on_node exe →
            lost_outcome started exe w') ∧
  (∀ i exe, _job_exe_manager w !! i = Some exe → ¬ on_node exe →
            _job_exe_manager w' !! i = Some exe) ∧
  recon_set w ⊆ recon_set w'.
Proof.
  intros Hth Hkeyed Hrun started node on_node.
  pose proof (slaveLost_returned driver agent_id th w w' Hth Hkeyed Hrun) as Hret.
  cbv zeta in Hret. fold started node in Hret.
  set (w0 := managers_told agent_id w) in *.
  assert (Hh0 : history w0 =
            (history w ++ [EvNow; EvGetNode agent_id; node_lost_logged agent_id node;
                           EvNodeLost agent_id; EvOfferLost agent_id])%list).
  { unfold history, w0, managers_told. cbn. by rewrite <- !app_assoc. }
  destruct node as [n|] eqn:Hnode.
  - destruct Hret as (w1 & th' & new & -> & [Hnodes Hoffers] & Hth' & Hsub & Hnew
                      & Hev & Hother & Hout).
    set (l := RunningJobExecutionManager.get_job_exes_on_node (Node.id n)
                (_job_exe_manager w)) in *.
    assert (Hmem : ∀ i exe, _job_exe_manager w !! i = Some exe → on_node exe →
              RunningJobExecution.id exe = i ∧ exe ∈ l).
    { intros i exe Hi (n' & [= <-] & Hn). split; [by apply Hkeyed|].
      apply get_job_exes_on_node_elem. split; [done|]. by exists i. }
    split_and!.
    + eexists. split.
      * match goal with
        | |- history (set_trace (?a :: ?b :: trace ?v) ?v) = _ =>
            rewrite (history_app v (set_trace (a :: b :: trace v) v) [a; b] eq_refl)
        end.
        rewrite (history_app w0 w1 (new ++ [EvGetJobExesOnNode (Node.id n)])%list).
        -- rewrite Hh0, <- !app_assoc. reflexivity.
        -- by rewrite Hnew, <- app_assoc.
      * intros i exe Hi Hon. destruct (Hmem i exe Hi Hon) as [<- Hl].
        apply elem_of_app. left. apply elem_of_rev.
        apply elem_of_app. left. by apply Hev.
    + exact Hnodes.
    + exact Hoffers.
    + intros o. cbn. rewrite Hoffers. apply lost_node_offers_purged.
    + intros n'. cbn. rewrite Hnodes. apply lost_node_marked.
    + intros i exe Hi Hon. destruct (Hmem i exe Hi Hon) as [_ Hl].
      destruct (Hout exe Hl) as (k & Hr & Hm & Hq). exists k. split_and!; done.
    + intros i exe Hi Hoff. cbn. rewrite Hother; [done|].
      intros Hin. apply list_elem_of_fmap in Hin as (e & -> & He).
      apply get_job_exes_on_node_elem in He as [Hn [j Hj]].
      pose proof (Hkeyed j e Hj) as <-. rewrite Hj in Hi. injection Hi as ->.
      apply Hoff. by exists n.
    + unfold recon_set. cbn. rewrite Hth, Hth'. done.
  - subst w'. split_and!.
    + eexists. split.
      * match goal with
        | |- history (set_trace (?a :: ?b :: trace ?v) ?v) = _ =>
            rewrite (history_app v (set_trace (a :: b :: trace v) v) [a; b] eq_refl)
        end.
        rewrite Hh0, <- !app_assoc. reflexivity.
      * intros i exe _ (n & [=] & _).
    + done.
    + done.
    + intros o. apply lost_node_offers_purged.
    + intros n'. apply lost_node_marked.
    + intros i exe _ (n & [=] & _).
    + intros i exe Hi _. exact Hi.
    + done.
Qed.


(** ** Removal of finished executions *)

(** [status_applied status exe exe']: [exe'] is the state in which the
    transition for [status] left the execution [exe]: the state the method
    called for the status state returned with, or [exe] itself for the
    states that drive no transition. *)
Inductive status_applied (status : TaskStatus.t) (exe : RunningJobExecution.t)
  : RunningJobExecution.t → Prop :=
| applied_nothing :
    TaskStatus.state status = TASK_STAGING ∨ TaskStatus.state status = TASK_STARTING →
    status_applied status exe exe
| applied_task_running n when stdout_url stderr_url :
    TaskStatus.state status = TASK_RUNNING →
    let tr := task_running env n exe (TaskStatus.task_id status) when stdout_url stderr_url in
    Transition.raised tr = None →
    status_applied status exe (Transition.apply tr exe)
| applied_task_complete n results :
    TaskStatus.state status = TASK_FINISHED →
    let tr := task_complete env n exe results in
    Transition.raised tr = None →
    status_applied status exe (Transition.apply tr exe)
| applied_task_lost n results :
    TaskStatus.state status = TASK_LOST →
    let tr := task_fail env n exe results (Some (get_builtin_error "mesos-lost")) in
    Transition.raised tr = None →
    status_applied status exe (Transition.apply tr exe)
| applied_task_fail n results :
    TaskStatus.state status = TASK_ERROR ∨ TaskStatus.state status = TASK_FAILED ∨
    TaskStatus.state status = TASK_KILLED →
    let tr := task_fail env n exe results None in
    Transition.raised tr = None →
    status_applied status exe (Transition.apply tr exe).

(** Lines 274-287 on the execution [exe] held by the manager: whether the
    transition returns or raises, the manager holds the execution in the
    state the local variable sees, and nothing else in it has changed. *)
Lemma apply_status_update_spec status results exe w r exe1 w1 :
  apply_status_update env status (TaskStatus.task_id status) results (exe, w) =
    (r, (exe1, w1)) →
  _recon_thread w1 = _recon_thread w ∧
  (∃ new, trace w1 = (new ++ trace w)%list) ∧
  (∀ i, i ≠ RunningJobExecution.id exe →
        _job_exe_manager w1 !! i = _job_exe_manager w !! i) ∧
  (_job_exe_manager w !! RunningJobExecution.id exe = Some exe →
   _job_exe_manager w1 !! RunningJobExecution.id exe = Some exe1) ∧
  (r = Normal tt → status_applied status exe exe1).
Proof.
  unfold apply_status_update.
  destruct (TaskStatus.state status) eqn:Hst;
    destruct w as [? ? ? ? ? m ? ? ? ? ? ? trace0]; run; cbn;
    answers; intros [= <- <- <-]; cbn;
    (split_and!;
     [ reflexivity
     | lazymatch goal with
       | |- ∃ new, ?t = (new ++ ?base)%list =>
           let l := added_to base t in exists l; reflexivity
       end
     | intros i Hi; by rewrite ?lookup_alter_ne
     | intros Hget; by rewrite ?lookup_alter_eq, ?Hget
     | intros Hr; try discriminate Hr ]).
  all: first
    [ by eapply applied_nothing; eauto
    | by eapply applied_task_running
    | by eapply applied_task_complete
    | by eapply applied_task_lost
    | by eapply applied_task_fail; eauto ].
Qed.








(** [keeps_job_exes w w']: the job execution manager is as it was. *)
Definition keeps_job_exes (w w' : World) : Prop :=
  _job_exe_manager w' = _job_exe_manager w.

#[local] Instance keeps_job_exes_preorder : PreOrder keeps_job_exes.
Proof.
  split.
  - by intros w.
  - intros w1 w2 w3 H1 H2. unfold keeps_job_exes in *. congruence.
Qed.

#[local] Instance keeps_job_exes_trace_footprint : TraceFootprint keeps_job_exes.
Proof. split; [apply _|]. by intros ev w. Qed.

#[local] Instance keeps_job_exes_agent_footprint : AgentFootprint keeps_job_exes.
Proof. split; by intros m w. Qed.

#[local] Instance keeps_job_exes_identity_footprint : IdentityFootprint keeps_job_exes.
Proof. split; by intros v w. Qed.

#[local] Instance keeps_job_exes_recon_add_footprint : ReconAddFootprint keeps_job_exes.
Proof. split. by intros l th w _. Qed.



(** ** Registration *)

(** The current tasks of the executions the backing store believes running
    and the manager knows, in the order of the backing store. *)
Definition tasks_to_reconcile (m : gmap Z RunningJobExecution.t)
    (job_exes : list JobExecution.t) : list string :=
  omap (λ job_exe,
          match m !! JobExecution.id job_exe with
          | Some exe => Task.id <$> RunningJobExecution.current_task exe
          | None => None
          end) job_exes.

Lemma reconcile_loop_spec job_exes : ∀ task_ids w r w',
  reconcile_loop env job_exes task_ids w = (r, w') →
  _job_exe_manager w' = _job_exe_manager w ∧
  _recon_thread w' = _recon_thread w ∧
  (∃ new, trace w' = (new ++ trace w)%list) ∧
  (∀ ids, r = Normal ids →
          ids = (task_ids ++ tasks_to_reconcile (_job_exe_manager w) job_exes)%list).
Proof.
  induction job_exes as [|job_exe rest IH]; intros task_ids w r w' Hrun.
  - cbn in Hrun. injection Hrun as <- <-. split_and!; try done.
    + by exists [].
    + intros ids [= <-]. cbn. by rewrite app_nil_r.
  - cbn [reconcile_loop] in Hrun. rewrite !bind_run in Hrun.
    unfold tasks_to_reconcile. cbn [omap list_omap].
    destruct w as [? ? ? ? ? m ? ? ? ? ? ? trace0]. revert Hrun. run.
    unfold RunningJobExecutionManager.get_job_exe.
    destruct (m !! JobExecution.id job_exe) as [exe|] eqn:Hget; cbn.
    + destruct (RunningJobExecution.current_task exe) as [task|]; cbn; intros Hrun;
        apply IH in Hrun as (Hm & Hrt & [new Hnew] & Hids); cbn in Hm, Hrt, Hnew, Hids;
        (split_and!; [done|done| |]).
      * exists (new ++ [EvGetJobExe (JobExecution.id job_exe)])%list.
        by rewrite Hnew, <- app_assoc.
      * intros ids Hr. rewrite (Hids ids Hr), <- app_assoc. done.
      * exists (new ++ [EvGetJobExe (JobExecution.id job_exe)])%list.
        by rewrite Hnew, <- app_assoc.
      * intros ids Hr. by rewrite (Hids ids Hr).
    + destruct (handle_job_failure env _ _ _ _) as [[]|e]; cbn; intros Hrun.
      * apply IH in Hrun as (Hm & Hrt & [new Hnew] & Hids); cbn in Hm, Hrt, Hnew, Hids.
        split_and!; [done|done| |].
        -- eexists (new ++ [_; _; _])%list. by rewrite Hnew, <- app_assoc.
        -- intros ids Hr. by rewrite (Hids ids Hr).
      * injection Hrun as <- <-. split_and!; [done|done| |done].
        by eexists [_; _; _].
Qed.

Lemma reconcile_loop_returns job_exes :
  (∀ n i t e, handle_job_failure env n i t e = Normal tt) →
  ∀ task_ids w, ∃ ids w', reconcile_loop env job_exes task_ids w = (Normal ids, w').
Proof.
  intros Hok. induction job_exes as [|job_exe rest IH]; intros task_ids w.
  - by eexists _, _.
  - cbn [reconcile_loop]. rewrite !bind_run.
    destruct w as [? ? ? ? ? m ? ? ? ? ? ? trace0]. run.
    unfold RunningJobExecutionManager.get_job_exe.
    destruct (m !! JobExecution.id job_exe) as [exe|]; cbn.
    + destruct (RunningJobExecution.current_task exe); cbn; apply IH.
    + rewrite Hok. cbn. apply IH.
Qed.

Lemma reconcile_running_jobs_spec rt w w' :
  _recon_thread w = Some rt →
  _reconcile_running_jobs env w = (Normal tt, w') →
  ∃ job_exes new,
    get_running_job_exes env (length (trace w)) = Normal job_exes ∧
    let ids := tasks_to_reconcile (_job_exe_manager w) job_exes in
    trace w' = (EvReconAdd ids :: new ++ EvGetRunningJobExes :: trace w)%list ∧
    _recon_thread w' = Some (ReconciliationThread.add_task_ids ids rt).
Proof.
  intros Hrt. unfold _reconcile_running_jobs.
  destruct w as [? ? ? ? ? m ? ? ? rt0 ? ? trace0]. cbn in Hrt. subst rt0. run. cbn.
  destruct (get_running_job_exes env (length trace0)) as [job_exes|e]; [|done].
  match goal with
  | |- context [reconcile_loop ?c ?l ?a ?W] =>
      destruct (reconcile_loop c l a W) as [r1 w1] eqn:Hloop
  end.
  apply reconcile_loop_spec in Hloop as (Hm & Hth & [new Hnew] & Hids).
  destruct w1 as [? ? ? ? ? m1 ? ? ? rt1 ? ? trace1].
  cbn in Hm, Hth, Hnew, Hids. subst m1 rt1 trace1.
  destruct r1 as [ids|e]; [|done].
  rewrite (Hids ids eq_refl). cbn. intros [= <-].
  exists job_exes, new. done.
Qed.

Lemma reconcile_running_jobs_returns rt w :
  _recon_thread w = Some rt →
  (∀ n, ∃ job_exes, get_running_job_exes env n = Normal job_exes) →
  (∀ n i t e, handle_job_failure env n i t e = Normal tt) →
  ∃ w', _reconcile_running_jobs env w = (Normal tt, w').
Proof.
  intros Hrt Hlist Hok. unfold _reconcile_running_jobs.
  rewrite bind_run.
  destruct w as [? ? ? ? ? m ? ? ? rt0 ? ? trace0]. cbn in Hrt. subst rt0.
  unfold call at 1. run. cbn.
  destruct (Hlist (length trace0)) as [job_exes ->].
  match goal with
  | |- context [reconcile_loop ?c ?l ?a ?W] =>
      pose proof (reconcile_loop_spec l a W) as Hspec;
      destruct (reconcile_loop_returns l Hok a W) as (ids & w1 & Hloop)
  end.
  specialize (Hspec _ _ Hloop) as (_ & Hth & _).
  rewrite Hloop. destruct w1. cbn in Hth. subst. cbn. by eexists.
Qed.

(** The reconcile pass: the question to the backing store, and then the
    loop and the addition to the reconciliation set when it answers. *)
Lemma reconcile_running_jobs_run w :
  _reconcile_running_jobs env w =
  let w0 := set_trace (EvGetRunningJobExes :: trace w) w in
  match get_running_job_exes env (length (trace w)) with
  | Raise e => (Raise e, w0)
  | Normal job_exes =>
      (task_ids ← reconcile_loop env job_exes []; recon_thread_add_task_ids task_ids) w0
  end.
Proof.
  unfold _reconcile_running_jobs. destruct w. unfold call. run. cbn.
  by destruct (get_running_job_exes env _).
Qed.

(** The loop of the reconcile pass raises only what a failure report
    raised, right after that report. *)
Lemma reconcile_loop_raises job_exes : ∀ task_ids w e w',
  reconcile_loop env job_exes task_ids w = (Raise e, w') →
  ∃ pre job_exe_id when,
    trace w' =
      (EvHandleJobFailure job_exe_id when (get_builtin_error "scheduler-lost")
         :: pre ++ trace w)%list ∧
    handle_job_failure env (length (pre ++ trace w)) job_exe_id when
      (get_builtin_error "scheduler-lost") = Raise e.
Proof.
  induction job_exes as [|job_exe rest IH]; intros task_ids w e w' Hrun; [done|].
  cbn [reconcile_loop] in Hrun. rewrite !bind_run in Hrun.
  destruct w as [? ? ? ? ? m ? ? ? ? ? ? trace0]. revert Hrun. run.
  unfold RunningJobExecutionManager.get_job_exe.
  destruct (m !! JobExecution.id job_exe) as [exe|]; cbn.
  - destruct (RunningJobExecution.current_task exe) as [task|]; cbn; intros Hrun;
      apply IH in Hrun as (pre & i & t & Htr & Hfail); cbn in Htr, Hfail;
      exists (pre ++ [EvGetJobExe (JobExecution.id job_exe)])%list, i, t;
      rewrite <- !app_assoc; done.
  - destruct (handle_job_failure env _ _ _ _) as [[]|e'] eqn:Hfail; cbn; intros Hrun.
    + apply IH in Hrun as (pre & i & t & Htr & Hfail'); cbn in Htr, Hfail'.
      exists (pre ++ [EvHandleJobFailure (JobExecution.id job_exe)
                        (now_at env (S (length trace0)))
                        (get_builtin_error "scheduler-lost");
                      EvNow; EvGetJobExe (JobExecution.id job_exe)])%list, i, t.
      rewrite <- !app_assoc. done.
    + injection Hrun as <- <-. eexists [_; _], _, _. split; [reflexivity|]. exact Hfail.
Qed.

(** The calls of the loop of the reconcile pass over [job_exes], started
    after [n] calls, when no failure report is refused: each execution is
    looked up in the manager [m], and one the manager does not know is
    reported as failed, with the clock reading and the built-in error
    scheduler-lost. *)
Fixpoint reconcile_calls (m : gmap Z RunningJobExecution.t) (n : nat)
    (job_exes : list JobExecution.t) : list Event :=
  match job_exes with
  | [] => []
  | job_exe :: rest =>
      let job_exe_id := JobExecution.id job_exe in
      match m !! job_exe_id with
      | Some _ => EvGetJobExe job_exe_id :: reconcile_calls m (1 + n) rest
      | None =>
          EvGetJobExe job_exe_id :: EvNow
            :: EvHandleJobFailure job_exe_id (now_at env (1 + n))
                 (get_builtin_error "scheduler-lost")
            :: reconcile_calls m (3 + n) rest
      end
  end.

Lemma reconcile_loop_calls job_exes : ∀ task_ids w r w',
  reconcile_loop env job_exes task_ids w = (r, w') →
  let calls := reconcile_calls (_job_exe_manager w) (length (trace w)) job_exes in
  ∃ new,
    history w' = (history w ++ new)%list ∧
    new `prefix_of` calls ∧
    (∀ ids, r = Normal ids → new = calls).
Proof.
  induction job_exes as [|job_exe rest IH]; intros task_ids w r w' Hrun.
  - cbn in Hrun. injection Hrun as <- <-. exists []. by rewrite app_nil_r.
  - cbn [reconcile_loop] in Hrun. rewrite !bind_run in Hrun.
    cbn [reconcile_calls]. cbv zeta.
    destruct w as [? ? ? ? ? m ? ? ? ? ? ? trace0]. revert Hrun. run.
    unfold RunningJobExecutionManager.get_job_exe.
    destruct (m !! JobExecution.id job_exe) as [exe|] eqn:Hget; cbn.
    + destruct (RunningJobExecution.current_task exe) as [task|]; cbn; intros Hrun;
        apply IH in Hrun as (new & Hh & Hpre & Heq); unfold history in Hh;
        cbn in Hh, Hpre, Heq;
        exists (EvGetJobExe (JobExecution.id job_exe) :: new);
        (split_and!;
         [ rewrite Hh, <- ?app_assoc; reflexivity
         | by apply prefix_cons
         | intros ids Hr; f_equal; by eapply Heq ]).
    + destruct (handle_job_failure env _ _ _ _) as [[]|e]; cbn; intros Hrun.
      * apply IH in Hrun as (new & Hh & Hpre & Heq). unfold history in Hh.
        cbn in Hh, Hpre, Heq.
        eexists (_ :: _ :: _ :: new). split_and!.
        -- rewrite Hh, <- ?app_assoc. reflexivity.
        -- by do 3 apply prefix_cons.
        -- intros ids Hr. do 3 f_equal. by eapply Heq.
      * injection Hrun as <- <-. eexists [_; _; _]. split_and!.
        -- cbn. rewrite <- ?app_assoc. reflexivity.
        -- do 3 apply prefix_cons. apply prefix_nil.
        -- done.
Qed.

(** The reconcile pass has returned: the calls it made and what it
    queued. *)
Lemma reconcile_running_jobs_returned rt w w' :
  _recon_thread w = Some rt →
  _reconcile_running_jobs env w = (Normal tt, w') →
  ∃ job_exes,
    get_running_job_exes env (length (trace w)) = Normal job_exes ∧
    let ids := tasks_to_reconcile (_job_exe_manager w) job_exes in
    history w' =
      (history w ++ EvGetRunningJobExes
         :: reconcile_calls (_job_exe_manager w) (1 + length (trace w)) job_exes
         ++ [EvReconAdd ids])%list ∧
    _recon_thread w' = Some (ReconciliationThread.add_task_ids ids rt).
Proof.
  intros Hrt. rewrite reconcile_running_jobs_run. cbv zeta.
  destruct (get_running_job_exes env (length (trace w))) as [job_exes|e]; [|done].
  rewrite bind_run.
  set (w1 := set_trace (EvGetRunningJobExes :: trace w) w).
  destruct (reconcile_loop env job_exes [] w1) as [[ids|e] w2] eqn:Hloop; [|done].
  destruct (reconcile_loop_spec _ _ _ _ _ Hloop) as (Hm & Hth & _ & Hids).
  destruct (reconcile_loop_calls _ _ _ _ _ Hloop) as (new & Hnew & _ & Hcalls).
  specialize (Hids ids eq_refl). cbn [app] in Hids. subst ids.
  specialize (Hcalls _ eq_refl). subst new.
  rewrite (recon_thread_add_task_ids_run _ rt) by (by rewrite Hth).
  intros [= <-]. exists job_exes. split; [done|]. cbv zeta. split; [|done].
  rewrite (history_app w2 _ [EvReconAdd (tasks_to_reconcile (_job_exe_manager w) job_exes)]);
    [|done].
  rewrite Hnew. unfold history, w1. cbn. by rewrite <- !app_assoc.
Qed.

(** The message logged by [reregistered]. *)
Definition reregistered_logged (masterInfo : MasterInfo.t) : Event :=
  EvLog INFO "Scale scheduler re-registered with Mesos master at %s:%i"
    [LStr (MasterInfo.hostname masterInfo); LInt (MasterInfo.port masterInfo)].

(** The world in which [reregistered] has recorded the new master and
    failed to persist it. *)
Definition master_recorded (driver : Driver) (masterInfo : MasterInfo.t) (w : World) : World :=
  set_trace
    (EvUpdateMaster (MasterInfo.hostname masterInfo) (MasterInfo.port masterInfo) :: trace w)
    (set_master_port (Some (MasterInfo.port masterInfo))
       (set_master_hostname (Some (MasterInfo.hostname masterInfo))
          (set_driver (Some driver) w))).

(** The world in which [reregistered] has persisted the new master and
    written the new driver into the three loop objects. *)
Definition driver_rotated (driver : Driver) (masterInfo : MasterInfo.t)
    (db : DatabaseSyncThread.t) (rt : ReconciliationThread.t) (sch : SchedulingThread.t)
    (w : World) : World :=
  set_scheduling_thread (Some (SchedulingThread.set_driver (Some driver) sch))
    (set_recon_thread (Some (ReconciliationThread.set_driver (Some driver) rt))
       (set_db_sync_thread (Some (DatabaseSyncThread.set_driver (Some driver) db))
          (set_trace (reregistered_logged masterInfo :: trace (master_recorded driver masterInfo w))
             (master_recorded driver masterInfo w)))).

Lemma reregistered_run driver masterInfo db rt sch w :
  _db_sync_thread w = Some db →
  _recon_thread w = Some rt →
  _scheduling_thread w = Some sch →
  reregistered env driver masterInfo w =
  match update_master env (length (trace w)) (MasterInfo.hostname masterInfo)
          (MasterInfo.port masterInfo) with
  | Normal _ => _reconcile_running_jobs env (driver_rotated driver masterInfo db rt sch w)
  | Raise e => (Raise e, master_recorded driver masterInfo w)
  end.
Proof.
  unfold reregistered, driver_rotated, master_recorded, reregistered_logged.
  destruct w. run. cbn. intros -> -> ->.
  destruct (update_master env _ _ _) as [[]|e]; reflexivity.
Qed.

(** C9, as amended.  For every [reregistered] call on a scheduler whose
    three loop objects exist (it has registered).
    Whatever the backing store does, the driver and the master identity
    recorded in the scheduler are the new ones, no thread is started, no
    loop object is replaced (each keeps its running flag, the
    reconciliation set only grows), and the framework id, the executor and
    the three managers are unchanged.
    What else happens depends on the backing store.  When it refuses to
    persist the master, [reregistered] raises that exception right there:
    the three loop objects are exactly as before, with the driver they
    had, and no reconcile pass is made.  When it persists the master, the
    new driver is written into the three loop objects and the backing
    store is asked for the running executions (the third call).  When that
    question raises, [reregistered] raises the same and nothing is queued.
    When it is answered with [job_exes], the pass goes through that list,
    looking each execution up and reporting as failed the ones the manager
    does not know ([reconcile_calls]): if no report is refused,
    [reregistered] returns and the current tasks of the executions of
    [job_exes] the manager knows have been added to the reconciliation set
    in one call; if a report is refused, the pass ends there,
    [reregistered] raises what the report raised and nothing is queued.
    And [reregistered] returns whenever the backing store answers. *)
Theorem reregistered_rotates_driver driver masterInfo db rt sch w :
  _db_sync_thread w = Some db →
  _recon_thread w = Some rt →
  _scheduling_thread w = Some sch →
  let hostname := MasterInfo.hostname masterInfo in
  let port := MasterInfo.port masterInfo in
  let rotated (w' : World) :=
    _db_sync_thread w' = Some (DatabaseSyncThread.set_driver (Some driver) db) ∧
    _scheduling_thread w' = Some (SchedulingThread.set_driver (Some driver) sch) in
  let asked :=
    (history w ++ [EvUpdateMaster hostname port; reregistered_logged masterInfo;
                   EvGetRunningJobExes])%list in
  (∀ r w',
     reregistered env driver masterInfo w = (r, w') →
     _driver w' = Some driver ∧
     _master_hostname w' = Some hostname ∧
     _master_port w' = Some port ∧
     started_threads w' = started_threads w ∧
     _framework_id w' = _framework_id w ∧
     _executor w' = _executor w ∧
     _job_exe_manager w' = _job_exe_manager w ∧
     _node_manager w' = _node_manager w ∧
     _offer_manager w' = _offer_manager w ∧
     (∃ db', _db_sync_thread w' = Some db' ∧
             DatabaseSyncThread.running db' = DatabaseSyncThread.running db) ∧
     (∃ rt', _recon_thread w' = Some rt' ∧
             ReconciliationThread.running rt' = ReconciliationThread.running rt ∧
             ReconciliationThread.task_ids rt ⊆ ReconciliationThread.task_ids rt') ∧
     (∃ sch', _scheduling_thread w' = Some sch' ∧
              SchedulingThread.running sch' = SchedulingThread.running sch)) ∧
  match update_master env (length (trace w)) hostname port with
  | Raise e =>
      ∃ w',
        reregistered env driver masterInfo w = (Raise e, w') ∧
        history w' = (history w ++ [EvUpdateMaster hostname port])%list ∧
        _db_sync_thread w' = Some db ∧
        _recon_thread w' = Some rt ∧
        _scheduling_thread w' = Some sch
  | Normal _ =>
      match get_running_job_exes env (2 + length (trace w)) with
      | Raise e =>
          ∃ w',
            reregistered env driver masterInfo w = (Raise e, w') ∧
            history w' = asked ∧
            rotated w' ∧
            _recon_thread w' = Some (ReconciliationThread.set_driver (Some driver) rt)
      | Normal job_exes =>
          let ids := tasks_to_reconcile (_job_exe_manager w) job_exes in
          let calls := reconcile_calls (_job_exe_manager w) (3 + length (trace w)) job_exes in
          ∃ r w',
            reregistered env driver masterInfo w = (r, w') ∧
            rotated w' ∧
            match r with
            | Normal _ =>
                history w' = (asked ++ calls ++ [EvReconAdd ids])%list ∧
                _recon_thread w' =
                  Some (ReconciliationThread.add_task_ids ids
                          (ReconciliationThread.set_driver (Some driver) rt))
            | Raise e =>
                ∃ pre job_exe_id when,
                  let report :=
                    EvHandleJobFailure job_exe_id when (get_builtin_error "scheduler-lost") in
                  history w' = (asked ++ pre ++ [report])%list ∧
                  (pre ++ [report])%list `prefix_of` calls ∧
                  handle_job_failure env (length (asked ++ pre)) job_exe_id when
                    (get_builtin_error "scheduler-lost") = Raise e ∧
                  _recon_thread w' =
                    Some (ReconciliationThread.set_driver (Some driver) rt)
            end
      end
  end ∧
  ((∀ n h p, update_master env n h p = Normal tt) →
   (∀ n, ∃ job_exes, get_running_job_exes env n = Normal job_exes) →
   (∀ n i t e, handle_job_failure env n i t e = Normal tt) →
   ∃ w', reregistered env driver masterInfo w = (Normal tt, w')).
Proof.
  intros Hdb Hrt Hsch hostname port rotated asked.
  pose proof (reregistered_run driver masterInfo db rt sch w Hdb Hrt Hsch) as Hrun.
  set (w0 := driver_rotated driver masterInfo db rt sch w) in *.
  pose proof (preserves_reconcile_running_jobs env reconciling w0) as Hrec.
  split_and!.
  - intros r w' Hr. rewrite Hrun in Hr.
    destruct (update_master env _ _ _) as [[]|e].
    + rewrite Hr in Hrec. cbn [snd] in Hrec.
      pose proof (reconciling_recon_thread _ _ Hrec) as Hg.
      unfold grown_recon_thread in Hg. cbn in Hg.
      destruct (_recon_thread w') as [rt'|]; [|done].
      destruct Hg as (_ & Hrun' & Hsub).
      split_and!.
      * by rewrite (reconciling_driver _ _ Hrec).
      * by rewrite (reconciling_master_hostname _ _ Hrec).
      * by rewrite (reconciling_master_port _ _ Hrec).
      * by rewrite (reconciling_started_threads _ _ Hrec).
      * by rewrite (reconciling_framework_id _ _ Hrec).
      * by rewrite (reconciling_executor _ _ Hrec).
      * by rewrite (reconciling_job_exe_manager _ _ Hrec).
      * by rewrite (reconciling_node_manager _ _ Hrec).
      * by rewrite (reconciling_offer_manager _ _ Hrec).
      * eexists. by rewrite (reconciling_db_sync_thread _ _ Hrec).
      * by exists rt'.
      * eexists. by rewrite (reconciling_scheduling_thread _ _ Hrec).
    + injection Hr as <- <-. cbn. rewrite Hdb, Hrt, Hsch. split_and!; eauto.
  - rewrite Hrun. clear Hrun.
    destruct (update_master env _ _ _) as [[]|e].
    2: { eexists. split; [reflexivity|]. by split_and!. }
    assert (Hasked : history (set_trace (EvGetRunningJobExes :: trace w0) w0) = asked).
    { unfold asked, history, w0. cbn. by rewrite <- !app_assoc. }
    rewrite reconcile_running_jobs_run in Hrec |- *. cbv zeta in Hrec |- *.
    change (length (trace w0)) with (2 + length (trace w))%nat in *.
    destruct (get_running_job_exes env (2 + length (trace w))) as [job_exes|e].
    2: { eexists. split; [reflexivity|]. split_and!; try done. }
    rewrite bind_run in Hrec |- *.
    set (w1 := set_trace (EvGetRunningJobExes :: trace w0) w0) in *.
    destruct (reconcile_loop env job_exes [] w1) as [[ids|e] w2] eqn:Hloop.
    + destruct (reconcile_loop_spec _ _ _ _ _ Hloop) as (Hm & Hth & _ & Hids).
      destruct (reconcile_loop_calls _ _ _ _ _ Hloop) as (new & Hnew & _ & Hcalls).
      specialize (Hids ids eq_refl). cbn [app] in Hids. subst ids.
      specialize (Hcalls _ eq_refl). subst new.
      change (_job_exe_manager w1) with (_job_exe_manager w) in *.
      change (length (trace w1)) with (3 + length (trace w))%nat in *.
      rewrite (recon_thread_add_task_ids_run _
                 (ReconciliationThread.set_driver (Some driver) rt)) by (by rewrite Hth).
      rewrite (recon_thread_add_task_ids_run _
                 (ReconciliationThread.set_driver (Some driver) rt)) in Hrec
        by (by rewrite Hth).
      cbn [snd] in Hrec.
      eexists (Normal tt), _. split; [reflexivity|]. unfold rotated. split_and!.
      * by rewrite (reconciling_db_sync_thread _ _ Hrec).
      * by rewrite (reconciling_scheduling_thread _ _ Hrec).
      * rewrite (history_app w2 _ [EvReconAdd (tasks_to_reconcile (_job_exe_manager w) job_exes)]);
          [|done].
        by rewrite Hnew, Hasked, <- app_assoc.
      * done.
    + cbn [snd] in Hrec.
      destruct (reconcile_loop_spec _ _ _ _ _ Hloop) as (Hm & Hth & _ & _).
      destruct (reconcile_loop_calls _ _ _ _ _ Hloop) as (new & Hnew & Hpre & _).
      destruct (reconcile_loop_raises _ _ _ _ _ Hloop) as (pre & i & t & Htr & Hfail).
      change (_job_exe_manager w1) with (_job_exe_manager w) in *.
      change (length (trace w1)) with (3 + length (trace w))%nat in *.
      assert (Hh2 : history w2 =
                (history w1 ++ rev pre ++
                 [EvHandleJobFailure i t (get_builtin_error "scheduler-lost")])%list).
      { by rewrite (history_app w1 w2 (EvHandleJobFailure i t
                      (get_builtin_error "scheduler-lost") :: pre) Htr). }
      rewrite Hh2 in Hnew. apply app_inv_head in Hnew. subst new.
      eexists (Raise e), _. split; [reflexivity|].
      unfold rotated. split_and!.
      * by rewrite (reconciling_db_sync_thread _ _ Hrec).
      * by rewrite (reconciling_scheduling_thread _ _ Hrec).
      * exists (rev pre), i, t. cbv zeta. split_and!.
        -- by rewrite Hh2, Hasked.
        -- done.
        -- rewrite <- Hfail. f_equal. rewrite <- Hasked. unfold history.
           rewrite !length_app, !length_rev. lia.
        -- by rewrite Hth.
  - intros Hmaster Hlist Hok. rewrite Hrun, Hmaster.
    apply (reconcile_running_jobs_returns
             (ReconciliationThread.set_driver (Some driver) rt)); done.
Qed.


(** A scheduler on which [registered] has not run: the three loop objects
    are still [None], as the constructor left them. *)
Definition unregistered (w : World) : Prop :=
  _db_sync_thread w = None ∧ _recon_thread w = None ∧ _scheduling_thread w = None.


(** ** Which callbacks contain exceptions *)

Lemma registered_propagates driver frameworkId masterInfo w e :
  update_master env (length (trace w)) (MasterInfo.hostname masterInfo)
    (MasterInfo.port masterInfo) = Raise e →
  (registered env driver frameworkId masterInfo w).1 = Raise e.
Proof. unfold registered. destruct w. run. cbn. by intros ->. Qed.

Lemma reregistered_propagates driver masterInfo w e :
  update_master env (length (trace w)) (MasterInfo.hostname masterInfo)
    (MasterInfo.port masterInfo) = Raise e →
  (reregistered env driver masterInfo w).1 = Raise e.
Proof. unfold reregistered. destruct w. run. cbn. by intros ->. Qed.

Lemma slaveLost_returns driver agent_id th w :
  _recon_thread w = Some th →
  (∀ n exe started,
     Transition.raised (execution_lost env n exe started) = None ∨
     Transition.raised (execution_lost env n exe started) = Some DatabaseError) →
  ∃ w', slaveLost env driver agent_id w = (Normal tt, w').
Proof.
  intros Hth Hok. rewrite slaveLost_run. cbv zeta. rewrite bind_run.
  destruct (NodeManager.get_node agent_id (_node_manager w)) as [n|].
  - rewrite bind_run.
    match goal with
    | |- context [job_exe_manager_get_job_exes_on_node ?i ?W] =>
        change (job_exe_manager_get_job_exes_on_node i W)
          with (Normal (RunningJobExecutionManager.get_job_exes_on_node i (_job_exe_manager W)),
                set_trace (EvGetJobExesOnNode i :: trace W) W)
    end.
    cbv beta iota.
    match goal with
    | |- context [for_each ?l ?b ?W] =>
        destruct (slaveLost_loop_returns (now_at env (length (trace w))) l
                    (λ n exe, Hok n exe _) W) as [w1 Hloop]
    end.
    { cbn. rewrite Hth. by eexists. }
    rewrite Hloop, log_duration_eq. by eexists.
  - change (ret tt (managers_told agent_id w)) with (Normal tt, managers_told agent_id w).
    cbv beta iota. rewrite log_duration_eq. by eexists.
Qed.

(** ** Exceptions of the backing store *)

(** What a call raised, if it raised. *)
Definition exception_of {A} (r : Result A) : option Exception :=
  match r with
  | Raise e => Some e
  | Normal _ => None
  end.

(** What the backing store raised when the call [ev] reached it after [n]
    earlier calls: [None] when it returned, and for the calls that do not
    go to the backing store. *)
Definition raised_by (n : nat) (ev : Event) : option Exception :=
  match ev with
  | EvUpdateMaster hostname port => exception_of (update_master env n hostname port)
  | EvInitializeSystem => exception_of (initialize_system env n)
  | EvJobTypeSync => exception_of (job_type_sync env n)
  | EvSchedulerSync => exception_of (scheduler_sync env n)
  | EvGetRunningJobExes => exception_of (get_running_job_exes env n)
  | EvHandleJobFailure job_exe_id when error =>
      exception_of (handle_job_failure env n job_exe_id when error)
  | _ => None
  end.

(** [propagated w r w']: between [w] and [w'] no exception of the backing
    store was handled: a call to the backing store that raised is the last
    call made, and what it raised is the outcome [r]. *)
Definition propagated {A} (w : World) (r : Result A) (w' : World) : Prop :=
  ∃ new,
    history w' = (history w ++ new)%list ∧
    ∀ k ev e,
      new !! k = Some ev →
      raised_by (length (history w) + k) ev = Some e →
      r = Raise e ∧ length new = S k.

(** [m] handles no exception of the backing store, in any world. *)
Definition propagates {A} (m : M World A) : Prop :=
  ∀ w, propagated w (m w).1 (m w).2.

Lemma propagated_refl {A} (r : Result A) w w' :
  history w' = history w → propagated w r w'.
Proof. intros Hh. exists []. by rewrite app_nil_r. Qed.

Lemma propagates_ret {A} (a : A) : propagates (mret a : M World A).
Proof. intros w. by apply propagated_refl. Qed.

Lemma propagates_raise {A} e : propagates (raise e : M World A).
Proof. intros w. by apply propagated_refl. Qed.

Lemma propagates_gets {A} (f : World → A) : propagates (gets f).
Proof. intros w. by apply propagated_refl. Qed.

Lemma propagates_modify (f : World → World) :
  (∀ w, trace (f w) = trace w) → propagates (modify f).
Proof. intros Hf w. apply propagated_refl. unfold history. cbn. by rewrite Hf. Qed.

Lemma propagated_one {A} ev (r : Result A) w :
  (∀ e, raised_by (length (trace w)) ev = Some e → r = Raise e) →
  propagated w r (set_trace (ev :: trace w) w).
Proof.
  intros Hev. exists [ev]. split; [done|].
  intros [|k] ev' e Hk Hr; [|done]. injection Hk as <-.
  unfold history in Hr. rewrite length_rev, Nat.add_0_r in Hr. split; [by apply Hev|done].
Qed.

Lemma propagates_emit ev : (∀ n, raised_by n ev = None) → propagates (emit ev).
Proof. intros Hev w. apply propagated_one. intros e. by rewrite Hev. Qed.

Lemma propagates_call {A} ev (outcome : nat → Result A) :
  (∀ n, raised_by n ev = exception_of (outcome n)) → propagates (call ev outcome).
Proof.
  intros Hev w. apply (propagated_one ev (outcome (length (trace w)))).
  intros e. rewrite Hev. destruct (outcome _) as [a|e']; cbn; [done|by intros [= <-]].
Qed.

Lemma propagates_bind {A B} (m : M World A) (k : A → M World B) :
  propagates m → (∀ a, propagates (k a)) → propagates (m ≫= k).
Proof.
  intros Hm Hk w. specialize (Hm w). rewrite bind_run.
  destruct (m w) as [[a|e] w1]; cbn [fst snd] in Hm |- *.
  2: { destruct Hm as (new & Hh & Hnew). exists new. split; [done|].
       intros i ev e' Hi Hr. by destruct (Hnew i ev e' Hi Hr) as [[= <-] ?]. }
  specialize (Hk a w1). destruct (k a w1) as [r w']. cbn [fst snd] in Hk |- *.
  destruct Hm as (new1 & Hh1 & Hnew1), Hk as (new2 & Hh2 & Hnew2).
  exists (new1 ++ new2)%list. split; [by rewrite Hh2, Hh1, app_assoc|].
  intros i ev e Hi Hr. apply lookup_app_Some in Hi as [Hi|[Hle Hi]].
  - by destruct (Hnew1 i ev e Hi Hr).
  - destruct (Hnew2 (i - length new1)%nat ev e Hi) as [-> Hlen].
    + rewrite Hh1, length_app. by replace (_ + _ + _)%nat with (length (history w) + i)%nat by lia.
    + split; [done|]. rewrite length_app. lia.
Qed.

Lemma propagates_now : propagates (now env).
Proof. intros w. by apply (propagated_one EvNow). Qed.

Lemma propagates_deref {A} (field : World → option A) : propagates (deref field).
Proof. intros w. unfold deref. run. destruct (field w); by apply propagated_refl. Qed.

Ltac propagation :=
  repeat first
    [ apply propagates_call; intros ?; reflexivity
    | apply propagates_now
    | apply propagates_deref
    | apply propagates_emit; intros ?; reflexivity
    | apply propagates_modify; intros ?; reflexivity
    | apply propagates_gets
    | apply propagates_ret
    | apply propagates_bind; [|intros ?] ].

Lemma propagates_reconcile_loop job_exes :
  ∀ task_ids, propagates (reconcile_loop env job_exes task_ids).
Proof.
  induction job_exes as [|job_exe rest IH]; intros task_ids; cbn [reconcile_loop].
  - apply propagates_ret.
  - unfold job_exe_manager_get_job_exe.
    apply propagates_bind; [propagation|]. intros [exe|].
    + apply propagates_bind; [|intros ?; apply IH].
      destruct (RunningJobExecution.current_task exe); apply propagates_ret.
    + apply propagates_bind; [propagation|]. intros ?. apply IH.
Qed.

Lemma propagates_reconcile_running_jobs : propagates (_reconcile_running_jobs env).
Proof.
  unfold _reconcile_running_jobs, recon_thread_add_task_ids.
  apply propagates_bind; [propagation|]. intros job_exes.
  apply propagates_bind; [apply propagates_reconcile_loop|]. intros task_ids.
  propagation.
Qed.

Lemma propagates_registered driver frameworkId masterInfo :
  propagates (registered env driver frameworkId masterInfo).
Proof.
  unfold registered, logger, start_thread.
  repeat first
    [ apply propagates_reconcile_running_jobs
    | apply propagates_bind; [propagation|intros ?] ].
Qed.

Lemma propagates_reregistered driver masterInfo :
  propagates (reregistered env driver masterInfo).
Proof.
  unfold reregistered, logger.
  repeat first
    [ apply propagates_reconcile_running_jobs
    | apply propagates_bind; [propagation|intros ?] ].
Qed.

(** ** What [slaveLost] catches *)

Lemma lost_step_history started exe th w :
  ∃ post,
    history (lost_step started exe th w) =
      (history w ++ EvExecutionLost (RunningJobExecution.id exe) started :: post)%list ∧
    (Transition.raised (execution_lost env (length (trace w)) exe started) = Some DatabaseError →
     ∃ post', post = lost_error_logged exe :: post').
Proof.
  unfold lost_step, history. cbn [trace set_job_exe_manager set_recon_thread set_trace].
  rewrite !rev_app_distr. cbn [rev]. rewrite <- !app_assoc. cbn [app].
  eexists. split; [reflexivity|]. intros Hdb.
  destruct (decide (_ = Some DatabaseError)); [|done]. cbn. by eexists.
Qed.

(** The loop of [slaveLost], call by call: when it returns, every
    execution of the list was told of the loss, and where that call raised
    a [DatabaseError] the next thing the loop did was to log it; when it
    raises, the last thing it did was a call of [execution_lost] that
    raised that exception, which is not a [DatabaseError]. *)
Lemma slaveLost_loop_caught started l : ∀ w th r w',
  _recon_thread w = Some th →
  for_each l (slaveLost_body started) w = (r, w') →
  ∃ new,
    history w' = (history w ++ new)%list ∧
    match r with
    | Normal _ =>
        ∀ exe, exe ∈ l →
          ∃ pre post,
            new = (pre ++ EvExecutionLost (RunningJobExecution.id exe) started :: post)%list ∧
            let tr := execution_lost env (length (history w ++ pre)) exe started in
            (Transition.raised tr = None ∨
             Transition.raised tr = Some DatabaseError ∧
             ∃ post', post = lost_error_logged exe :: post')
    | Raise e =>
        e ≠ DatabaseError ∧
        ∃ pre exe,
          exe ∈ l ∧
          new = (pre ++ [EvExecutionLost (RunningJobExecution.id exe) started])%list ∧
          Transition.raised (execution_lost env (length (history w ++ pre)) exe started)
            = Some e
    end.
Proof.
  induction l as [|exe l IH]; intros w th r w' Hth Hrun.
  - cbn in Hrun. injection Hrun as <- <-. exists []. split; [by rewrite app_nil_r|].
    intros exe Hexe. by apply elem_of_nil in Hexe.
  - cbn [for_each] in Hrun. rewrite bind_run in Hrun.
    assert (Hn : length (history w ++ []) = length (trace w)).
    { unfold history. by rewrite app_nil_r, length_rev. }
    destruct (Transition.raised (execution_lost env (length (trace w)) exe started))
      as [e|] eqn:Hr; [destruct (decide (e = DatabaseError)) as [->|Hne]|].
    2: { rewrite (slaveLost_body_crashes started exe w e Hr Hne) in Hrun.
         injection Hrun as <- <-.
         exists [EvExecutionLost (RunningJobExecution.id exe) started]. split; [done|].
         split; [done|]. exists [], exe. rewrite Hn. split_and!; [by left|done|done]. }
    all: rewrite (slaveLost_body_returns started exe th w Hth) in Hrun by auto.
    all: destruct (lost_step_recon_thread started exe th w) as (th1 & Hth1 & _).
    all: destruct (lost_step_history started exe th w) as (post1 & Hh1 & Hlog).
    all: destruct (IH _ th1 r w' Hth1 Hrun) as (new & Hnew & Hrest).
    all: exists (EvExecutionLost (RunningJobExecution.id exe) started :: post1 ++ new)%list.
    all: (split; [rewrite Hnew, Hh1, <- app_assoc; reflexivity|]).
    all: assert (Hshift : ∀ pre,
           (history (lost_step started exe th w) ++ pre)%list =
           (history w ++ (EvExecutionLost (RunningJobExecution.id exe) started :: post1)
              ++ pre)%list)
         by (intros pre; by rewrite Hh1, <- app_assoc).
    all: destruct r as [[]|e'].
    2,4: destruct Hrest as (Hne' & pre & x & Hx & -> & Hraised);
         (split; [done|]);
         exists (EvExecutionLost (RunningJobExecution.id exe) started :: post1 ++ pre)%list, x;
         split_and!;
         [by right|cbn [app]; by rewrite app_assoc|rewrite Hshift in Hraised; exact Hraised].
    all: intros x Hx; apply elem_of_cons in Hx as [->|Hx].
    2,4: destruct (Hrest x Hx) as (pre & post & -> & Hout);
         exists (EvExecutionLost (RunningJobExecution.id exe) started :: post1 ++ pre)%list,
                post;
         (split; [cbn [app]; by rewrite app_assoc|]);
         cbv zeta in Hout; rewrite Hshift in Hout; exact Hout.
    all: exists [], (post1 ++ new)%list; (split; [done|]); cbv zeta; rewrite Hn, Hr.
    + right. split; [done|]. destruct (Hlog Hr) as [post' ->]. by eexists.
    + by left.
Qed.

(** The executions the manager lists for the node of the agent. *)
Definition job_exes_of_agent (agent_id : string) (w : World) : list RunningJobExecution.t :=
  match NodeManager.get_node agent_id (_node_manager w) with
  | Some node =>
      RunningJobExecutionManager.get_job_exes_on_node (Node.id node) (_job_exe_manager w)
  | None => []
  end.

Lemma slaveLost_caught driver agent_id th w r w' :
  _recon_thread w = Some th →
  slaveLost env driver agent_id w = (r, w') →
  let started := now_at env (length (trace w)) in
  ∃ new,
    history w' = (history w ++ new)%list ∧
    match r with
    | Normal _ =>
        ∀ exe, exe ∈ job_exes_of_agent agent_id w →
          ∃ pre post,
            new = (pre ++ EvExecutionLost (RunningJobExecution.id exe) started :: post)%list ∧
            let tr := execution_lost env (length (history w ++ pre)) exe started in
            (Transition.raised tr = None ∨
             Transition.raised tr = Some DatabaseError ∧
             ∃ post', post = lost_error_logged exe :: post')
    | Raise e =>
        e ≠ DatabaseError ∧
        ∃ pre exe,
          exe ∈ job_exes_of_agent agent_id w ∧
          new = (pre ++ [EvExecutionLost (RunningJobExecution.id exe) started])%list ∧
          Transition.raised (execution_lost env (length (history w ++ pre)) exe started)
            = Some e
    end.
Proof.
  intros Hth Hrun started. unfold job_exes_of_agent.
  rewrite slaveLost_run in Hrun. cbv zeta in Hrun. fold started in Hrun.
  rewrite bind_run in Hrun.
  set (w0 := managers_told agent_id w) in *.
  destruct (NodeManager.get_node agent_id (_node_manager w)) as [node|] eqn:Hnode.
  - rewrite bind_run in Hrun.
    set (l := RunningJobExecutionManager.get_job_exes_on_node (Node.id node)
                (_job_exe_manager w)).
    set (w0' := set_trace (EvGetJobExesOnNode (Node.id node) :: trace w0) w0).
    change (job_exe_manager_get_job_exes_on_node (Node.id node) w0)
      with (Normal l, w0') in Hrun.
    cbv beta iota in Hrun.
    set (told := [EvNow; EvGetNode agent_id; node_lost_logged agent_id (Some node);
                  EvNodeLost agent_id; EvOfferLost agent_id;
                  EvGetJobExesOnNode (Node.id node)]).
    assert (Hh0 : history w0' = (history w ++ told)%list).
    { unfold history, w0', w0, managers_told. cbn. rewrite Hnode. by rewrite <- !app_assoc. }
    destruct (for_each l (slaveLost_body started) w0') as [r1 w1] eqn:Hloop.
    apply (slaveLost_loop_caught started l w0' th) in Hloop as (new & Hnew & Hr); [|done].
    rewrite Hh0 in Hnew, Hr.
    assert (Hshift : ∀ pre, ((history w ++ told) ++ pre)%list = (history w ++ told ++ pre)%list)
      by (intros; by rewrite <- app_assoc).
    destruct r1 as [[]|e].
    + rewrite log_duration_eq in Hrun. injection Hrun as <- <-.
      eexists (told ++ new ++ [_; _])%list. split.
      * unfold history at 1. cbn [trace set_trace rev]. fold (history w1).
        rewrite Hnew, <- !app_assoc. reflexivity.
      * intros exe Hexe. destruct (Hr exe Hexe) as (pre & post & -> & Hout).
        eexists (told ++ pre)%list, (post ++ [_; _])%list. split.
        -- rewrite <- !app_assoc. reflexivity.
        -- cbv zeta in Hout |- *. rewrite Hshift in Hout.
           destruct Hout as [Hout|[Hout [post' ->]]]; [by left|right].
           split; [done|]. by eexists.
    + injection Hrun as <- <-.
      destruct Hr as (Hne & pre & exe & Hexe & -> & Hraised).
      exists (told ++ pre ++ [EvExecutionLost (RunningJobExecution.id exe) started])%list.
      split; [by rewrite Hnew, <- app_assoc|]. split; [done|].
      exists (told ++ pre)%list, exe. rewrite <- Hshift, <- app_assoc. done.
  - change (ret tt w0) with (Normal tt, w0) in Hrun. cbv beta iota in Hrun.
    rewrite log_duration_eq in Hrun. injection Hrun as <- <-.
    eexists. split.
    + unfold history, w0, managers_told. cbn. rewrite <- !app_assoc. reflexivity.
    + intros exe Hexe. by apply elem_of_nil in Hexe.
Qed.


(** ** What [statusUpdate] catches *)

Lemma statusUpdate_caught driver status th w :
  _recon_thread w = Some th →
  let task_id := TaskStatus.task_id status in
  let w1 :=
    set_recon_thread (Some (ReconciliationThread.remove_task_id task_id th))
      (set_trace (EvReconRemove task_id :: status_update_logged status :: EvNow :: trace w)
         w) in
  ∃ w',
    statusUpdate env driver status w = (Normal tt, w') ∧
    ∀ e w2,
      statusUpdate_try env status w1 = (Raise e, w2) →
      task_id ∈ recon_set w' ∧
      ∃ post,
        history w' =
          (history w2 ++ status_update_error_logged status :: EvReconAdd [task_id]
             :: post)%list.
Proof.
  intros Hth task_id w1. unfold statusUpdate.
  rewrite bind_run, (statusUpdate_entry_run status th w Hth). fold task_id w1.
  rewrite bind_run. unfold try_except.
  pose proof (preserves_statusUpdate_try env dispatching status w1) as Hd.
  destruct (statusUpdate_try env status w1) as [[[]|e] w2]; cbn [snd] in Hd.
  - rewrite log_duration_eq. eexists. split; [reflexivity|]. by intros e w2' [=].
  - destruct (dispatching_is_Some_recon_thread _ _ Hd) as [th2 Hth2]; [by eexists|].
    rewrite (statusUpdate_except_run status th2 w2 Hth2), log_duration_eq.
    eexists. split; [reflexivity|]. intros e' w2' [= <- <-]. split.
    + change (task_id ∈ ReconciliationThread.task_ids th2 ∪ list_to_set [task_id]).
      apply elem_of_union. right. apply elem_of_list_to_set, list_elem_of_singleton. done.
    + eexists. unfold history. cbn. rewrite <- !app_assoc. reflexivity.
Qed.

(** ** Callbacks that cannot raise *)

(** Calls that stay inside the scheduler: the clock, the logger and the
    in-memory node and offer managers. *)
Definition is_in_memory_call (ev : Event) : bool :=
  match ev with
  | EvNow | EvLog _ _ _ | EvGetNode _ | EvAddAgentIds _ | EvAddNewOffers _
  | EvRemoveOffers _ => true
  | _ => false
  end.

(** [m] returns normally from [w], having made in-memory calls only. *)
Definition returns_in_memory (m : M World unit) (w : World) : Prop :=
  ∃ w' new,
    m w = (Normal tt, w') ∧
    history w' = (history w ++ new)%list ∧
    Forall (λ ev, is_in_memory_call ev = true) new.

Lemma informational_callbacks_return driver w :
  returns_in_memory (disconnected driver) w ∧
  (∀ offers, returns_in_memory (resourceOffers env driver offers) w) ∧
  (∀ offerId, returns_in_memory (offerRescinded env driver offerId) w) ∧
  (∀ executorId slaveId message,
     returns_in_memory (frameworkMessage env driver executorId slaveId message) w) ∧
  (∀ executorId slaveId status,
     returns_in_memory (executorLost env driver executorId slaveId status) w) ∧
  (∀ message, returns_in_memory (error driver message) w).
Proof.
  unfold returns_in_memory, disconnected, resourceOffers, offerRescinded, frameworkMessage,
    executorLost, error.
  destruct w as [? ? ? hostname ? ? nodes ? ? ? ? ? tr]. split_and!; intros; run.
  - destruct hostname as [h|]; [destruct (decide (h ≠ ""))|]; cbn;
      (eexists _, [_]; split_and!; [reflexivity|reflexivity|repeat constructor]).
  - rewrite log_duration_eq.
    eexists _, [_; _; _; _; _]; split_and!;
      [reflexivity|cbn; by rewrite <- !app_assoc|repeat constructor].
  - rewrite log_duration_eq.
    eexists _, [_; _; _; _]; split_and!;
      [reflexivity|cbn; by rewrite <- !app_assoc|repeat constructor].
  - destruct (NodeManager.get_node slaveId nodes); rewrite log_duration_eq;
      (eexists _, [_; _; _; _; _]; split_and!;
        [reflexivity|cbn; by rewrite <- !app_assoc|repeat constructor]).
  - destruct (NodeManager.get_node slaveId nodes); rewrite log_duration_eq;
      (eexists _, [_; _; _; _; _]; split_and!;
        [reflexivity|cbn; by rewrite <- !app_assoc|repeat constructor]).
  - eexists _, [_]; split_and!; [reflexivity|reflexivity|repeat constructor].
Qed.

(** What the agent raised during the guarded log pull started after [n]
    calls, if one of its three calls raised. *)
Definition pull_failure (n : nat) (hostname : string) (port : Z) (task_id : string)
  : option Exception :=
  match get_slave_task_directory env (1 + n) hostname port task_id with
  | Raise e => Some e
  | Normal task_dir =>
      match get_slave_task_file env (2 + n) hostname port task_dir "stdout" with
      | Raise e => Some e
      | Normal _ =>
          exception_of (get_slave_task_file env (3 + n) hostname port task_dir "stderr")
      end
  end.

Lemma log_pull_failure_logged n hostname port task_id results e :
  pull_failure n hostname port task_id = Some e →
  last (log_pull n hostname port task_id results).2 = Some (pull_error_logged task_id).
Proof.
  unfold pull_failure, log_pull.
  destruct (get_slave_task_directory env _ _ _ _) as [task_dir|?]; [|done].
  destruct (get_slave_task_file env _ _ _ _ "stdout") as [out|?]; [|done].
  by destruct (get_slave_task_file env _ _ _ _ "stderr") as [err|?].
Qed.

(** [statusUpdate] for a status other than LOST of an execution the
    manager knows: after the entry and the lookup come the calls of the
    guarded log pull. *)
Lemma statusUpdate_pulls_logs driver status th exe w :
  _recon_thread w = Some th →
  TaskStatus.state status ≠ TASK_LOST →
  _job_exe_manager w !! get_job_exe_id env (TaskStatus.task_id status) = Some exe →
  let task_id := TaskStatus.task_id status in
  let pull :=
    log_pull (4 + length (trace w)) (RunningJobExecution._node_hostname exe)
      (RunningJobExecution._node_port exe) task_id (parsed_results status) in
  ∃ w' post,
    statusUpdate env driver status w = (Normal tt, w') ∧
    history w' =
      (history w ++
       [EvNow; status_update_logged status; EvReconRemove task_id;
        EvGetJobExe (get_job_exe_id env task_id)] ++ pull.2 ++ post)%list.
Proof.
  intros Hth Hstate Hget. cbv zeta.
  unfold statusUpdate, statusUpdate_entry, statusUpdate_try, statusUpdate_except,
    status_update_logged, parsed_results.
  destruct w as [? ? ? ? ? m ? ? ? ? ? ? trace0]. run.
  unfold RunningJobExecutionManager.get_job_exe, RunningJobExecutionManager.remove_job_exe.
  cbn in Hth, Hget. rewrite Hth, Hget.
  destruct (decide (TaskStatus.state status ≠ TASK_LOST)) as [_|?]; [|done].
  rewrite pull_logs_run. cbn.
  match goal with
  | |- context [apply_status_update ?c ?s ?t ?r (?x, ?W)] =>
      destruct (apply_status_update c s t r (x, W)) as [r1 [exe1 w1]] eqn:Happly
  end.
  apply apply_status_update_spec in Happly as (Hrecon & [new Hnew] & _).
  destruct w1 as [? ? ? ? ? m1 ? ? ? rt1 ? ? trace1].
  cbn in Hrecon, Hnew. subst rt1 trace1.
  destruct r1 as [[]|e]; cbn;
    [destruct (RunningJobExecution.is_finished exe1); cbn|];
    rewrite log_duration_eq; eexists _, _; (split; [reflexivity|]); cbn;
    rewrite ?rev_app_distr, ?rev_involutive; cbn; rewrite <- ?app_assoc; cbn;
    repeat f_equal.
Qed.

(** [slaveLost] cannot return when an execution on the node of the agent
    answers [execution_lost] with something else than a [DatabaseError]. *)
Lemma slaveLost_propagates driver agent_id th exe e w :
  _recon_thread w = Some th →
  exe ∈ job_exes_of_agent agent_id w →
  e ≠ DatabaseError →
  (∀ n started, Transition.raised (execution_lost env n exe started) = Some e) →
  ∃ e' w', slaveLost env driver agent_id w = (Raise e', w') ∧ e' ≠ DatabaseError.
Proof.
  intros Hth Hexe Hne Hraises.
  destruct (slaveLost env driver agent_id w) as [[[]|e'] w'] eqn:Hrun.
  - destruct (slaveLost_caught driver agent_id th w _ w' Hth Hrun) as (new & _ & Hall).
    destruct (Hall exe Hexe) as (pre & post & _ & Hout). cbv zeta in Hout.
    rewrite Hraises in Hout. destruct Hout as [?|[[= ->] _]]; done.
  - destruct (slaveLost_caught driver agent_id th w _ w' Hth Hrun) as (new & _ & He' & _).
    by exists e', w'.
Qed.

(** C2, as amended.  Which callbacks contain the exceptions of their
    collaborators.
    Once the reconciliation thread exists, [statusUpdate] returns normally
    whatever its collaborators do: an exception that leaves the body of
    its [try] is caught by the handler, which logs it at the EXCEPTION
    level and then adds the task id to the reconciliation set, where it is
    when the callback returns; inside the body, for a status other than
    LOST of an execution the manager knows, the calls of the guarded log
    pull follow the lookup, and when the agent raised during the pull the
    last of them is the error logged at the EXCEPTION level.
    [slaveLost] catches the [DatabaseError]s of [execution_lost] and
    nothing else.  When it returns, [execution_lost] was called on every
    execution the manager lists for the node of the agent, each call
    returned or raised a [DatabaseError], and after such a call the next
    thing [slaveLost] did was to log the failure at the EXCEPTION level.
    When it raises, the last thing it did was a call to [execution_lost]
    that raised that exception, which is not a [DatabaseError].  So it
    returns whenever [execution_lost] raises nothing but [DatabaseError],
    and it raises whenever an execution on the node answers with
    something else.
    [disconnected], [resourceOffers], [offerRescinded],
    [frameworkMessage], [executorLost] and [error] return normally in
    every world, and call nothing but the clock, the logger and the
    in-memory node and offer managers.
    [registered] and [reregistered] contain no handler, in any world: a
    call to the backing store (to persist the master, initialise the
    system, synchronise a manager, list the running executions or report
    a failure) that raises is the last call they make, and what it raised
    is raised to their caller. *)
Theorem callbacks_contain_exceptions driver w :
  (∀ th,
     _recon_thread w = Some th →
     (∀ status,
        let task_id := TaskStatus.task_id status in
        let w1 :=
          set_recon_thread (Some (ReconciliationThread.remove_task_id task_id th))
            (set_trace
               (EvReconRemove task_id :: status_update_logged status :: EvNow :: trace w)
               w) in
        ∃ w',
          statusUpdate env driver status w = (Normal tt, w') ∧
          ∀ e w2,
            statusUpdate_try env status w1 = (Raise e, w2) →
            task_id ∈ recon_set w' ∧
            ∃ post,
              history w' =
                (history w2 ++ status_update_error_logged status
                   :: EvReconAdd [task_id] :: post)%list) ∧
     (∀ status exe,
        TaskStatus.state status ≠ TASK_LOST →
        _job_exe_manager w !! get_job_exe_id env (TaskStatus.task_id status) = Some exe →
        let task_id := TaskStatus.task_id status in
        let hostname := RunningJobExecution._node_hostname exe in
        let port := RunningJobExecution._node_port exe in
        let pull :=
          log_pull (4 + length (trace w)) hostname port task_id (parsed_results status) in
        (∃ w' post,
           statusUpdate env driver status w = (Normal tt, w') ∧
           history w' =
             (history w ++
              [EvNow; status_update_logged status; EvReconRemove task_id;
               EvGetJobExe (get_job_exe_id env task_id)] ++ pull.2 ++ post)%list) ∧
        ∀ e, pull_failure (4 + length (trace w)) hostname port task_id = Some e →
             last pull.2 = Some (pull_error_logged task_id)) ∧
     (∀ agent_id r w',
        slaveLost env driver agent_id w = (r, w') →
        let started := now_at env (length (trace w)) in
        ∃ new,
          history w' = (history w ++ new)%list ∧
          match r with
          | Normal _ =>
              ∀ exe, exe ∈ job_exes_of_agent agent_id w →
                ∃ pre post,
                  new = (pre ++ EvExecutionLost (RunningJobExecution.id exe) started
                           :: post)%list ∧
                  let tr := execution_lost env (length (history w ++ pre)) exe started in
                  (Transition.raised tr = None ∨
                   Transition.raised tr = Some DatabaseError ∧
                   ∃ post', post = lost_error_logged exe :: post')
          | Raise e =>
              e ≠ DatabaseError ∧
              ∃ pre exe,
                exe ∈ job_exes_of_agent agent_id w ∧
                new = (pre ++ [EvExecutionLost (RunningJobExecution.id exe) started])%list ∧
                Transition.raised
                  (execution_lost env (length (history w ++ pre)) exe started) = Some e
          end) ∧
     (∀ agent_id,
        (∀ n exe started,
           Transition.raised (execution_lost env n exe started) = None ∨
           Transition.raised (execution_lost env n exe started) = Some DatabaseError) →
        ∃ w', slaveLost env driver agent_id w = (Normal tt, w')) ∧
     (∀ agent_id exe e,
        exe ∈ job_exes_of_agent agent_id w →
        e ≠ DatabaseError →
        (∀ n started, Transition.raised (execution_lost env n exe started) = Some e) →
        ∃ e' w', slaveLost env driver agent_id w = (Raise e', w') ∧ e' ≠ DatabaseError)) ∧
  returns_in_memory (disconnected driver) w ∧
  (∀ offers, returns_in_memory (resourceOffers env driver offers) w) ∧
  (∀ offerId, returns_in_memory (offerRescinded env driver offerId) w) ∧
  (∀ executorId slaveId message,
     returns_in_memory (frameworkMessage env driver executorId slaveId message) w) ∧
  (∀ executorId slaveId status,
     returns_in_memory (executorLost env driver executorId slaveId status) w) ∧
  (∀ message, returns_in_memory (error driver message) w) ∧
  (∀ frameworkId masterInfo,
     propagates (registered env driver frameworkId masterInfo) ∧
     propagates (reregistered env driver masterInfo) ∧
     ∀ e,
       update_master env (length (trace w)) (MasterInfo.hostname masterInfo)
         (MasterInfo.port masterInfo) = Raise e →
       (registered env driver frameworkId masterInfo w).1 = Raise e ∧
       (reregistered env driver masterInfo w).1 = Raise e).
Proof.
  split; [|split].
  - intros th Hth. split_and!.
    + intros status. by apply statusUpdate_caught.
    + intros status exe Hstate Hget task_id hostname port pull. split.
      * by apply (statusUpdate_pulls_logs driver status th).
      * intros e. apply log_pull_failure_logged.
    + intros agent_id r w' Hrun. by apply (slaveLost_caught driver agent_id th).
    + intros agent_id Hok. by apply (slaveLost_returns driver agent_id th).
    + intros agent_id exe e. by apply (slaveLost_propagates driver agent_id th).
  - apply informational_callbacks_return.
  - split_and!; try apply informational_callbacks_return.
    intros frameworkId masterInfo. split_and!.
    + apply propagates_registered.
    + apply propagates_reregistered.
    + intros e He. split.
      * by apply registered_propagates.
      * by apply reregistered_propagates.
Qed.


End Claims.

(** * The dispatcher as a whole

    Registration and the reconcile pass, the offers, the informational
    callbacks and shutdown; what every callback leaves alone, and what
    holds of the scheduler after any sequence of callbacks. *)
Section Callbacks.

Variable env : Collaborators.

(** ** Offers *)

(** The scalar of the last resource of an offer called [name], 0 when the
    offer has no resource of that name. *)
Definition last_scalar (name : string) (resources : list Resource.t) : Z :=
  default 0 (last (Resource.scalar <$> filter (λ r, Resource.name r = name) resources)).

Lemma default_last_cons {A} (d x : A) (l : list A) :
  default d (last (x :: l)) = default x (last l).
Proof. rewrite last_cons. by destruct (last l). Qed.

Lemma foldl_read_resource resources : ∀ disk mem cpus,
  let scalars name := Resource.scalar <$> filter (λ r, Resource.name r = name) resources in
  foldl read_resource (disk, mem, cpus) resources =
  (default disk (last (scalars "disk")), default mem (last (scalars "mem")),
   default cpus (last (scalars "cpus"))).
Proof.
  induction resources as [|r rest IH]; intros disk mem cpus; [done|].
  cbn [foldl]. unfold read_resource at 2.
  rewrite !filter_cons.
  repeat case_decide; try congruence; rewrite IH; cbn [fmap list_fmap];
    rewrite ?default_last_cons; reflexivity.
Qed.

(** X1. The [ResourceOffer] built from a Mesos offer (lines 182-196) has
    the id and the agent id of the offer; its cpus, mem and disk are the
    scalars of the last resource of the offer called cpus, mem and disk:
    a later resource of the same name overrides an earlier one, a name that
    does not occur gives 0 (so an offer without resources gives 0, 0, 0),
    and resources of any other name are ignored. *)
Theorem project_offer_reads_last_scalars offer :
  project_offer offer =
  ResourceOffer.mk (Offer.id offer) (Offer.slave_id offer)
    (NodeResources.mk (last_scalar "cpus" (Offer.resources offer))
       (last_scalar "mem" (Offer.resources offer))
       (last_scalar "disk" (Offer.resources offer))).
Proof.
  unfold project_offer, last_scalar.
  by rewrite foldl_read_resource.
Qed.

(** [w'] is [w] with other managers of agents and more calls recorded. *)
Definition agents_updated (w w' : World) : Prop :=
  w' = set_offer_manager (_offer_manager w')
         (set_node_manager (_node_manager w') (set_trace (trace w') w)).

(** X2. [resourceOffers] returns normally in every world, registered or
    not, and for every list of offers, the empty one included.  Between
    its two clock readings it makes two calls: the node manager is given
    the agent id of every offer, in the order received and with
    repetitions, and then the offer manager is given one [ResourceOffer]
    per offer, in the same order.  Nothing but the two managers and the
    record of calls changes. *)
Theorem resourceOffers_hands_offers_to_managers driver offers w :
  let agent_ids := Offer.slave_id <$> offers in
  let resource_offers := project_offer <$> offers in
  ∃ w',
    resourceOffers env driver offers w = (Normal tt, w') ∧
    history w' =
      (history w ++
       [EvNow; EvAddAgentIds agent_ids; EvAddNewOffers resource_offers; EvNow;
        duration_logged "Scheduler resourceOffers() took %.3f seconds" NORMAL_WARN_THRESHOLD
          (now_at env (length (trace w))) (now_at env (3 + length (trace w)))])%list ∧
    _node_manager w' = NodeManager.add_agent_ids agent_ids (_node_manager w) ∧
    _offer_manager w' = OfferManager.add_new_offers resource_offers (_offer_manager w) ∧
    agents_updated w w' ∧
    length agent_ids = length offers ∧
    length resource_offers = length offers ∧
    ∀ i offer, offers !! i = Some offer →
      agent_ids !! i = Some (Offer.slave_id offer) ∧
      ResourceOffer.id <$> resource_offers !! i = Some (Offer.id offer) ∧
      ResourceOffer.agent_id <$> resource_offers !! i = Some (Offer.slave_id offer).
Proof.
  intros agent_ids resource_offers.
  unfold resourceOffers. destruct w. run. rewrite log_duration_eq.
  eexists. split_and!; try reflexivity.
  - unfold history. cbn. by rewrite <- !app_assoc.
  - apply length_fmap.
  - apply length_fmap.
  - intros i offer Hi. subst agent_ids resource_offers.
    rewrite !list_lookup_fmap, Hi. cbn. unfold project_offer.
    by destruct (foldl _ _ _) as [[? ?] ?].
Qed.

(** X3. [offerRescinded] returns normally in every world and for every
    offer id, known to the offer manager or not: between its two clock
    readings it asks the offer manager once to remove that single offer id.
    Nothing but the offer manager and the record of calls changes. *)
Theorem offerRescinded_removes_one_offer driver offerId w :
  ∃ w',
    offerRescinded env driver offerId w = (Normal tt, w') ∧
    history w' =
      (history w ++
       [EvNow; EvRemoveOffers [offerId]; EvNow;
        duration_logged "Scheduler offerRescinded() took %.3f seconds" NORMAL_WARN_THRESHOLD
          (now_at env (length (trace w))) (now_at env (2 + length (trace w)))])%list ∧
    _offer_manager w' = OfferManager.remove_offers [offerId] (_offer_manager w) ∧
    w' = set_offer_manager (_offer_manager w') (set_trace (trace w') w).
Proof.
  unfold offerRescinded. destruct w. run. rewrite log_duration_eq.
  eexists. split_and!; try reflexivity.
  unfold history. cbn. by rewrite <- !app_assoc.
Qed.

(** ** Informational callbacks *)

(** Calls that read the clock, write to the log or look a node up. *)
Definition is_observation (ev : Event) : bool :=
  match ev with
  | EvNow | EvLog _ _ _ | EvGetNode _ => true
  | _ => false
  end.

(** [m] returns normally from [w] and does nothing but observe. *)
Definition only_observes (m : M World unit) (w : World) : Prop :=
  ∃ new, m w = (Normal tt, set_trace (new ++ trace w)%list w) ∧
         Forall (λ ev, is_observation ev = true) new.

(** X4. [disconnected], [frameworkMessage], [executorLost] and [error]
    return normally in every world, registered or not, and change no
    attribute of the scheduler: all they do is read the clock, look the
    node of the agent up and write to the log. *)
Theorem informational_callbacks_change_nothing driver executorId slaveId message status w :
  only_observes (disconnected driver) w ∧
  only_observes (frameworkMessage env driver executorId slaveId message) w ∧
  only_observes (executorLost env driver executorId slaveId status) w ∧
  only_observes (error driver message) w.
Proof.
  unfold only_observes, disconnected, frameworkMessage, executorLost, error.
  destruct w as [? ? ? hostname ? ? nodes ? ? ? ? ? tr]. run.
  split_and!.
  - destruct hostname as [h|]; [destruct (decide (h ≠ ""))|]; cbn;
      (eexists [_]; split; [reflexivity|repeat constructor]).
  - destruct (NodeManager.get_node slaveId nodes); rewrite log_duration_eq;
      (eexists [_; _; _; _; _]; split; [reflexivity|repeat constructor]).
  - destruct (NodeManager.get_node slaveId nodes); rewrite log_duration_eq;
      (eexists [_; _; _; _; _]; split; [reflexivity|repeat constructor]).
  - eexists [_]; split; [reflexivity|repeat constructor].
Qed.

(** ** The reconcile pass *)

(** The executions reported as failed among the calls [events], with the
    error given. *)
Definition failure_reports (events : list Event) : list (Z * Error) :=
  omap (λ ev, match ev with
              | EvHandleJobFailure job_exe_id _ error => Some (job_exe_id, error)
              | _ => None
              end) events.

(** The executions the backing store believes running and the manager does
    not know, in the order of the backing store. *)
Definition lost_job_exes (m : gmap Z RunningJobExecution.t)
    (job_exes : list JobExecution.t) : list Z :=
  filter (λ i, m !! i = None) (JobExecution.id <$> job_exes).

Definition scheduler_lost (job_exe_id : Z) : Z * Error :=
  (job_exe_id, get_builtin_error "scheduler-lost").

Lemma failure_reports_app l1 l2 :
  failure_reports (l1 ++ l2) = (failure_reports l1 ++ failure_reports l2)%list.
Proof. apply omap_app. Qed.

Lemma reconcile_loop_reports job_exes : ∀ task_ids w r w',
  reconcile_loop env job_exes task_ids w = (r, w') →
  ∃ new,
    history w' = (history w ++ new)%list ∧
    failure_reports new `prefix_of` scheduler_lost <$> lost_job_exes (_job_exe_manager w) job_exes ∧
    (∀ ids, r = Normal ids →
       failure_reports new = scheduler_lost <$> lost_job_exes (_job_exe_manager w) job_exes).
Proof.
  induction job_exes as [|job_exe rest IH]; intros task_ids w r w' Hrun.
  - cbn in Hrun. injection Hrun as <- <-. exists []. by rewrite app_nil_r.
  - cbn [reconcile_loop] in Hrun. rewrite !bind_run in Hrun.
    unfold lost_job_exes. cbn [fmap list_fmap]. rewrite filter_cons.
    destruct w as [? ? ? ? ? m ? ? ? ? ? ? trace0]. revert Hrun. run.
    unfold RunningJobExecutionManager.get_job_exe.
    destruct (m !! JobExecution.id job_exe) as [exe|] eqn:Hget; cbn.
    + assert (∀ ids W, reconcile_loop env rest ids
                (set_trace (EvGetJobExe (JobExecution.id job_exe) :: trace0) W) = (r, w') →
              _job_exe_manager W = m → trace W = trace0 →
              ∃ new, rev (trace w') = (rev trace0 ++ new)%list ∧
                failure_reports new `prefix_of` scheduler_lost <$> lost_job_exes m rest ∧
                (∀ ids, r = Normal ids →
                   failure_reports new = scheduler_lost <$> lost_job_exes m rest)) as Hstep.
      { intros ids W Hrun Hm Htr. apply IH in Hrun as (new & Hh & Hpre & Heq).
        run. cbn in Hh, Hpre, Heq. rewrite Hm in Hpre, Heq.
        exists (EvGetJobExe (JobExecution.id job_exe) :: new). split_and!.
        - rewrite Hh, <- app_assoc. done.
        - done.
        - done. }
      rewrite decide_False by done.
      destruct (RunningJobExecution.current_task exe) as [task|]; cbn; intros Hrun;
        eapply (Hstep _ (mkWorld _ _ _ _ _ _ _ _ _ _ _ _ _)) in Hrun; done.
    + rewrite decide_True by done. cbn [fmap list_fmap].
      destruct (handle_job_failure env _ _ _ _) as [[]|e]; cbn; intros Hrun.
      * apply IH in Hrun as (new & Hh & Hpre & Heq).
        unfold history in Hh. cbn in Hh, Hpre, Heq.
        eexists (_ :: _ :: _ :: new). split_and!.
        -- unfold history. cbn. rewrite Hh, <- ?app_assoc. reflexivity.
        -- cbn. by apply prefix_cons.
        -- intros ids Hr. cbn. f_equal. by eapply Heq.
      * injection Hrun as <- <-. eexists [_; _; _]. split_and!.
        -- unfold history. cbn. rewrite <- !app_assoc. reflexivity.
        -- cbn. apply prefix_cons, prefix_nil.
        -- done.
Qed.

(** X5. The reconcile pass fails the executions the scheduler has lost:
    after asking the backing store for the running executions, it reports
    to the queue, with the built-in error scheduler-lost, exactly the
    executions of that list the manager does not know, each once and in
    the order of the list, and no execution the manager knows.  A report
    that raises ends the pass: the executions before it have been reported,
    the ones after it have not. *)
Theorem reconcile_pass_reports_lost_executions w r w' :
  _reconcile_running_jobs env w = (r, w') →
  ∃ new,
    history w' = (history w ++ EvGetRunningJobExes :: new)%list ∧
    match get_running_job_exes env (length (trace w)) with
    | Raise e => r = Raise e ∧ new = []
    | Normal job_exes =>
        let lost := lost_job_exes (_job_exe_manager w) job_exes in
        failure_reports new `prefix_of` scheduler_lost <$> lost ∧
        (r = Normal tt → failure_reports new = scheduler_lost <$> lost)
    end.
Proof.
  unfold _reconcile_running_jobs. rewrite bind_run.
  destruct w as [? ? ? ? ? m ? ? ? rt ? ? trace0]. unfold call at 1. run. cbn.
  destruct (get_running_job_exes env (length trace0)) as [job_exes|e].
  - match goal with
    | |- context [reconcile_loop ?c ?l ?a ?W] =>
        destruct (reconcile_loop c l a W) as [r1 w1] eqn:Hloop
    end.
    pose proof (reconcile_loop_spec env _ _ _ _ _ Hloop) as (_ & Hrt & _).
    apply reconcile_loop_reports in Hloop as (new & Hh & Hpre & Heq).
    unfold history in Hh. cbn in Hh, Hpre, Heq, Hrt.
    destruct w1 as [? ? ? ? ? ? ? ? ? rt1 ? ? trace1]. cbn in Hh, Hrt. subst rt1.
    destruct r1 as [ids|e]; cbn.
    + destruct rt as [th|]; cbn; intros [= <- <-].
      * exists (new ++ [EvReconAdd ids])%list. split_and!.
        -- unfold history. cbn. rewrite Hh, <- ?app_assoc. reflexivity.
        -- rewrite failure_reports_app. cbn. by rewrite app_nil_r.
        -- intros _. rewrite failure_reports_app. cbn. rewrite app_nil_r. by eapply Heq.
      * exists new. split_and!; [|done|done].
        unfold history. cbn. rewrite Hh, <- ?app_assoc. reflexivity.
    + intros [= <- <-]. exists new. split_and!; [|done|done].
      unfold history. cbn. rewrite Hh, <- ?app_assoc. reflexivity.
  - intros [= <- <-]. exists []. split; [|done].
    unfold history. cbn. by rewrite <- ?app_assoc.
Qed.

Lemma reconcile_pass_calls w r w' :
  _reconcile_running_jobs env w = (r, w') →
  ∃ new, history w' = (history w ++ EvGetRunningJobExes :: new)%list.
Proof.
  unfold _reconcile_running_jobs. rewrite bind_run.
  destruct (call _ _ w) as [r1 w1] eqn:Hcall.
  assert (Hh1 : history w1 = (history w ++ [EvGetRunningJobExes])%list).
  { revert Hcall. destruct w. unfold call. run.
    destruct (get_running_job_exes _ _); by intros [= <- <-]. }
  destruct r1 as [job_exes|e]; [|intros [= <- <-]; by exists []].
  cbv beta iota. intros Hrun.
  assert (reconciling w1 w') as [_ _ _ _ _ _ _ _ _ _ _ _ [post Hpost]].
  { change w' with (r, w').2. rewrite <- Hrun. apply (preserves_bind reconciling).
    - apply preserves_reconcile_loop. apply _.
    - intros ids. apply preserves_recon_thread_add_task_ids; apply _. }
  exists (rev post). unfold history in *.
  rewrite Hpost, rev_app_distr, Hh1, <- app_assoc. done.
Qed.

Lemma reconcile_running_jobs_raises w e w' :
  _reconcile_running_jobs env w = (Raise e, w') →
  _recon_thread w' = _recon_thread w.
Proof.
  unfold _reconcile_running_jobs. rewrite !bind_run.
  destruct (call _ _ w) as [[job_exes|e1] w1] eqn:Hcall; cbv beta iota.
  - rewrite bind_run.
    assert (_recon_thread w1 = _recon_thread w) as Hrt1.
    { revert Hcall. destruct w. unfold call. run.
      destruct (get_running_job_exes _ _); by intros [= <- <-]. }
    destruct (reconcile_loop env job_exes [] w1) as [[ids|e2] w2] eqn:Hloop;
      cbv beta iota.
    + apply reconcile_loop_spec in Hloop as (_ & Hrt2 & _). rewrite Hrt1 in Hrt2.
      destruct w2 as [? ? ? ? ? ? ? ? ? rt2 ? ? ?]. cbn in Hrt2. run.
      destruct rt2; [done|]. by intros [= <- <-].
    + apply reconcile_loop_spec in Hloop as (_ & Hrt2 & _). rewrite Hrt1 in Hrt2.
      by intros [= <- <-].
  - revert Hcall. destruct w. unfold call. run.
    destruct (get_running_job_exes _ _); [done|]. by intros [= <- <-] [= <- <-].
Qed.

Lemma reconcile_running_jobs_needs_thread w w' :
  _reconcile_running_jobs env w = (Normal tt, w') → is_Some (_recon_thread w).
Proof.
  destruct (_recon_thread w) as [rt|] eqn:Hrt; [by eexists|].
  unfold _reconcile_running_jobs. rewrite !bind_run.
  destruct (call _ _ w) as [[job_exes|e] w1] eqn:Hcall; cbv beta iota; [|done].
  rewrite bind_run.
  assert (_recon_thread w1 = None) as Hrt1.
  { revert Hcall. destruct w. unfold call. run. cbn in Hrt. subst.
    destruct (get_running_job_exes _ _); by intros [= <- <-]. }
  destruct (reconcile_loop env job_exes [] w1) as [[ids|e] w2] eqn:Hloop;
    cbv beta iota; [|done].
  apply reconcile_loop_spec in Hloop as (_ & Hrt2 & _). rewrite Hrt1 in Hrt2.
  destruct w2. cbn in Hrt2. subst. run. done.
Qed.

(** X6. The reconcile pass queues all the task ids it collected or none:
    when it returns, the reconciliation set has grown by the current tasks
    of the executions the backing store believes running and the manager
    knows; when it raises (the list of running executions cannot be read, a
    failure report is refused, or there is no reconciliation thread yet),
    the reconciliation set is the one it started with.  In both cases the
    managers, the driver, the master and the loop objects are as they
    were. *)
Theorem reconcile_pass_queues_all_or_nothing w r w' :
  _reconcile_running_jobs env w = (r, w') →
  reconciling w w' ∧
  match r with
  | Normal _ =>
      ∃ job_exes,
        get_running_job_exes env (length (trace w)) = Normal job_exes ∧
        is_Some (_recon_thread w) ∧
        recon_set w' =
          recon_set w ∪ list_to_set (tasks_to_reconcile (_job_exe_manager w) job_exes)
  | Raise e => _recon_thread w' = _recon_thread w
  end.
Proof.
  intros Hrun. split.
  { pose proof (preserves_reconcile_running_jobs env reconciling w) as H.
    by rewrite Hrun in H. }
  destruct r as [[]|e].
  - destruct (reconcile_running_jobs_needs_thread w w' Hrun) as [rt Hrt].
    destruct (reconcile_running_jobs_spec env rt w w' Hrt Hrun)
      as (job_exes & new & Hlist & Htr & Hrt').
    exists job_exes. split_and!; [done|by eexists|].
    unfold recon_set. rewrite Hrt, Hrt'. done.
  - by eapply reconcile_running_jobs_raises.
Qed.

(** ** Registration *)

(** The message logged by [registered]. *)
Definition registered_logged (frameworkId : string) (masterInfo : MasterInfo.t) : Event :=
  EvLog INFO "Scale scheduler registered as framework %s with Mesos master at %s:%i"
    [LStr frameworkId; LStr (MasterInfo.hostname masterInfo);
     LInt (MasterInfo.port masterInfo)].

(** Lines 91-99 of [registered], started after [n] calls: the exception
    that ends them, if one of the four calls to the backing store raises,
    and the calls made, oldest first. *)
Definition startup (n : nat) (frameworkId : string) (masterInfo : MasterInfo.t)
  : option Exception * list Event :=
  let persisted :=
    EvUpdateMaster (MasterInfo.hostname masterInfo) (MasterInfo.port masterInfo) in
  let logged := registered_logged frameworkId masterInfo in
  match update_master env n (MasterInfo.hostname masterInfo) (MasterInfo.port masterInfo) with
  | Raise e => (Some e, [persisted])
  | Normal _ =>
      match initialize_system env (2 + n) with
      | Raise e => (Some e, [persisted; logged; EvInitializeSystem])
      | Normal _ =>
          match job_type_sync env (3 + n) with
          | Raise e => (Some e, [persisted; logged; EvInitializeSystem; EvJobTypeSync])
          | Normal _ =>
              match scheduler_sync env (4 + n) with
              | Raise e =>
                  (Some e, [persisted; logged; EvInitializeSystem; EvJobTypeSync;
                            EvSchedulerSync])
              | Normal _ =>
                  (None, [persisted; logged; EvInitializeSystem; EvJobTypeSync;
                          EvSchedulerSync])
              end
          end
      end
  end.

(** Lines 87-90: the driver, the framework id and the master are recorded. *)
Definition identified (driver : Driver) (frameworkId : string) (masterInfo : MasterInfo.t)
    (w : World) : World :=
  set_master_port (Some (MasterInfo.port masterInfo))
    (set_master_hostname (Some (MasterInfo.hostname masterInfo))
       (set_framework_id (Some frameworkId) (set_driver (Some driver) w))).

(** Lines 102-117: the three loop objects are created around the driver
    and their threads started. *)
Definition loops_started (driver : Driver) (w : World) : World :=
  set_started_threads (started_threads w ++ [DbSyncLoop; ReconLoop; SchedulingLoop])%list
    (set_scheduling_thread (Some (SchedulingThread.new (Some driver)))
       (set_recon_thread (Some (ReconciliationThread.new (Some driver)))
          (set_db_sync_thread (Some (DatabaseSyncThread.new (Some driver))) w))).

Lemma registered_run driver frameworkId masterInfo w :
  registered env driver frameworkId masterInfo w =
  let started := startup (length (trace w)) frameworkId masterInfo in
  let w1 := set_trace (rev started.2 ++ trace w)%list
              (identified driver frameworkId masterInfo w) in
  match started.1 with
  | Some e => (Raise e, w1)
  | None => _reconcile_running_jobs env (loops_started driver w1)
  end.
Proof.
  unfold registered, startup, identified, loops_started, registered_logged.
  destruct w. run. cbn.
  destruct (update_master _ _ _ _); [|done].
  destruct (initialize_system _ _); [|done].
  destruct (job_type_sync _ _); [|done].
  destruct (scheduler_sync _ _); [|done].
  cbn. by rewrite <- !app_assoc.
Qed.

Lemma startup_completed n frameworkId masterInfo :
  (startup n frameworkId masterInfo).1 = None →
  (startup n frameworkId masterInfo).2 =
  [EvUpdateMaster (MasterInfo.hostname masterInfo) (MasterInfo.port masterInfo);
   registered_logged frameworkId masterInfo; EvInitializeSystem; EvJobTypeSync;
   EvSchedulerSync].
Proof.
  unfold startup.
  destruct (update_master _ _ _ _); [|done].
  destruct (initialize_system _ _); [|done].
  destruct (job_type_sync _ _); [|done].
  by destruct (scheduler_sync _ _).
Qed.

(** X7. However [registered] ends, the driver, the framework id and the
    master it was given are recorded (they are assigned before anything can
    fail) and the managers are untouched.  The three loop objects are
    created, and their threads started, only once the master is persisted,
    the system initialised and the two managers synchronised: if one of
    these four calls raises, [registered] raises the same exception right
    there, no loop object is created or replaced and no thread is started.
    Once the four have returned, the three loop objects exist, each around
    the new driver and running, and three more threads are started in the
    order db-sync, reconciliation, scheduling, whether the reconcile pass
    that follows returns or raises. *)
Theorem registered_creates_loops_after_startup driver frameworkId masterInfo w r w' :
  registered env driver frameworkId masterInfo w = (r, w') →
  let started := startup (length (trace w)) frameworkId masterInfo in
  _driver w' = Some driver ∧
  _framework_id w' = Some frameworkId ∧
  _master_hostname w' = Some (MasterInfo.hostname masterInfo) ∧
  _master_port w' = Some (MasterInfo.port masterInfo) ∧
  _executor w' = _executor w ∧
  _job_exe_manager w' = _job_exe_manager w ∧
  _node_manager w' = _node_manager w ∧
  _offer_manager w' = _offer_manager w ∧
  match started.1 with
  | Some e =>
      r = Raise e ∧
      history w' = (history w ++ started.2)%list ∧
      _db_sync_thread w' = _db_sync_thread w ∧
      _recon_thread w' = _recon_thread w ∧
      _scheduling_thread w' = _scheduling_thread w ∧
      started_threads w' = started_threads w
  | None =>
      (∃ new, history w' = (history w ++ started.2 ++ new)%list) ∧
      _db_sync_thread w' = Some (DatabaseSyncThread.new (Some driver)) ∧
      (∃ rt, _recon_thread w' = Some rt ∧
             ReconciliationThread.driver rt = Some driver ∧
             ReconciliationThread.running rt = true) ∧
      _scheduling_thread w' = Some (SchedulingThread.new (Some driver)) ∧
      started_threads w' =
        (started_threads w ++ [DbSyncLoop; ReconLoop; SchedulingLoop])%list
  end.
Proof.
  intros Hrun started. rewrite registered_run in Hrun. cbv zeta in Hrun.
  fold started in Hrun.
  destruct started.1 as [e|].
  - injection Hrun as <- <-. split_and!; try done.
    unfold history. cbn. by rewrite rev_app_distr, rev_involutive.
  - set (w1 := loops_started _ _) in Hrun.
    pose proof (preserves_reconcile_running_jobs env reconciling w1) as Hrec.
    rewrite Hrun in Hrec. cbn [snd] in Hrec.
    destruct Hrec as [Hd He Hf Hh Hp Hj Hn Ho Hdb Hrt Hsch Hst [post Hpost]].
    split_and!; try done.
    + exists (rev post). unfold history. rewrite Hpost. cbn.
      by rewrite !rev_app_distr, rev_involutive, app_assoc.
    + cbn in Hrt. destruct (_recon_thread w') as [rt|]; [|done].
      destruct Hrt as (? & ? & _). by exists rt.
Qed.

(** X8. When [registered] returns: it has persisted the master, logged
    the registration, initialised the system and synchronised the job type
    manager and the scheduler manager, in that order, before it asked the
    backing store for the running executions (its sixth call); the list
    [job_exes] is the one the backing store answered with, and the pass
    went through it, looking each execution up and reporting as failed the
    ones the manager does not know ([reconcile_calls]); the reconciliation
    thread is a new one, so the reconciliation set is exactly the current
    tasks of the executions of that list the manager knows, whatever it
    held before.  And [registered] returns whenever the backing store
    answers. *)
Theorem registered_starts_scheduler driver frameworkId masterInfo w :
  (∀ w',
     registered env driver frameworkId masterInfo w = (Normal tt, w') →
     ∃ job_exes,
       get_running_job_exes env (5 + length (trace w)) = Normal job_exes ∧
       let ids := tasks_to_reconcile (_job_exe_manager w) job_exes in
       history w' =
         (history w ++
          [EvUpdateMaster (MasterInfo.hostname masterInfo) (MasterInfo.port masterInfo);
           registered_logged frameworkId masterInfo; EvInitializeSystem; EvJobTypeSync;
           EvSchedulerSync; EvGetRunningJobExes] ++
          reconcile_calls env (_job_exe_manager w) (6 + length (trace w)) job_exes ++
          [EvReconAdd ids])%list ∧
       _recon_thread w' =
         Some (ReconciliationThread.add_task_ids ids
                 (ReconciliationThread.new (Some driver))) ∧
       recon_set w' = list_to_set ids) ∧
  ((∀ n h p, update_master env n h p = Normal tt) →
   (∀ n, initialize_system env n = Normal tt) →
   (∀ n, job_type_sync env n = Normal tt) →
   (∀ n, scheduler_sync env n = Normal tt) →
   (∀ n, ∃ job_exes, get_running_job_exes env n = Normal job_exes) →
   (∀ n i t e, handle_job_failure env n i t e = Normal tt) →
   ∃ w', registered env driver frameworkId masterInfo w = (Normal tt, w')).
Proof.
  split.
  - intros w' Hrun. rewrite registered_run in Hrun. cbv zeta in Hrun.
    pose proof (startup_completed (length (trace w)) frameworkId masterInfo) as Hcalls.
    destruct (startup _ _ _).1 as [e|]; [done|]. rewrite (Hcalls eq_refl) in Hrun.
    set (w1 := loops_started _ _) in Hrun.
    destruct (reconcile_running_jobs_returned env (ReconciliationThread.new (Some driver))
                w1 w' eq_refl Hrun) as (job_exes & Hlist & Hh & Hrt).
    exists job_exes. cbn zeta in Hh, Hrt. split; [exact Hlist|cbv zeta; split_and!].
    + rewrite Hh. unfold history, w1. cbn. rewrite <- !app_assoc. reflexivity.
    + exact Hrt.
    + unfold recon_set. rewrite Hrt. cbn. apply (left_id_L ∅ (∪)).
  - intros Hmaster Hinit Hjob Hsch Hlist Hfail.
    rewrite registered_run. cbv zeta. unfold startup.
    rewrite Hmaster, Hinit, Hjob, Hsch. cbn [fst snd].
    apply (reconcile_running_jobs_returns env (ReconciliationThread.new (Some driver)));
      done.
Qed.


(** ** Sequences of callbacks *)

(** A call of the Mesos driver into the scheduler object. *)
Inductive Callback :=
| Registered (driver : Driver) (frameworkId : string) (masterInfo : MasterInfo.t)
| Reregistered (driver : Driver) (masterInfo : MasterInfo.t)
| Disconnected (driver : Driver)
| ResourceOffers (driver : Driver) (offers : list Offer.t)
| OfferRescinded (driver : Driver) (offerId : string)
| StatusUpdate (driver : Driver) (status : TaskStatus.t)
| FrameworkMessage (driver : Driver) (executorId slaveId message : string)
| SlaveLost (driver : Driver) (slaveId : string)
| ExecutorLost (driver : Driver) (executorId slaveId : string) (status : Z)
| ErrorReported (driver : Driver) (message : string)
| Shutdown.

Definition invoke (c : Callback) : M World unit :=
  match c with
  | Registered driver frameworkId masterInfo => registered env driver frameworkId masterInfo
  | Reregistered driver masterInfo => reregistered env driver masterInfo
  | Disconnected driver => disconnected driver
  | ResourceOffers driver offers => resourceOffers env driver offers
  | OfferRescinded driver offerId => offerRescinded env driver offerId
  | StatusUpdate driver status => statusUpdate env driver status
  | FrameworkMessage driver executorId slaveId message =>
      frameworkMessage env driver executorId slaveId message
  | SlaveLost driver slaveId => slaveLost env driver slaveId
  | ExecutorLost driver executorId slaveId status =>
      executorLost env driver executorId slaveId status
  | ErrorReported driver message => error driver message
  | Shutdown => shutdown
  end.

(** The scheduler after the calls [cs], made one after the other on the
    same object; each of them may have returned or raised. *)
Definition invoke_all (cs : list Callback) (w : World) : World :=
  foldl (λ w c, (invoke c w).2) w cs.

(** The three loop objects exist. *)
Definition loops_exist (w : World) : Prop :=
  is_Some (_db_sync_thread w) ∧ is_Some (_recon_thread w) ∧
  is_Some (_scheduling_thread w).

(** The threads started by [k] passes through lines 102-117. *)
Definition threads_of (k : nat) : list Loop :=
  mjoin (replicate k [DbSyncLoop; ReconLoop; SchedulingLoop]).

(** The attributes of a scheduler fit together: the loop objects exist all
    three or not at all; the threads were started three at a time, one per
    loop, and none while there is no loop object; a scheduler with loop
    objects knows its framework id, one with a framework id knows its
    driver, and the driver and the address of the master are known
    together. *)
Record coherent (w : World) : Prop := mkCoherent {
  coherent_loops : unregistered w ∨ loops_exist w;
  coherent_threads :
    ∃ k, started_threads w = threads_of k ∧ (k = 0%nat ↔ unregistered w);
  coherent_framework_id : is_Some (_recon_thread w) → is_Some (_framework_id w);
  coherent_driver : is_Some (_framework_id w) → is_Some (_driver w);
  coherent_master_hostname : is_Some (_driver w) ↔ is_Some (_master_hostname w);
  coherent_master_port : is_Some (_master_hostname w) ↔ is_Some (_master_port w) }.

Lemma threads_of_S k :
  threads_of (S k) = (threads_of k ++ [DbSyncLoop; ReconLoop; SchedulingLoop])%list.
Proof.
  unfold threads_of. by rewrite replicate_S_end, join_app.
Qed.

Lemma same_recon_thread_is_Some o o' :
  same_recon_thread o o' → (is_Some o' ↔ is_Some o).
Proof. destruct o, o'; cbn; try tauto; intros _; split; intros; by eexists. Qed.

Lemma grown_recon_thread_is_Some o o' :
  grown_recon_thread o o' → (is_Some o' ↔ is_Some o).
Proof. destruct o, o'; cbn; try tauto; intros _; split; intros; by eexists. Qed.

(** Coherence only depends on which attributes are set and on the threads
    started. *)
Lemma coherent_transfer w w' :
  _driver w' = _driver w → _framework_id w' = _framework_id w →
  _master_hostname w' = _master_hostname w → _master_port w' = _master_port w →
  (is_Some (_db_sync_thread w') ↔ is_Some (_db_sync_thread w)) →
  (is_Some (_recon_thread w') ↔ is_Some (_recon_thread w)) →
  (is_Some (_scheduling_thread w') ↔ is_Some (_scheduling_thread w)) →
  started_threads w' = started_threads w →
  coherent w → coherent w'.
Proof.
  intros Hd Hf Hh Hp Hdb Hrt Hsch Hst [Hl [k [Hk Hk0]] Hfid Hdr Hmh Hmp].
  assert (Hun : unregistered w' ↔ unregistered w).
  { unfold unregistered. rewrite !eq_None_not_Some. tauto. }
  split.
  - unfold loops_exist. rewrite Hun, Hdb, Hrt, Hsch. exact Hl.
  - exists k. rewrite Hst, Hun. done.
  - rewrite Hrt, Hf. exact Hfid.
  - rewrite Hf, Hd. exact Hdr.
  - rewrite Hd, Hh. exact Hmh.
  - rewrite Hh, Hp. exact Hmp.
Qed.

Lemma coherent_dispatching w w' : dispatching w w' → coherent w → coherent w'.
Proof.
  intros [Hd _ Hf Hh Hp Hdb Hrt Hsch Hst _].
  apply coherent_transfer; try done; try (by rewrite ?Hdb, ?Hsch).
  by apply same_recon_thread_is_Some.
Qed.

Lemma coherent_reconciling w w' : reconciling w w' → coherent w → coherent w'.
Proof.
  intros [Hd _ Hf Hh Hp _ _ _ Hdb Hrt Hsch Hst _].
  apply coherent_transfer; try done; try (by rewrite ?Hdb, ?Hsch).
  by apply grown_recon_thread_is_Some.
Qed.

Lemma coherent_init executor : coherent (ScaleScheduler_init executor).
Proof.
  split; cbn; try (by intros [? [=]]); try (split; by intros [? [=]]).
  - by left.
  - by exists 0%nat.
Qed.

Lemma coherent_registered driver frameworkId masterInfo w :
  coherent w → coherent (registered env driver frameworkId masterInfo w).2.
Proof.
  intros [Hl [k [Hk Hk0]] Hfid Hdr Hmh Hmp].
  rewrite registered_run. cbv zeta.
  destruct (startup _ _ _).1 as [e|]; cbn [snd].
  - split; cbn; try done; try (by exists k); try (intros _; by eexists);
      split; intros _; by eexists.
  - eapply coherent_reconciling; [apply (preserves_reconcile_running_jobs env reconciling)|].
    split; cbn; try (intros _; by eexists); try (split; intros _; by eexists).
    + right. by split_and!; eexists.
    + exists (S k). rewrite threads_of_S, Hk. split; [done|].
      split; [done|]. by intros ([=] & _).
Qed.

Lemma coherent_reregistered driver masterInfo w :
  coherent w → coherent (reregistered env driver masterInfo w).2.
Proof.
  intros [Hl [k [Hk Hk0]] Hfid Hdr Hmh Hmp].
  assert (Hrecorded : ∀ tr, coherent (set_trace tr
            (set_master_port (Some (MasterInfo.port masterInfo))
               (set_master_hostname (Some (MasterInfo.hostname masterInfo))
                  (set_driver (Some driver) w))))).
  { intros tr. split; cbn; try done; try (by exists k); try (intros _; by eexists);
      split; intros _; by eexists. }
  destruct Hl as [(Hdb & Hrt & Hsch)|([db Hdb] & [rt Hrt] & [sch Hsch])].
  - unfold reregistered. destruct w. cbn in Hdb, Hrt, Hsch. subst. run. cbn.
    destruct (update_master _ _ _ _); apply Hrecorded.
  - rewrite (reregistered_run env driver masterInfo db rt sch w Hdb Hrt Hsch).
    destruct (update_master _ _ _ _).
    + eapply coherent_reconciling; [apply (preserves_reconcile_running_jobs env reconciling)|].
      eapply coherent_transfer; [..|apply (Hrecorded (trace w))]; cbn; try done;
        rewrite ?Hdb, ?Hrt, ?Hsch; split; intros _; by eexists.
    + apply Hrecorded.
Qed.

Lemma coherent_shutdown w : coherent w → coherent (shutdown w).2.
Proof.
  intros Hc. eapply coherent_transfer; [..|exact Hc];
    destruct w as [? ? ? ? ? ? ? ? [db|] [rt|] [sch|] ? ?]; unfold shutdown; run; cbn;
    try done; try (split; intros _; by eexists).
Qed.

Lemma coherent_invoke c w : coherent w → coherent (invoke c w).2.
Proof.
  destruct c; cbn [invoke].
  - apply coherent_registered.
  - apply coherent_reregistered.
  - apply coherent_dispatching, preserves_disconnected; apply _.
  - apply coherent_dispatching, preserves_resourceOffers; apply _.
  - apply coherent_dispatching, preserves_offerRescinded; apply _.
  - apply coherent_dispatching, preserves_statusUpdate; apply _.
  - apply coherent_dispatching, preserves_frameworkMessage; apply _.
  - apply coherent_dispatching, preserves_slaveLost; apply _.
  - apply coherent_dispatching, preserves_executorLost; apply _.
  - apply coherent_dispatching, preserves_error; apply _.
  - apply coherent_shutdown.
Qed.

(** X9. Whatever calls the driver has made into a freshly constructed
    scheduler, and however each of them ended, its attributes fit together
    ([coherent]): in particular the three loop objects exist all three or
    not at all, so that a callback finds either no loop object (and the ones
    that need one raise [AttributeError]) or all of them; every pass of
    [registered] through its thread creation has started one thread per
    loop, and nothing else starts or stops a thread. *)
Theorem scheduler_stays_coherent executor cs :
  coherent (invoke_all cs (ScaleScheduler_init executor)).
Proof.
  unfold invoke_all.
  generalize (coherent_init executor). generalize (ScaleScheduler_init executor).
  induction cs as [|c cs IH]; intros w Hw; [done|].
  cbn [foldl]. apply IH. by apply coherent_invoke.
Qed.

Lemma loops_exist_transfer w w' :
  (is_Some (_db_sync_thread w') ↔ is_Some (_db_sync_thread w)) →
  (is_Some (_recon_thread w') ↔ is_Some (_recon_thread w)) →
  (is_Some (_scheduling_thread w') ↔ is_Some (_scheduling_thread w)) →
  loops_exist w → loops_exist w'.
Proof. unfold loops_exist. intros -> -> ->. done. Qed.

Lemma loops_exist_dispatching w w' : dispatching w w' → loops_exist w → loops_exist w'.
Proof.
  intros [_ _ _ _ _ Hdb Hrt Hsch _ _].
  apply loops_exist_transfer; rewrite ?Hdb, ?Hsch; try done.
  by apply same_recon_thread_is_Some.
Qed.

Lemma loops_exist_reconciling w w' : reconciling w w' → loops_exist w → loops_exist w'.
Proof.
  intros [_ _ _ _ _ _ _ _ Hdb Hrt Hsch _ _].
  apply loops_exist_transfer; rewrite ?Hdb, ?Hsch; try done.
  by apply grown_recon_thread_is_Some.
Qed.

Lemma shutdown_run db rt sch w :
  _db_sync_thread w = Some db → _recon_thread w = Some rt → _scheduling_thread w = Some sch →
  shutdown w =
  (Normal tt,
   set_scheduling_thread (Some (SchedulingThread.shutdown sch))
     (set_recon_thread (Some (ReconciliationThread.shutdown rt))
        (set_db_sync_thread (Some (DatabaseSyncThread.shutdown db))
           (set_trace
              (EvThreadShutdown SchedulingLoop :: EvThreadShutdown ReconLoop
                 :: EvThreadShutdown DbSyncLoop
                 :: EvLog INFO "Scheduler shutdown invoked, stopping background threads" []
                 :: trace w) w)))).
Proof. unfold shutdown. destruct w. run. by intros -> -> ->. Qed.

Lemma loops_exist_invoke c w : loops_exist w → loops_exist (invoke c w).2.
Proof.
  destruct c; cbn [invoke].
  - intros Hw. rewrite registered_run. cbv zeta.
    destruct (startup _ _ _).1; cbn [snd]; [exact Hw|].
    eapply loops_exist_reconciling; [apply (preserves_reconcile_running_jobs env reconciling)|].
    by split_and!; eexists.
  - intros ([db Hdb] & [rt Hrt] & [sch Hsch]).
    rewrite (reregistered_run env driver masterInfo db rt sch w Hdb Hrt Hsch).
    destruct (update_master _ _ _ _); cbn [snd].
    + eapply loops_exist_reconciling;
        [apply (preserves_reconcile_running_jobs env reconciling)|].
      by split_and!; eexists.
    + unfold loops_exist. cbn. rewrite Hdb, Hrt, Hsch. by split_and!; eexists.
  - apply loops_exist_dispatching, preserves_disconnected; apply _.
  - apply loops_exist_dispatching, preserves_resourceOffers; apply _.
  - apply loops_exist_dispatching, preserves_offerRescinded; apply _.
  - apply loops_exist_dispatching, preserves_statusUpdate; apply _.
  - apply loops_exist_dispatching, preserves_frameworkMessage; apply _.
  - apply loops_exist_dispatching, preserves_slaveLost; apply _.
  - apply loops_exist_dispatching, preserves_executorLost; apply _.
  - apply loops_exist_dispatching, preserves_error; apply _.
  - intros ([db Hdb] & [rt Hrt] & [sch Hsch]).
    rewrite (shutdown_run db rt sch w Hdb Hrt Hsch). by split_and!; eexists.
Qed.

Lemma statusUpdate_returns driver status w :
  is_Some (_recon_thread w) →
  ∃ w', statusUpdate env driver status w = (Normal tt, w').
Proof.
  intros [th Hth]. unfold statusUpdate.
  rewrite bind_run, (statusUpdate_entry_run env status th w Hth).
  edestruct (statusUpdate_handling_returns env status) as (w' & Hrun & _);
    [|exists w'; exact Hrun].
  by eexists.
Qed.

(** X10. Once the three loop objects exist they exist for good: no call
    of the driver, however it ends, removes one of them ([registered]
    replaces them, [reregistered] and [shutdown] update them in place).  So
    after any sequence of calls [statusUpdate] still returns normally, for
    every status, and so does [shutdown]: the [AttributeError] of a
    scheduler that has not registered cannot come back. *)
Theorem registration_is_permanent cs w :
  loops_exist w →
  loops_exist (invoke_all cs w) ∧
  (∀ driver status,
     ∃ w', statusUpdate env driver status (invoke_all cs w) = (Normal tt, w')) ∧
  (∃ w', shutdown (invoke_all cs w) = (Normal tt, w')).
Proof.
  intros Hw.
  assert (Hall : loops_exist (invoke_all cs w)).
  { unfold invoke_all. revert w Hw. induction cs as [|c cs IH]; intros w Hw; [done|].
    cbn [foldl]. apply IH. by apply loops_exist_invoke. }
  split_and!; [done| |].
  - intros driver status. apply statusUpdate_returns. apply Hall.
  - destruct Hall as ([db Hdb] & [rt Hrt] & [sch Hsch]).
    rewrite (shutdown_run db rt sch _ Hdb Hrt Hsch). by eexists.
Qed.

(** ** Shutdown *)

(** X11. [shutdown] on a scheduler whose three loop objects exist returns
    normally: after logging it tells the db-sync loop, the reconciliation
    loop and the scheduling loop to stop, in that order, each once.  The
    loop objects stay in place, with their driver and the reconciliation
    set; no thread is started and nothing else changes.  Calling it again
    tells the three loops again and leaves them as they are. *)
Theorem shutdown_stops_the_three_loops db rt sch w :
  _db_sync_thread w = Some db →
  _recon_thread w = Some rt →
  _scheduling_thread w = Some sch →
  ∃ w',
    shutdown w = (Normal tt, w') ∧
    history w' =
      (history w ++
       [EvLog INFO "Scheduler shutdown invoked, stopping background threads" [];
        EvThreadShutdown DbSyncLoop; EvThreadShutdown ReconLoop;
        EvThreadShutdown SchedulingLoop])%list ∧
    _db_sync_thread w' = Some (DatabaseSyncThread.shutdown db) ∧
    _recon_thread w' = Some (ReconciliationThread.shutdown rt) ∧
    _scheduling_thread w' = Some (SchedulingThread.shutdown sch) ∧
    recon_set w' = recon_set w ∧
    w' = set_scheduling_thread (_scheduling_thread w')
           (set_recon_thread (_recon_thread w')
              (set_db_sync_thread (_db_sync_thread w') (set_trace (trace w') w))) ∧
    ∃ w'',
      shutdown w' = (Normal tt, w'') ∧
      _db_sync_thread w'' = _db_sync_thread w' ∧
      _recon_thread w'' = _recon_thread w' ∧
      _scheduling_thread w'' = _scheduling_thread w'.
Proof.
  intros Hdb Hrt Hsch. rewrite (shutdown_run db rt sch w Hdb Hrt Hsch).
  eexists. split; [reflexivity|]. split_and!; try reflexivity.
  - unfold history. cbn. by rewrite <- !app_assoc.
  - unfold recon_set. cbn. by rewrite Hrt.
  - erewrite shutdown_run by reflexivity. eexists. split_and!; reflexivity.
Qed.

(** ** Disconnection *)

(** The message of [disconnected], given the address of the master it
    names, if any. *)
Definition disconnected_logged (master : option (string * Z)) : Event :=
  match master with
  | Some (hostname, port) =>
      EvLog ERROR "Scale scheduler disconnected from the Mesos master at %s:%i"
        [LStr hostname; LInt port]
  | None => EvLog ERROR "Scale scheduler disconnected from the Mesos master" []
  end.

Lemma reregistered_records_master driver masterInfo w :
  let w' := (reregistered env driver masterInfo w).2 in
  _master_hostname w' = Some (MasterInfo.hostname masterInfo) ∧
  _master_port w' = Some (MasterInfo.port masterInfo).
Proof.
  assert (Hrec : ∀ w0 : World,
            _master_hostname w0 = Some (MasterInfo.hostname masterInfo) →
            _master_port w0 = Some (MasterInfo.port masterInfo) →
            let w' := (_reconcile_running_jobs env w0).2 in
            _master_hostname w' = Some (MasterInfo.hostname masterInfo) ∧
            _master_port w' = Some (MasterInfo.port masterInfo)).
  { intros w0 Hh Hp.
    destruct (preserves_reconcile_running_jobs env reconciling w0) as [_ _ _ Hh' Hp' _ _ _ _ _ _ _ _].
    cbn. by rewrite Hh', Hp'. }
  unfold reregistered.
  destruct w as [? ? ? ? ? ? ? ? [db|] [rt|] [sch|] ? ?]; run; cbn;
    destruct (update_master _ _ _ _); cbn; try done; by apply Hrec.
Qed.

(** X12. [disconnected] names the master the scheduler last recorded.
    After [registered] or [reregistered] was called with a master, whether
    that call returned or raised, [disconnected] logs one error that gives
    the host name and the port of that master; when the host name is the
    empty string it logs the message without an address, as it does on a
    scheduler that was never registered. *)
Theorem disconnected_names_recorded_master driver frameworkId masterInfo driver' executor w :
  let named :=
    if decide (MasterInfo.hostname masterInfo ≠ "")
    then Some (MasterInfo.hostname masterInfo, MasterInfo.port masterInfo) else None in
  let logs master (w : World) :=
    disconnected driver' w =
      (Normal tt, set_trace (disconnected_logged master :: trace w) w) in
  logs named (registered env driver frameworkId masterInfo w).2 ∧
  logs named (reregistered env driver masterInfo w).2 ∧
  logs None (ScaleScheduler_init executor).
Proof.
  intros named logs. subst logs. cbv beta. split_and!.
  - rewrite registered_run. cbv zeta.
    set (w1 := set_trace _ _).
    assert (Hlog : ∀ w2 : World,
              _master_hostname w2 = Some (MasterInfo.hostname masterInfo) →
              _master_port w2 = Some (MasterInfo.port masterInfo) →
              disconnected driver' w2 =
                (Normal tt, set_trace (disconnected_logged named :: trace w2) w2)).
    { intros w2 Hh Hp. unfold disconnected. destruct w2. cbn in Hh, Hp. subst. run.
      subst named. by case_decide. }
    destruct (startup _ _ _).1; cbn [snd]; [by apply Hlog|].
    destruct (preserves_reconcile_running_jobs env reconciling (loops_started driver w1))
      as [_ _ _ Hh Hp _ _ _ _ _ _ _ _].
    apply Hlog; [by rewrite Hh|by rewrite Hp].
  - destruct (reregistered_records_master driver masterInfo w) as [Hh Hp].
    cbv zeta in Hh, Hp.
    destruct (reregistered env driver masterInfo w).2. cbn in Hh, Hp. subst.
    unfold disconnected. run. subst named. by case_decide.
  - done.
Qed.

(** ** Status updates *)

(** X13. A status update delivered to a scheduler that has no
    reconciliation thread (it has not registered) is not handled:
    [statusUpdate] reads the clock, logs the update and then raises
    [AttributeError] on the reconciliation thread.  The execution is not
    looked up, no transition is applied, the duration is not logged and no
    attribute of the scheduler changes. *)
Theorem statusUpdate_before_registered driver status w :
  _recon_thread w = None →
  statusUpdate env driver status w =
    (Raise AttributeError,
     set_trace (status_update_logged env status :: EvNow :: trace w) w).
Proof.
  intros Hrt. unfold statusUpdate.
  by rewrite bind_run, (statusUpdate_entry_unregistered env status w Hrt).
Qed.

(** Calls of a state-changing method of a running job execution. *)
Definition is_transition (ev : Event) : bool :=
  match ev with
  | EvTaskRunning _ _ _ _ _ | EvTaskComplete _ _ | EvTaskFail _ _ _
  | EvExecutionLost _ _ => true
  | _ => false
  end.

(** X14. A status update with state STAGING or STARTING for an execution
    the manager knows (the reconciliation thread exists) drives no
    transition: after the guarded log pull no method of the execution is
    called.  The test of line 290 is made all the same, so the execution
    is removed from the manager if it was already finished, and stays as it
    is otherwise.  The callback returns normally and the task id is left
    out of the reconciliation set. *)
Theorem statusUpdate_without_transition driver status th exe w :
  _recon_thread w = Some th →
  TaskStatus.state status = TASK_STAGING ∨ TaskStatus.state status = TASK_STARTING →
  _job_exe_manager w !! get_job_exe_id env (TaskStatus.task_id status) = Some exe →
  let task_id := TaskStatus.task_id status in
  let job_exe_id := get_job_exe_id env task_id in
  let pull :=
    log_pull env (4 + length (trace w)) (RunningJobExecution._node_hostname exe)
      (RunningJobExecution._node_port exe) task_id (parsed_results env status) in
  ∃ w' finished,
    statusUpdate env driver status w = (Normal tt, w') ∧
    history w' =
      (history w ++
       [EvNow; status_update_logged env status; EvReconRemove task_id;
        EvGetJobExe job_exe_id] ++ pull.2 ++
       (if RunningJobExecution.is_finished exe then [EvRemoveJobExe job_exe_id] else []) ++
       [EvNow;
        duration_logged "Scheduler statusUpdate() took %.3f seconds" DATABASE_WARN_THRESHOLD
          (now_at env (length (trace w))) finished])%list ∧
    Forall (λ ev, is_transition ev = false) pull.2 ∧
    _job_exe_manager w' =
      (if RunningJobExecution.is_finished exe
       then delete job_exe_id (_job_exe_manager w) else _job_exe_manager w) ∧
    recon_set w' = recon_set w ∖ {[task_id]}.
Proof.
  intros Hth Hstate Hget. cbv zeta.
  unfold statusUpdate, statusUpdate_entry, statusUpdate_try, statusUpdate_except,
    apply_status_update, status_update_logged, parsed_results.
  destruct w as [? ? ? ? ? m ? ? ? ? ? ? trace0]. run.
  unfold RunningJobExecutionManager.get_job_exe, RunningJobExecutionManager.remove_job_exe.
  cbn in Hth, Hget. rewrite Hth, Hget.
  assert (Hpull : Forall (λ ev, is_transition ev = false)
            (log_pull env (4 + length trace0) (RunningJobExecution._node_hostname exe)
               (RunningJobExecution._node_port exe) (TaskStatus.task_id status)
               (parsed_results env status)).2).
  { unfold log_pull.
    destruct (get_slave_task_directory env _ _ _ _); [|repeat constructor].
    destruct (get_slave_task_file env _ _ _ _ "stdout"); [|repeat constructor].
    destruct (get_slave_task_file env _ _ _ _ "stderr"); repeat constructor. }
  destruct Hstate as [Hstate|Hstate]; rewrite Hstate;
    (destruct (decide (_ ≠ TASK_LOST)) as [_|Hn]; [|by destruct Hn]);
    rewrite pull_logs_run; cbn;
    destruct (RunningJobExecution.is_finished exe); cbn;
    rewrite log_duration_eq; eexists _, _;
    (split_and!; [reflexivity| |exact Hpull|reflexivity|reflexivity]);
    unfold history; cbn; rewrite !rev_app_distr, rev_involutive; cbn;
    rewrite <- ?app_assoc; reflexivity.
Qed.

(** [keeps_recon_thread w w']: the reconciliation thread is as it was. *)
Definition keeps_recon_thread (w w' : World) : Prop :=
  _recon_thread w' = _recon_thread w.

#[local] Instance keeps_recon_thread_preorder : PreOrder keeps_recon_thread.
Proof.
  split.
  - by intros w.
  - intros w1 w2 w3. unfold keeps_recon_thread. congruence.
Qed.

#[local] Instance keeps_recon_thread_trace_footprint : TraceFootprint keeps_recon_thread.
Proof. split; [apply _|done]. Qed.

#[local] Instance keeps_recon_thread_job_exe_footprint : JobExeFootprint keeps_recon_thread.
Proof. by split. Qed.

#[local] Instance keeps_recon_thread_agent_footprint : AgentFootprint keeps_recon_thread.
Proof. by split. Qed.

(** X15. A status update changes the reconciliation set at most at its
    own task id: in a scheduler whose reconciliation thread exists,
    [statusUpdate] returns normally and every other task id awaits
    reconciliation afterwards exactly if it did before, whatever the state
    of the status, whether or not the execution is known, and whatever the
    collaborators raise. *)
Theorem statusUpdate_touches_only_its_task_id driver status th w :
  _recon_thread w = Some th →
  ∃ w',
    statusUpdate env driver status w = (Normal tt, w') ∧
    ∀ task_id, task_id ≠ TaskStatus.task_id status →
               task_id ∈ recon_set w' ↔ task_id ∈ recon_set w.
Proof.
  intros Hth. unfold statusUpdate.
  rewrite bind_run, (statusUpdate_entry_run env status th w Hth), bind_run.
  set (w1 := set_recon_thread _ _). unfold try_except.
  pose proof (preserves_statusUpdate_try env keeps_recon_thread status w1) as Hkeep.
  destruct (statusUpdate_try env status w1) as [[[]|e] w2]; cbn in Hkeep.
  - rewrite log_duration_eq. eexists. split; [reflexivity|].
    intros task_id Hne. unfold recon_set. cbn. rewrite Hkeep, Hth. cbn.
    rewrite elem_of_difference, elem_of_singleton. tauto.
  - rewrite (statusUpdate_except_run env status _ w2 Hkeep), log_duration_eq.
    eexists. split; [reflexivity|].
    intros task_id Hne. unfold recon_set. cbn. rewrite Hth. cbn.
    rewrite !elem_of_union, elem_of_difference, !elem_of_singleton, elem_of_empty. tauto.
Qed.

(** ** What the dispatch callbacks leave alone *)

(** X16. The callbacks that dispatch work, [disconnected],
    [resourceOffers], [offerRescinded], [statusUpdate], [frameworkMessage],
    [slaveLost], [executorLost] and [error], never change the identity of
    the scheduler, whether they return or raise: the driver, the executor,
    the framework id, the master, the db-sync and scheduling loop objects
    and the threads started are as before; the reconciliation thread keeps
    its driver and its running flag (only its set may change); and the
    record of calls only grows. *)
Theorem dispatch_callbacks_keep_identity driver offers offerId status executorId slaveId
    message code :
  Forall (preserves dispatching)
    [disconnected driver;
     resourceOffers env driver offers;
     offerRescinded env driver offerId;
     statusUpdate env driver status;
     frameworkMessage env driver executorId slaveId message;
     slaveLost env driver slaveId;
     executorLost env driver executorId slaveId code;
     error driver message].
Proof.
  rewrite !Forall_cons. split_and!; [..|apply Forall_nil_2].
  - apply preserves_disconnected; apply _.
  - apply preserves_resourceOffers; apply _.
  - apply preserves_offerRescinded; apply _.
  - apply preserves_statusUpdate; apply _.
  - apply preserves_frameworkMessage; apply _.
  - apply preserves_slaveLost; apply _.
  - apply preserves_executorLost; apply _.
  - apply preserves_error; apply _.
Qed.

(** ** Durations *)

(** When [m] returns from [w], its first call read the clock, its last two
    calls read the clock again and logged [msg] with the time between the
    two readings: as a warning when that time is greater than [threshold],
    at debug level otherwise. *)
Definition logs_duration (msg : string) (threshold : Z) (m : M World unit) (w : World)
  : Prop :=
  ∀ w', m w = (Normal tt, w') →
  ∃ calls,
    let started := now_at env (length (history w)) in
    let finished := now_at env (length (history w ++ EvNow :: calls)) in
    let duration := finished - started in
    history w' =
      (history w ++ EvNow :: calls ++
       [EvNow;
        EvLog (if decide (duration > threshold) then WARNING else DEBUG) msg
          [LInt duration]])%list.

Lemma logs_duration_intro msg threshold (m body : M World unit) w :
  m w = (body;; log_duration env msg threshold (now_at env (length (trace w))))
          (set_trace (EvNow :: trace w) w) →
  preserves dispatching body →
  logs_duration msg threshold m w.
Proof.
  intros Heq Hbody w' Hrun. rewrite Heq, bind_run in Hrun.
  specialize (Hbody (set_trace (EvNow :: trace w) w)).
  destruct (body _) as [[[]|e] w1]; [|done]. cbn [snd] in Hbody.
  destruct Hbody as [_ _ _ _ _ _ _ _ _ [post Hpost]]. cbn in Hpost.
  rewrite log_duration_eq in Hrun. injection Hrun as <-.
  exists (rev post). cbv zeta.
  assert (Hn1 : length (history w) = length (trace w)).
  { unfold history. by rewrite length_rev. }
  assert (Hn2 : length (history w ++ EvNow :: rev post) = length (trace w1)).
  { unfold history. rewrite Hpost, !length_app. cbn. rewrite !length_rev. lia. }
  rewrite Hn1, Hn2. unfold history, duration_logged. cbn. rewrite Hpost.
  rewrite rev_app_distr. cbn. by rewrite <- !app_assoc.
Qed.

(** X17. The six timed callbacks measure themselves the same way: when
    one of them returns, the first thing it did was to read the clock and
    the last things it did were to read the clock again and to log the time
    between the two readings.  The message is a warning when that time is
    greater than 5 milliseconds for [resourceOffers], [offerRescinded],
    [frameworkMessage] and [executorLost], and greater than 100
    milliseconds for [statusUpdate] and [slaveLost]; a callback that takes
    exactly the threshold, or less, logs at debug level. *)
Theorem callbacks_log_their_duration driver offers offerId status executorId slaveId message
    code w :
  NORMAL_WARN_THRESHOLD = 5000 ∧
  DATABASE_WARN_THRESHOLD = 100000 ∧
  logs_duration "Scheduler resourceOffers() took %.3f seconds" NORMAL_WARN_THRESHOLD
    (resourceOffers env driver offers) w ∧
  logs_duration "Scheduler offerRescinded() took %.3f seconds" NORMAL_WARN_THRESHOLD
    (offerRescinded env driver offerId) w ∧
  logs_duration "Scheduler frameworkMessage() took %.3f seconds" NORMAL_WARN_THRESHOLD
    (frameworkMessage env driver executorId slaveId message) w ∧
  logs_duration "Scheduler executorLost() took %.3f seconds" NORMAL_WARN_THRESHOLD
    (executorLost env driver executorId slaveId code) w ∧
  logs_duration "Scheduler statusUpdate() took %.3f seconds" DATABASE_WARN_THRESHOLD
    (statusUpdate env driver status) w ∧
  logs_duration "Scheduler slaveLost() took %.3f seconds" DATABASE_WARN_THRESHOLD
    (slaveLost env driver slaveId) w.
Proof.
  split_and!; [done|done|..].
  - eapply (logs_duration_intro _ _ _
              (node_manager_add_agent_ids (Offer.slave_id <$> offers);;
               offer_manager_add_new_offers (project_offer <$> offers))).
    + destruct w. unfold resourceOffers. run. reflexivity.
    + apply preserves_bind; [apply _| |intros []].
      * apply preserves_node_manager_add_agent_ids; apply _.
      * apply preserves_offer_manager_add_new_offers; apply _.
  - eapply (logs_duration_intro _ _ _ (offer_manager_remove_offers [offerId])).
    + destruct w. unfold offerRescinded. run. reflexivity.
    + apply preserves_offer_manager_remove_offers; apply _.
  - eapply (logs_duration_intro _ _ _
              (node ← node_manager_get_node slaveId;
               match node with
               | Some node =>
                   logger INFO "Message from %s on host %s: %s"
                     [LStr executorId; LStr (Node.hostname node); LStr message]
               | None =>
                   logger INFO "Message from %s on agent %s: %s"
                     [LStr executorId; LStr slaveId; LStr message]
               end)).
    + destruct w as [? ? ? ? ? ? nodes ? ? ? ? ? ?]. unfold frameworkMessage. run.
      by destruct (NodeManager.get_node slaveId nodes).
    + apply preserves_bind; [apply _| |intros [node|]].
      * apply preserves_node_manager_get_node; apply _.
      * apply preserves_logger; apply _.
      * apply preserves_logger; apply _.
  - eapply (logs_duration_intro _ _ _
              (node ← node_manager_get_node slaveId;
               match node with
               | Some node =>
                   logger ERROR "Executor %s lost on host: %s"
                     [LStr executorId; LStr (Node.hostname node)]
               | None =>
                   logger ERROR "Executor %s lost on agent: %s"
                     [LStr executorId; LStr slaveId]
               end)).
    + destruct w as [? ? ? ? ? ? nodes ? ? ? ? ? ?]. unfold executorLost. run.
      by destruct (NodeManager.get_node slaveId nodes).
    + apply preserves_bind; [apply _| |intros [node|]].
      * apply preserves_node_manager_get_node; apply _.
      * apply preserves_logger; apply _.
      * apply preserves_logger; apply _.
  - eapply (logs_duration_intro _ _ _
              (logger INFO "Status update for task %s: %s"
                 [LStr (TaskStatus.task_id status);
                  LStr (status_to_string env (TaskStatus.state status))];;
               recon_thread_remove_task_id (TaskStatus.task_id status);;
               try_except (statusUpdate_try env status)
                 (λ _, statusUpdate_except env status))).
    + destruct w as [? ? ? ? ? ? ? ? ? [rt|] ? ? ?];
        unfold statusUpdate, statusUpdate_entry; run; reflexivity.
    + apply preserves_bind; [apply _| |intros []].
      { apply preserves_logger; apply _. }
      apply preserves_bind; [apply _| |intros []].
      { apply preserves_recon_thread_remove_task_id; apply _. }
      apply preserves_try_except; [apply _| |intros e].
      * apply preserves_statusUpdate_try; apply _.
      * apply preserves_statusUpdate_except; apply _.
  - intros w' Hrun.
    pose proof (preserves_slaveLost env dispatching driver slaveId w) as Hd.
    rewrite slaveLost_run in Hrun. cbv zeta in Hrun. rewrite bind_run in Hrun.
    set (w0 := managers_told slaveId w) in Hrun.
    set (body := match NodeManager.get_node slaveId (_node_manager w) with
                 | Some node => _ | None => _ end) in Hrun.
    assert (Hbody : preserves dispatching body).
    { subst body. destruct (NodeManager.get_node _ _); [|apply preserves_ret; apply _].
      apply preserves_bind; [apply _| |intros exes].
      - apply preserves_job_exe_manager_get_job_exes_on_node; apply _.
      - apply preserves_for_each; [apply _|]. intros exe.
        apply preserves_bind; [apply _| |intros ?; apply preserves_ret; apply _].
        apply preserves_with_local, preserves_slaveLost_exe; apply _. }
    specialize (Hbody w0).
    destruct (body w0) as [[[]|e] w1]; [|done]. cbn [snd] in Hbody.
    destruct Hbody as [_ _ _ _ _ _ _ _ _ [post Hpost]].
    rewrite log_duration_eq in Hrun. injection Hrun as <-.
    exists ([EvGetNode slaveId;
             node_lost_logged slaveId (NodeManager.get_node slaveId (_node_manager w));
             EvNodeLost slaveId; EvOfferLost slaveId] ++ rev post)%list.
    cbv zeta.
    assert (Hn1 : length (history w) = length (trace w)).
    { unfold history. by rewrite length_rev. }
    assert (Hn2 : ∀ a b c d : Event,
              length (history w ++ EvNow :: [a; b; c; d] ++ rev post) = length (trace w1)).
    { intros. unfold history. rewrite Hpost, !length_app. cbn.
      rewrite !length_rev. unfold w0, managers_told. cbn. lia. }
    rewrite Hn1, Hn2. unfold history, duration_logged. cbn. rewrite Hpost.
    rewrite rev_app_distr. cbn. by rewrite <- !app_assoc.
Qed.

(** ** Redelivered updates *)

Lemma statusUpdate_unknown_reports driver status th w :
  _recon_thread w = Some th →
  _job_exe_manager w !! get_job_exe_id env (TaskStatus.task_id status) = None →
  let task_id := TaskStatus.task_id status in
  let job_exe_id := get_job_exe_id env task_id in
  ∃ w' post,
    statusUpdate env driver status w = (Normal tt, w') ∧
    history w' =
      (history w ++
       [EvNow; status_update_logged env status; EvReconRemove task_id; EvGetJobExe job_exe_id;
        EvNow;
        EvHandleJobFailure job_exe_id (now_at env (4 + length (trace w)))
          (get_builtin_error "scheduler-lost")] ++ post)%list ∧
    Forall (λ ev, is_transition ev = false) post.
Proof.
  intros Hth Hget. cbv zeta.
  unfold statusUpdate, statusUpdate_entry, statusUpdate_try, statusUpdate_except,
    status_update_logged.
  destruct w. run. unfold RunningJobExecutionManager.get_job_exe.
  cbn in Hth, Hget. rewrite Hth, Hget.
  destruct (handle_job_failure env _ _ _ _) as [[]|e];
    rewrite log_duration_eq; eexists _, _;
    (split_and!; [reflexivity| |]); cbn; rewrite <- ?app_assoc; try reflexivity;
    repeat constructor.
Qed.

(** X18. A FINISHED update delivered a second time fails the execution.
    Take an execution the manager knows (the reconciliation thread
    exists) whose [task_complete] returns and leaves it finished.  The
    first FINISHED update for its task removes the execution from the
    manager.  When the same update is delivered again, the execution is
    unknown: no method of it is called, and the dispatcher reports it to
    the queue as failed with the built-in error scheduler-lost. *)
Theorem repeated_finished_update_fails_execution driver status th exe w :
  _recon_thread w = Some th →
  TaskStatus.state status = TASK_FINISHED →
  _job_exe_manager w !! get_job_exe_id env (TaskStatus.task_id status) = Some exe →
  (∀ n results,
     let tr := task_complete env n exe results in
     Transition.raised tr = None ∧
     RunningJobExecution.is_finished (Transition.apply tr exe) = true) →
  let job_exe_id := get_job_exe_id env (TaskStatus.task_id status) in
  ∃ w1 w2 new when,
    statusUpdate env driver status w = (Normal tt, w1) ∧
    _job_exe_manager w1 !! job_exe_id = None ∧
    statusUpdate env driver status w1 = (Normal tt, w2) ∧
    history w2 = (history w1 ++ new)%list ∧
    EvHandleJobFailure job_exe_id when (get_builtin_error "scheduler-lost") ∈ new ∧
    Forall (λ ev, is_transition ev = false) new.
Proof.
  intros Hth Hstate Hget Hfin. cbv zeta.
  assert (∃ w1, statusUpdate env driver status w = (Normal tt, w1) ∧
                _job_exe_manager w1 !! get_job_exe_id env (TaskStatus.task_id status) = None ∧
                is_Some (_recon_thread w1)) as (w1 & Hrun1 & Hget1 & [th1 Hth1]).
  { unfold statusUpdate, statusUpdate_entry, statusUpdate_try, statusUpdate_except,
      apply_status_update.
    destruct w as [? ? ? ? ? m ? ? ? ? ? ? trace0]. run.
    unfold RunningJobExecutionManager.get_job_exe, RunningJobExecutionManager.remove_job_exe.
    cbn in Hth, Hget. rewrite Hth, Hget, Hstate.
    destruct (decide (TASK_FINISHED ≠ TASK_LOST)) as [_|Hn]; [|by destruct Hn].
    rewrite pull_logs_run. cbn.
    match goal with
    | |- context [task_complete env ?n exe ?r] => destruct (Hfin n r) as [-> ->]
    end.
    cbn. rewrite log_duration_eq. eexists. split_and!; [reflexivity| |by eexists].
    cbn. apply lookup_delete_eq. }
  destruct (statusUpdate_unknown_reports driver status th1 w1 Hth1 Hget1)
    as (w2 & post & Hrun2 & Hh2 & Hpost).
  eexists w1, w2, _, _. split_and!; [done|done|done|exact Hh2| |].
  - apply elem_of_app. left. do 5 apply list_elem_of_further.
    apply list_elem_of_here.
  - rewrite Forall_app. split; [repeat constructor|done].
Qed.

(** ** Node loss, call by call *)

(** The executions told of the loss of their node among the calls
    [events], one entry per call. *)
Definition executions_told (events : list Event) : list Z :=
  omap (λ ev, match ev with
              | EvExecutionLost job_exe_id _ => Some job_exe_id
              | _ => None
              end) events.

Lemma executions_told_app l1 l2 :
  executions_told (l1 ++ l2) = (executions_told l1 ++ executions_told l2)%list.
Proof. apply omap_app. Qed.

Lemma lost_step_told started exe th w :
  ∃ new,
    trace (lost_step env started exe th w) =
      (new ++ EvExecutionLost (RunningJobExecution.id exe) started :: trace w)%list ∧
    executions_told (rev new) = [].
Proof.
  unfold lost_step. cbn. eexists. split; [rewrite !app_assoc; reflexivity|].
  rewrite !rev_app_distr, !executions_told_app.
  destruct (RunningJobExecution.is_finished _);
    destruct (decide (Transition.raised _ = Some DatabaseError));
    try destruct (Transition.next_task _); done.
Qed.

Lemma slaveLost_body_crash started exe w e :
  Transition.raised (execution_lost env (length (trace w)) exe started) = Some e →
  e ≠ DatabaseError →
  ∃ w', slaveLost_body env started exe w = (Raise e, w') ∧
        trace w' = EvExecutionLost (RunningJobExecution.id exe) started :: trace w ∧
        _recon_thread w' = _recon_thread w.
Proof.
  intros Hr Hne. unfold slaveLost_body, slaveLost_exe.
  destruct w. run. cbn in Hr. rewrite Hr. cbn.
  destruct (decide (e = DatabaseError)); [done|]. cbn. by eexists.
Qed.

Lemma slaveLost_loop_told started l : ∀ w th r w',
  _recon_thread w = Some th →
  for_each l (slaveLost_body env started) w = (r, w') →
  ∃ new,
    trace w' = (new ++ trace w)%list ∧
    match r with
    | Normal _ => executions_told (rev new) = RunningJobExecution.id <$> l
    | Raise e =>
        e ≠ DatabaseError ∧
        ∃ pre exe post n,
          l = (pre ++ exe :: post)%list ∧
          Transition.raised (execution_lost env n exe started) = Some e ∧
          executions_told (rev new) = RunningJobExecution.id <$> (pre ++ [exe])%list ∧
          head new = Some (EvExecutionLost (RunningJobExecution.id exe) started)
    end.
Proof.
  induction l as [|exe l IH]; intros w th r w' Hth Hrun.
  - cbn in Hrun. injection Hrun as <- <-. by exists [].
  - cbn [for_each] in Hrun. rewrite bind_run in Hrun.
    destruct (Transition.raised (execution_lost env (length (trace w)) exe started))
      as [e|] eqn:Hr; [destruct (decide (e = DatabaseError)) as [->|Hne]|].
    2: { destruct (slaveLost_body_crash started exe w e Hr Hne) as (w1 & Hbody & Htr & _).
         rewrite Hbody in Hrun. injection Hrun as <- <-.
         exists [EvExecutionLost (RunningJobExecution.id exe) started]. split; [done|].
         split; [done|]. exists [], exe, l, (length (trace w)). done. }
    all: rewrite (slaveLost_body_returns env started exe th w Hth) in Hrun by auto.
    all: destruct (lost_step_recon_thread env started exe th w) as (th1 & Hth1 & _).
    all: destruct (lost_step_told started exe th w) as (new1 & Hnew1 & Htold1).
    all: destruct (IH _ th1 r w' Hth1 Hrun) as (new & Hnew & Hr').
    all: exists (new ++ new1 ++ [EvExecutionLost (RunningJobExecution.id exe) started])%list.
    all: (split; [rewrite Hnew, Hnew1, <- !app_assoc; reflexivity|]).
    all: assert (Htold : ∀ ids,
           executions_told (rev new) = ids →
           executions_told
             (rev (new ++ new1 ++ [EvExecutionLost (RunningJobExecution.id exe) started]))
           = RunningJobExecution.id exe :: ids)
         by (intros ids <-; rewrite !rev_app_distr, !executions_told_app, Htold1; done).
    all: destruct r as [[]|e'].
    all: try (cbn [fmap list_fmap]; by apply Htold).
    all: destruct Hr' as (Hne' & pre & x & post & n & -> & Hx & Hids & Hhead).
    all: split; [done|]; exists (exe :: pre), x, post, n.
    all: split_and!; [done|done|cbn [fmap list_fmap app]; by apply Htold|].
    all: destruct new; [done|done].
Qed.

(** X19. [slaveLost] tells the executions on the lost node one after the
    other (the reconciliation thread exists).  However it ends, it has first
    looked the node up, logged the loss and told the node manager and the
    offer manager.  When it returns, the calls
    of [execution_lost] it made are exactly one for each execution the
    manager lists for the node of the agent, in the order of that list, and
    none for any other execution; for an agent the node manager does not
    know it makes none.  It raises only when [execution_lost] raises
    something else than a [DatabaseError]: the executions listed before
    that one were each told once, that call is the last thing [slaveLost]
    did, so the executions after it were not told, the failing execution
    was not removed and the duration was not logged. *)
Theorem slaveLost_tells_executions_in_turn driver agent_id th w r w' :
  _recon_thread w = Some th →
  slaveLost env driver agent_id w = (r, w') →
  let started := now_at env (length (trace w)) in
  let exes :=
    match NodeManager.get_node agent_id (_node_manager w) with
    | Some node =>
        RunningJobExecutionManager.get_job_exes_on_node (Node.id node) (_job_exe_manager w)
    | None => []
    end in
  ∃ new,
    history w' =
      (history w ++
       [EvNow; EvGetNode agent_id;
        node_lost_logged agent_id (NodeManager.get_node agent_id (_node_manager w));
        EvNodeLost agent_id; EvOfferLost agent_id] ++ new)%list ∧
    match r with
    | Normal _ => executions_told new = RunningJobExecution.id <$> exes
    | Raise e =>
        e ≠ DatabaseError ∧
        ∃ pre exe post n,
          exes = (pre ++ exe :: post)%list ∧
          Transition.raised (execution_lost env n exe started) = Some e ∧
          executions_told new = RunningJobExecution.id <$> (pre ++ [exe])%list ∧
          last new = Some (EvExecutionLost (RunningJobExecution.id exe) started)
    end.
Proof.
  intros Hth Hrun started exes.
  rewrite slaveLost_run in Hrun. cbv zeta in Hrun. fold started in Hrun.
  rewrite bind_run in Hrun. unfold managers_told in Hrun. subst exes.
  destruct (NodeManager.get_node agent_id (_node_manager w)) as [node|].
  - set (w0 := set_offer_manager _ _) in Hrun.
    assert (Hh0 : ∀ post, rev (post ++ trace w0) =
              (history w ++ [EvNow; EvGetNode agent_id;
                 node_lost_logged agent_id (Some node);
                 EvNodeLost agent_id; EvOfferLost agent_id] ++ rev post)%list).
    { intros post. unfold history, w0. cbn.
      rewrite rev_app_distr. cbn. by rewrite <- !app_assoc. }
    rewrite bind_run in Hrun.
    set (l := RunningJobExecutionManager.get_job_exes_on_node (Node.id node)
                (_job_exe_manager w)).
    set (w0' := set_trace (EvGetJobExesOnNode (Node.id node) :: trace w0) w0).
    change (job_exe_manager_get_job_exes_on_node (Node.id node) w0)
      with (Normal l, w0') in Hrun.
    cbv beta iota in Hrun.
    destruct (for_each l (slaveLost_body env started) w0') as [r1 w1] eqn:Hloop.
    apply (slaveLost_loop_told started l w0' th) in Hloop as (new & Hnew & Hr); [|done].
    assert (Hh1 : ∀ post, rev (post ++ trace w1) =
              (history w ++ [EvNow; EvGetNode agent_id;
                 node_lost_logged agent_id (Some node);
                 EvNodeLost agent_id; EvOfferLost agent_id] ++
               EvGetJobExesOnNode (Node.id node) :: rev new ++ rev post)%list).
    { intros post. rewrite Hnew. unfold w0'. cbn [trace set_trace].
      change (EvGetJobExesOnNode (Node.id node) :: trace w0)
        with ([EvGetJobExesOnNode (Node.id node)] ++ trace w0)%list.
      rewrite !app_assoc, Hh0, !rev_app_distr. cbn. by rewrite <- !app_assoc. }
    destruct r1 as [[]|e].
    + rewrite log_duration_eq in Hrun. injection Hrun as <- <-.
      eexists. split.
      * unfold history. cbn [trace set_trace].
        match goal with
        | |- rev (?a :: ?b :: trace w1) = _ =>
            change (a :: b :: trace w1) with ([a; b] ++ trace w1)%list
        end.
        rewrite Hh1. reflexivity.
      * cbn [executions_told omap list_omap]. fold (executions_told (rev new ++ [EvNow;
          duration_logged "Scheduler slaveLost() took %.3f seconds" DATABASE_WARN_THRESHOLD
            started (now_at env (length (trace w1)))])).
        rewrite executions_told_app, Hr. cbn. by rewrite app_nil_r.
    + injection Hrun as <- <-.
      destruct Hr as (Hne & pre & exe & post & n & Hl & Hx & Hids & Hhead).
      eexists. split.
      * unfold history. rewrite <- (app_nil_l (trace w1)), Hh1. cbn [rev].
        rewrite app_nil_r. reflexivity.
      * split; [done|]. exists pre, exe, post, n. split_and!; [done|done| |].
        -- exact Hids.
        -- destruct new as [|ev new]; [done|]. injection Hhead as ->.
           cbn [rev]. by rewrite !last_cons, last_snoc.
  - set (w0 := set_offer_manager _ _) in Hrun.
    change (ret tt w0) with (Normal tt, w0) in Hrun. cbv beta iota in Hrun.
    rewrite log_duration_eq in Hrun. injection Hrun as <- <-.
    eexists. split.
    + unfold history, w0. cbn. rewrite <- !app_assoc. reflexivity.
    + reflexivity.
Qed.

(** ** Re-registration that fails *)

(** X20. [reregistered] does not rotate the driver atomically.  On a
    scheduler whose three loop objects exist, when the backing store
    refuses to persist the master, [reregistered] raises that exception
    having already recorded the new driver and the new master in the
    scheduler itself, while the three loop objects are exactly as they
    were, with the driver they had, and no reconcile pass is made.  When
    the master is persisted and the reconcile pass raises, the three loop
    objects hold the new driver and the reconciliation set is the one from
    before the call. *)
Theorem reregistered_failure_modes driver masterInfo db rt sch w e w' :
  _db_sync_thread w = Some db →
  _recon_thread w = Some rt →
  _scheduling_thread w = Some sch →
  reregistered env driver masterInfo w = (Raise e, w') →
  _driver w' = Some driver ∧
  _master_hostname w' = Some (MasterInfo.hostname masterInfo) ∧
  _master_port w' = Some (MasterInfo.port masterInfo) ∧
  match update_master env (length (trace w)) (MasterInfo.hostname masterInfo)
          (MasterInfo.port masterInfo) with
  | Raise e' =>
      e = e' ∧
      _db_sync_thread w' = Some db ∧
      _recon_thread w' = Some rt ∧
      _scheduling_thread w' = Some sch ∧
      history w' =
        (history w ++
         [EvUpdateMaster (MasterInfo.hostname masterInfo) (MasterInfo.port masterInfo)])%list
  | Normal _ =>
      _db_sync_thread w' = Some (DatabaseSyncThread.set_driver (Some driver) db) ∧
      _recon_thread w' = Some (ReconciliationThread.set_driver (Some driver) rt) ∧
      _scheduling_thread w' = Some (SchedulingThread.set_driver (Some driver) sch) ∧
      recon_set w' = recon_set w ∧
      ∃ new,
        history w' =
          (history w ++
           [EvUpdateMaster (MasterInfo.hostname masterInfo) (MasterInfo.port masterInfo);
            reregistered_logged masterInfo; EvGetRunningJobExes] ++ new)%list
  end.
Proof.
  intros Hdb Hrt Hsch Hrun.
  rewrite (reregistered_run env driver masterInfo db rt sch w Hdb Hrt Hsch) in Hrun.
  destruct (update_master _ _ _ _) as [[]|e'].
  - set (w1 := driver_rotated driver masterInfo db rt sch w) in Hrun.
    pose proof (preserves_reconcile_running_jobs env reconciling w1) as Hrec.
    rewrite Hrun in Hrec. cbn [snd] in Hrec.
    destruct Hrec as [Hd _ _ Hh Hp _ _ _ Hdb' _ Hsch' _ _].
    pose proof (reconcile_running_jobs_raises w1 e w' Hrun) as Hrt'.
    destruct (reconcile_pass_calls w1 (Raise e) w' Hrun) as (new & Hnew).
    split_and!; try done.
    + unfold recon_set. rewrite Hrt', Hrt. done.
    + exists new. rewrite Hnew. unfold history. cbn. by rewrite <- !app_assoc.
  - injection Hrun as <- <-. by split_and!.
Qed.

(** ** The index of the manager *)

(** [keeps_keys w w']: every execution the manager holds in [w'] is held
    under its own id or was already held, under the same key, in [w]. *)
Definition keeps_keys (w w' : World) : Prop :=
  ∀ i exe, _job_exe_manager w' !! i = Some exe →
           RunningJobExecution.id exe = i ∨ _job_exe_manager w !! i = Some exe.

#[local] Instance keeps_keys_preorder : PreOrder keeps_keys.
Proof.
  split.
  - intros w i exe Hi. by right.
  - intros w1 w2 w3 H12 H23 i exe Hi.
    destruct (H23 i exe Hi) as [?|Hi2]; [by left|]. by apply H12.
Qed.

#[local] Instance keeps_keys_trace_footprint : TraceFootprint keeps_keys.
Proof. split; [apply _|]. intros ev w i exe Hi. by right. Qed.

#[local] Instance keeps_keys_agent_footprint : AgentFootprint keeps_keys.
Proof. split; intros m w i exe Hi; by right. Qed.

#[local] Instance keeps_keys_identity_footprint : IdentityFootprint keeps_keys.
Proof. split; intros v w i exe Hi; by right. Qed.

#[local] Instance keeps_keys_recon_add_footprint : ReconAddFootprint keeps_keys.
Proof. split. intros l th w _ i exe Hi. by right. Qed.

#[local] Instance keeps_keys_recon_remove_footprint : ReconRemoveFootprint keeps_keys.
Proof. split. intros t th w _ i exe Hi. by right. Qed.

Lemma keeps_keys_remove_job_exe job_exe_id :
  preserves keeps_keys (job_exe_manager_remove_job_exe job_exe_id).
Proof.
  intros w i exe. unfold job_exe_manager_remove_job_exe. destruct w. run. cbn.
  unfold RunningJobExecutionManager.remove_job_exe.
  rewrite lookup_delete_Some. intros [_ Hi]. by right.
Qed.

Lemma keeps_keys_exe_method ev method :
  preserves (on_world keeps_keys) (exe_method ev method).
Proof.
  intros [exe w] i exe'. unfold on_world, exe_method. destruct w. cbn.
  destruct (decide (i = RunningJobExecution.id exe)) as [->|Hne].
  - rewrite lookup_alter_eq. destruct (_ !! _); [|done]. cbn. intros [= <-]. by left.
  - rewrite lookup_alter_ne by done. by right.
Qed.

Lemma keeps_keys_statusUpdate driver status :
  preserves keeps_keys (statusUpdate env driver status).
Proof.
  unfold statusUpdate, statusUpdate_try, apply_status_update.
  repeat first
    [ footprint_step
    | apply preserves_statusUpdate_entry
    | apply preserves_statusUpdate_except
    | apply preserves_log_duration
    | apply preserves_job_exe_manager_get_job_exe
    | apply preserves_pull_logs
    | apply preserves_now
    | apply preserves_call
    | apply keeps_keys_exe_method
    | apply keeps_keys_remove_job_exe
    | apply _ ].
Qed.

Lemma keeps_keys_slaveLost driver slaveId :
  preserves keeps_keys (slaveLost env driver slaveId).
Proof.
  unfold slaveLost, slaveLost_exe.
  repeat first
    [ footprint_step
    | apply preserves_now
    | apply preserves_logger
    | apply preserves_log_duration
    | apply preserves_node_manager_get_node
    | apply preserves_node_manager_lost_node
    | apply preserves_offer_manager_lost_node
    | apply preserves_job_exe_manager_get_job_exes_on_node
    | apply preserves_recon_thread_add_task_ids
    | apply keeps_keys_exe_method
    | apply keeps_keys_remove_job_exe
    | apply _ ].
Qed.

(** X21. The manager stays an index: if it holds every running job
    execution under the id of that execution, it still does after any
    callback of the dispatcher, whether the callback returned or raised.
    [statusUpdate] and [slaveLost] only replace the execution they were
    handed by the state its method left it in, under the same id, or remove
    it; the other callbacks do not touch the manager. *)
Theorem callbacks_keep_manager_keyed c w :
  keyed w → keyed (invoke c w).2.
Proof.
  intros Hkeyed.
  assert (Hkeep : keeps_keys w (invoke c w).2).
  { destruct c; cbn [invoke].
    - apply preserves_registered; apply _.
    - apply preserves_reregistered; apply _.
    - apply preserves_disconnected; apply _.
    - apply preserves_resourceOffers; apply _.
    - apply preserves_offerRescinded; apply _.
    - apply keeps_keys_statusUpdate.
    - apply preserves_frameworkMessage; apply _.
    - apply keeps_keys_slaveLost.
    - apply preserves_executorLost; apply _.
    - apply preserves_error; apply _.
    - apply preserves_shutdown; apply _. }
  intros i exe Hi. destruct (Hkeep i exe Hi) as [?|Hi0]; [done|]. by apply Hkeyed.
Qed.

(** ** One transition per update *)

(** The executions on which a state-changing method was called among the
    calls [events], one entry per call. *)
Definition transitions (events : list Event) : list Z :=
  omap (λ ev, match ev with
              | EvTaskRunning job_exe_id _ _ _ _ | EvTaskComplete job_exe_id _
              | EvTaskFail job_exe_id _ _ | EvExecutionLost job_exe_id _ => Some job_exe_id
              | _ => None
              end) events.

Lemma transitions_app l1 l2 :
  transitions (l1 ++ l2) = (transitions l1 ++ transitions l2)%list.
Proof. apply omap_app. Qed.

Lemma transitions_rev l : transitions (rev l) = rev (transitions l).
Proof.
  induction l as [|ev l IH]; [done|].
  cbn [rev]. rewrite transitions_app, IH.
  change (ev :: l) with ([ev] ++ l)%list. rewrite transitions_app, rev_app_distr.
  f_equal. by destruct ev.
Qed.

Lemma log_pull_transitions n hostname port task_id results :
  transitions (log_pull env n hostname port task_id results).2 = [].
Proof.
  unfold log_pull.
  destruct (get_slave_task_directory env _ _ _ _); [|done].
  destruct (get_slave_task_file env _ _ _ _ "stdout"); [|done].
  by destruct (get_slave_task_file env _ _ _ _ "stderr").
Qed.

(** The calls consed onto the trace [base] in the trace [t]. *)
Ltac calls_on base t :=
  lazymatch t with
  | base => constr:(@nil Event)
  | ?ev :: ?rest => let l := calls_on base rest in constr:(ev :: l)
  end.

Lemma apply_status_update_transitions status task_id results exe w r exe1 w1 :
  apply_status_update env status task_id results (exe, w) = (r, (exe1, w1)) →
  ∃ new,
    trace w1 = (new ++ trace w)%list ∧
    (transitions new = [] ∨ transitions new = [RunningJobExecution.id exe]).
Proof.
  unfold apply_status_update.
  destruct (TaskStatus.state status);
    destruct w as [? ? ? ? ? m ? ? ? ? ? ? trace0]; run; cbn;
    repeat
      (match goal with
       | |- context [match get_slave_task_directory env ?n ?h ?p ?t with _ => _ end] =>
           destruct (get_slave_task_directory env n h p t)
       | |- context [match get_slave_task_url env ?n ?h ?p ?d ?f with _ => _ end] =>
           destruct (get_slave_task_url env n h p d f)
       | |- context [match Transition.raised ?tr with _ => _ end] =>
           destruct (Transition.raised tr)
       end; cbn);
    intros [= <- <- <-]; cbn;
    lazymatch goal with
    | |- ∃ new, ?t = (new ++ ?base)%list ∧ @?P new =>
        let l := calls_on base t in exists l; split; [reflexivity|cbn; auto]
    end.
Qed.

Lemma statusUpdate_try_transitions status w r w' :
  statusUpdate_try env status w = (r, w') →
  ∃ new,
    trace w' = (new ++ trace w)%list ∧
    match _job_exe_manager w !! get_job_exe_id env (TaskStatus.task_id status) with
    | Some exe =>
        transitions new = [] ∨ transitions new = [RunningJobExecution.id exe]
    | None => transitions new = []
    end.
Proof.
  unfold statusUpdate_try.
  destruct w as [? ? ? ? ? m ? ? ? ? ? ? trace0]. run.
  unfold RunningJobExecutionManager.get_job_exe, RunningJobExecutionManager.remove_job_exe.
  destruct (m !! get_job_exe_id env (TaskStatus.task_id status)) as [exe|].
  - destruct (decide (TaskStatus.state status ≠ TASK_LOST)) as [_|_];
      rewrite ?pull_logs_run; cbn.
    all: match goal with
         | |- context [apply_status_update ?c ?s ?t ?r (?x, ?W)] =>
             destruct (apply_status_update c s t r (x, W))
               as [r1 [exe1 w1]] eqn:Happly
         end;
         apply apply_status_update_transitions in Happly as (new & Hnew & Htr);
         destruct w1 as [? ? ? ? ? m1 ? ? ? rt1 ? ? trace1]; cbn in Hnew; subst trace1.
    all: destruct r1 as [[]|e]; cbn;
         [destruct (RunningJobExecution.is_finished exe1); cbn|]; intros [= <- <-]; cbn.
    all: try (eexists (_ :: new ++ rev _ ++ [_])%list; split;
              [cbn; rewrite <- !app_assoc; reflexivity|];
              cbn [transitions omap list_omap]; fold (transitions (new ++ rev
                (log_pull env (S (length trace0))
                   (RunningJobExecution._node_hostname exe)
                   (RunningJobExecution._node_port exe) (TaskStatus.task_id status)
                   (TaskResults.set_when (get_status_timestamp env status)
                      (TaskResults.set_exit_code (parse_exit_code env status)
                         (TaskResults.new (TaskStatus.task_id status))))).2 ++
                [EvGetJobExe (get_job_exe_id env (TaskStatus.task_id status))]));
              rewrite !transitions_app, transitions_rev, log_pull_transitions; cbn;
              by rewrite app_nil_r).
    all: try (eexists (new ++ rev _ ++ [_])%list; split;
              [cbn; rewrite <- !app_assoc; reflexivity|];
              rewrite !transitions_app, transitions_rev, log_pull_transitions; cbn;
              by rewrite app_nil_r).
    all: try (eexists (_ :: new ++ [_])%list; split;
              [cbn; rewrite <- !app_assoc; reflexivity|];
              cbn [transitions omap list_omap]; fold (transitions (new ++
                [EvGetJobExe (get_job_exe_id env (TaskStatus.task_id status))]));
              rewrite !transitions_app; cbn; by rewrite app_nil_r).
    all: eexists (new ++ [_])%list; split;
         [cbn; rewrite <- !app_assoc; reflexivity|];
         rewrite !transitions_app; cbn; by rewrite app_nil_r.
  - destruct (handle_job_failure env _ _ _ _) as [[]|e]; intros [= <- <-];
      by eexists [_; _; _].
Qed.

(** X22. A status update calls at most one state-changing method, and
    only on the execution its task id decodes to: in a scheduler whose
    reconciliation thread exists, [statusUpdate] returns normally, and among
    the calls it made there is no call of [task_running], [task_complete],
    [task_fail] or [execution_lost] when the manager does not know the
    execution, and at most one such call, made on that execution, when it
    does. *)
Theorem statusUpdate_applies_at_most_one_transition driver status th w :
  _recon_thread w = Some th →
  ∃ w' new,
    statusUpdate env driver status w = (Normal tt, w') ∧
    history w' = (history w ++ new)%list ∧
    match _job_exe_manager w !! get_job_exe_id env (TaskStatus.task_id status) with
    | Some exe =>
        transitions new = [] ∨ transitions new = [RunningJobExecution.id exe]
    | None => transitions new = []
    end.
Proof.
  intros Hth. unfold statusUpdate.
  rewrite bind_run, (statusUpdate_entry_run env status th w Hth), bind_run.
  set (w1 := set_recon_thread _ _). unfold try_except.
  pose proof (preserves_statusUpdate_try env keeps_recon_thread status w1) as Hkeep.
  destruct (statusUpdate_try env status w1) as [r w2] eqn:Htry. cbn [snd] in Hkeep.
  apply statusUpdate_try_transitions in Htry as (new & Hnew & Htr).
  change (_job_exe_manager w1) with (_job_exe_manager w) in Htr.
  assert (Hrev : match _job_exe_manager w !! get_job_exe_id env (TaskStatus.task_id status)
                 with
                 | Some exe =>
                     transitions (rev new) = [] ∨
                     transitions (rev new) = [RunningJobExecution.id exe]
                 | None => transitions (rev new) = []
                 end).
  { rewrite transitions_rev.
    destruct (_ !! _); [destruct Htr as [->| ->]; auto|by rewrite Htr]. }
  assert (Hh2 : history w2 =
            (history w ++ [EvNow; status_update_logged env status;
                           EvReconRemove (TaskStatus.task_id status)] ++ rev new)%list).
  { unfold history. rewrite Hnew, rev_app_distr. unfold w1. cbn.
    by rewrite <- !app_assoc. }
  assert (Hnone : ∀ pre post,
            transitions pre = [] → transitions post = [] →
            match _job_exe_manager w !! get_job_exe_id env (TaskStatus.task_id status)
            with
            | Some exe =>
                transitions (pre ++ rev new ++ post) = [] ∨
                transitions (pre ++ rev new ++ post) = [RunningJobExecution.id exe]
            | None => transitions (pre ++ rev new ++ post) = []
            end).
  { intros pre post Hpre Hpost. rewrite !transitions_app, Hpre, Hpost, app_nil_r.
    exact Hrev. }
  destruct r as [[]|e].
  - rewrite log_duration_eq.
    eexists _, ([EvNow; status_update_logged env status;
                 EvReconRemove (TaskStatus.task_id status)] ++ rev new ++ [EvNow; _])%list.
    split; [reflexivity|]. split.
    + unfold history in *. cbn [trace set_trace rev]. rewrite Hh2, <- !app_assoc.
      reflexivity.
    + by apply Hnone.
  - rewrite (statusUpdate_except_run env status _ w2 Hkeep), log_duration_eq.
    eexists _, ([EvNow; status_update_logged env status;
                 EvReconRemove (TaskStatus.task_id status)] ++ rev new ++
                [status_update_error_logged env status;
                 EvReconAdd [TaskStatus.task_id status]; EvNow; _])%list.
    split; [reflexivity|]. split.
    + unfold history in *. cbn [trace set_trace set_recon_thread rev].
      rewrite Hh2, <- !app_assoc. reflexivity.
    + by apply Hnone.
Qed.

End Callbacks.

(** * Witnesses and counterexamples on the concrete scenarios *)

(** A status update for an execution the manager does not know, while the
    backing store refuses the failure report. *)
Lemma statusUpdate_failure_is_reconciled_witness :
  ∃ w', statusUpdate Scenario.database_down 0%nat (Scenario.status "t9" TASK_FINISHED)
          Scenario.busy = (Normal tt, w') ∧
        "t9" ∈ recon_set w'.
Proof.
  edestruct (statusUpdate_failure_is_reconciled Scenario.database_down 0%nat
               (Scenario.status "t9" TASK_FINISHED) Scenario.busy)
    as (w' & lvl & d & Hrun & Hin & _);
    [vm_compute; reflexivity|vm_compute; reflexivity|].
  exists w'. split; [exact Hrun|exact Hin].
Defined.

(** C3 does not hold as stated: the manager does not know the execution of
    task t9, the backing store refuses the failure report, and the task id
    ends up in the reconciliation set. *)
Lemma unknown_execution_readded_when_report_fails :
  _job_exe_manager Scenario.busy !! get_job_exe_id Scenario.database_down "t9" = None ∧
  ∃ w', statusUpdate Scenario.database_down 0%nat (Scenario.status "t9" TASK_FINISHED)
          Scenario.busy = (Normal tt, w') ∧
        ("t9" ∉ recon_set Scenario.busy) ∧
        "t9" ∈ recon_set w' ∧
        history w' =
          [EvNow; EvLog INFO "Status update for task %s: %s" [LStr "t9"; LStr "TASK"];
           EvReconRemove "t9"; EvGetJobExe 0; EvNow;
           EvHandleJobFailure 0 40 (BuiltinError "scheduler-lost");
           EvLog EXCEPTION "Error handling status update for job execution: %s" [LInt 0];
           EvReconAdd ["t9"]; EvNow;
           EvLog DEBUG "Scheduler statusUpdate() took %.3f seconds" [LInt 80]].
Proof.
  split; [reflexivity|].
  eexists. split; [vm_compute; reflexivity|].
  split_and!; [by vm_compute|by vm_compute|reflexivity].
Qed.

(** The same update while the backing store accepts the report. *)
Lemma statusUpdate_unknown_execution_witness :
  ∃ w', statusUpdate Scenario.healthy 0%nat (Scenario.status "t9" TASK_FINISHED)
          Scenario.busy = (Normal tt, w') ∧
        recon_set w' = recon_set Scenario.busy ∖ {["t9"]}.
Proof.
  edestruct (statusUpdate_unknown_execution Scenario.healthy 0%nat
               (Scenario.status "t9" TASK_FINISHED) Scenario.recon_thread Scenario.busy)
    as (w' & lvl & d & Hrun & _ & Hset & _); [reflexivity|reflexivity|].
  exists w'. split; [exact Hrun|exact Hset].
Defined.

(** A LOST update for the running execution 2. *)
Lemma statusUpdate_lost_task_witness :
  ∃ w' post,
    statusUpdate Scenario.healthy 0%nat (Scenario.status "t2" TASK_LOST) Scenario.busy =
      (Normal tt, w') ∧
    history w' =
      ([EvNow; EvLog INFO "Status update for task %s: %s" [LStr "t2"; LStr "TASK"];
        EvReconRemove "t2"; EvGetJobExe 2;
        EvTaskFail 2 (TaskResults.mk "t2" (Some 0) (Some 1000) None None)
          (Some (BuiltinError "mesos-lost"))] ++ post)%list ∧
    Forall (λ ev, is_log_retrieval ev = false) post.
Proof.
  apply (statusUpdate_lost_task Scenario.healthy 0%nat (Scenario.status "t2" TASK_LOST)
           Scenario.recon_thread Scenario.exe2 Scenario.busy); reflexivity.
Defined.

(** C7 does not hold as stated: a RUNNING update for the launched
    execution 1 while its agent does not answer.  The failure of the
    guarded pull is logged, the unguarded probe fails too, [task_running]
    is never called, the execution stays launched and the task goes back
    to the reconciliation set. *)
Lemma running_update_dropped_when_agent_unreachable :
  _job_exe_manager Scenario.busy !! get_job_exe_id Scenario.agent_down "t1" =
    Some Scenario.exe1 ∧
  ∃ w', statusUpdate Scenario.agent_down 0%nat (Scenario.status "t1" TASK_RUNNING)
          Scenario.busy = (Normal tt, w') ∧
        history w' =
          [EvNow; EvLog INFO "Status update for task %s: %s" [LStr "t1"; LStr "TASK"];
           EvReconRemove "t1"; EvGetJobExe 1; EvNow;
           EvTaskDirectory "host1" 5051 "t1";
           EvLog EXCEPTION "Error pulling logs for task %s" [LStr "t1"];
           EvTaskDirectory "host1" 5051 "t1";
           EvLog EXCEPTION "Error handling status update for job execution: %s" [LInt 1];
           EvReconAdd ["t1"]; EvNow;
           EvLog DEBUG "Scheduler statusUpdate() took %.3f seconds" [LInt 100]] ∧
        _job_exe_manager w' !! 1 = Some Scenario.exe1 ∧
        RunningJobExecution.phase Scenario.exe1 = Launched.
Proof.
  split; [reflexivity|].
  eexists. split; [vm_compute; reflexivity|].
  split_and!; reflexivity.
Qed.

(** A FINISHED update for execution 1 while its agent does not answer. *)
Lemma statusUpdate_log_retrieval_failure_witness :
  ∃ w' post',
    statusUpdate Scenario.agent_down 0%nat (Scenario.status "t1" TASK_FINISHED)
      Scenario.busy = (Normal tt, w') ∧
    history w' =
      ([EvNow; EvLog INFO "Status update for task %s: %s" [LStr "t1"; LStr "TASK"];
        EvReconRemove "t1"; EvGetJobExe 1; EvNow;
        EvTaskDirectory "host1" 5051 "t1";
        EvLog EXCEPTION "Error pulling logs for task %s" [LStr "t1"];
        EvTaskComplete 1 (TaskResults.mk "t1" (Some 0) (Some 1000) None None)]
       ++ post')%list.
Proof.
  edestruct (statusUpdate_log_retrieval_failure Scenario.agent_down 0%nat
               (Scenario.status "t1" TASK_FINISHED) Scenario.recon_thread Scenario.exe1
               Scenario.busy) as (w' & post & Hrun & Hhist & post' & Hpost);
    [reflexivity|discriminate|reflexivity|].
  exists w', post'. split; [exact Hrun|].
  rewrite Hhist, Hpost. reflexivity.
Defined.

Lemma busy_keyed : keyed Scenario.busy.
Proof.
  intros i e H. cbn in H.
  repeat (apply lookup_insert_Some in H as [[<- <-]|[_ H]]; [reflexivity|]).
  by rewrite lookup_empty in H.
Qed.


(** C2 does not hold as stated: [reregistered] and [registered] raise
    the [DatabaseError] of a backing store that cannot persist the master,
    and [slaveLost] raises what [execution_lost] raises when that is not a
    [DatabaseError]. *)
Lemma callbacks_propagate_exceptions :
  (reregistered Scenario.database_down 1%nat (MasterInfo.mk "master2" 5050)
     Scenario.busy).1 = Raise DatabaseError ∧
  (registered Scenario.database_down 0%nat "framework" (MasterInfo.mk "master" 5050)
     (ScaleScheduler_init 0%nat)).1 = Raise DatabaseError ∧
  (slaveLost Scenario.execution_lost_crashes 0%nat "a1" Scenario.busy).1 =
    Raise (OtherException "ValueError").
Proof. split_and!; vm_compute; reflexivity. Qed.

(** The busy scheduler contains what a backing store that is down raises
    while a status update is handled: the handler puts the task back into
    the reconciliation set. *)
Lemma callbacks_contain_exceptions_witness :
  ∃ w', statusUpdate Scenario.database_down 0%nat (Scenario.status "t1" TASK_FINISHED)
          Scenario.busy = (Normal tt, w') ∧
        "t1" ∈ recon_set w'.
Proof.
  destruct (callbacks_contain_exceptions Scenario.database_down 0%nat Scenario.busy)
    as [Hcaught _].
  destruct (Hcaught Scenario.recon_thread eq_refl) as (Hstatus & _).
  destruct (Hstatus (Scenario.status "t1" TASK_FINISHED)) as (w' & Hrun & Hlogged).
  exists w'. split; [exact Hrun|].
  edestruct (Hlogged DatabaseError) as [Hin _]; [vm_compute; reflexivity|exact Hin].
Defined.

(** Agent a1 is lost while the backing store is down: executions 1 and 2
    run on its node. *)
Lemma slaveLost_handles_lost_node_witness :
  ∃ w',
    slaveLost Scenario.database_down 0%nat "a1" Scenario.busy = (Normal tt, w') ∧
    _offer_manager w' = OfferManager.lost_node "a1" (_offer_manager Scenario.busy) ∧
    lost_outcome Scenario.database_down 0 Scenario.exe1 w' ∧
    _job_exe_manager w' !! 3 = Some Scenario.exe3.
Proof.
  eexists. split; [vm_compute; reflexivity|].
  edestruct (slaveLost_handles_lost_node Scenario.database_down 0%nat "a1"
               Scenario.recon_thread Scenario.busy)
    as (_ & _ & Hoffers & _ & _ & Hon & Hoff & _);
    [reflexivity|exact busy_keyed|vm_compute; reflexivity|].
  split_and!.
  - exact Hoffers.
  - apply (Hon 1 Scenario.exe1); [reflexivity|].
    exists Scenario.node1. split; reflexivity.
  - apply (Hoff 3 Scenario.exe3); [reflexivity|].
    intros (n & Hn & Hid). vm_compute in Hn. injection Hn as <-. discriminate Hid.
Defined.



(** C9 does not hold as stated: the busy scheduler re-registers with
    driver 1 while the backing store is down.  The master is not persisted
    and [reregistered] raises: the scheduler has recorded driver 1 and the
    new master, the three loop objects still hold driver 0, and no
    reconcile pass is made. *)
Lemma reregistered_fails_before_rotating :
  ∃ w',
    reregistered Scenario.database_down 1%nat (MasterInfo.mk "master2" 5050) Scenario.busy =
      (Raise DatabaseError, w') ∧
    _driver w' = Some 1%nat ∧
    _master_hostname w' = Some "master2" ∧
    _db_sync_thread w' = Some (DatabaseSyncThread.new (Some 0%nat)) ∧
    _recon_thread w' = Some Scenario.recon_thread ∧
    ReconciliationThread.driver Scenario.recon_thread = Some 0%nat ∧
    _scheduling_thread w' = Some (SchedulingThread.new (Some 0%nat)) ∧
    history w' = [EvUpdateMaster "master2" 5050].
Proof.
  eexists. split; [vm_compute; reflexivity|]. split_and!; reflexivity.
Qed.

(** The busy scheduler re-registers with driver 1 at a new master. *)
Lemma reregistered_rotates_driver_witness :
  ∃ w', reregistered Scenario.healthy 1%nat (MasterInfo.mk "master2" 5050) Scenario.busy =
          (Normal tt, w').
Proof.
  destruct (reregistered_rotates_driver Scenario.healthy 1%nat (MasterInfo.mk "master2" 5050)
              (DatabaseSyncThread.new (Some 0%nat)) Scenario.recon_thread
              (SchedulingThread.new (Some 0%nat)) Scenario.busy eq_refl eq_refl eq_refl)
    as (_ & _ & Hreturns).
  apply Hreturns.
  - intros n h p. reflexivity.
  - intros n. eexists. reflexivity.
  - intros n i t e. reflexivity.
Defined.


(** The reconcile pass on the busy scheduler: the backing store lists the
    executions 1 and 9, and the manager does not know execution 9. *)
Lemma reconcile_pass_reports_lost_executions_witness :
  ∃ w' new,
    _reconcile_running_jobs Scenario.healthy Scenario.busy = (Normal tt, w') ∧
    history w' = (history Scenario.busy ++ EvGetRunningJobExes :: new)%list ∧
    failure_reports new = [(9, BuiltinError "scheduler-lost")].
Proof.
  eexists. 
  edestruct (reconcile_pass_reports_lost_executions Scenario.healthy Scenario.busy
               (Normal tt)) as (new & Hh & Hreports); [vm_compute; reflexivity|].
  exists new. split_and!; [reflexivity|exact Hh|].
  change (get_running_job_exes Scenario.healthy (length (trace Scenario.busy)))
    with (Normal [JobExecution.mk 1; JobExecution.mk 9]) in Hreports.
  cbv beta iota zeta in Hreports. destruct Hreports as [_ Heq].
  exact (Heq eq_refl).
Defined.

(** The same pass while the backing store is down. *)
Lemma reconcile_pass_queues_all_or_nothing_witness :
  ∃ w',
    _reconcile_running_jobs Scenario.database_down Scenario.busy = (Raise DatabaseError, w') ∧
    _recon_thread w' = _recon_thread Scenario.busy.
Proof.
  eexists.
  edestruct (reconcile_pass_queues_all_or_nothing Scenario.database_down Scenario.busy
               (Raise DatabaseError)) as [_ Hkept]; [vm_compute; reflexivity|].
  split; [reflexivity|exact Hkept].
Defined.

(** A fresh scheduler registers while the backing store is down. *)
Lemma registered_creates_loops_after_startup_witness :
  ∃ w',
    registered Scenario.database_down 0%nat "framework" (MasterInfo.mk "master" 5050)
      (ScaleScheduler_init 0%nat) = (Raise DatabaseError, w') ∧
    _driver w' = Some 0%nat ∧
    _recon_thread w' = None ∧
    started_threads w' = [].
Proof.
  eexists.
  edestruct (registered_creates_loops_after_startup Scenario.database_down 0%nat
               "framework" (MasterInfo.mk "master" 5050) (ScaleScheduler_init 0%nat)
               (Raise DatabaseError))
    as (Hdriver & _ & _ & _ & _ & _ & _ & _ & Hstartup); [vm_compute; reflexivity|].
  change (startup Scenario.database_down (length (trace (ScaleScheduler_init 0%nat)))
            "framework" (MasterInfo.mk "master" 5050)).1
    with (Some DatabaseError) in Hstartup.
  cbv beta iota in Hstartup. destruct Hstartup as (_ & _ & _ & Hrt & _ & Hst).
  split_and!; [reflexivity|exact Hdriver|exact Hrt|exact Hst].
Defined.

(** A fresh scheduler registers with a backing store that answers. *)
Lemma registered_starts_scheduler_witness :
  ∃ w',
    registered Scenario.healthy 0%nat "framework" (MasterInfo.mk "master" 5050)
      (ScaleScheduler_init 0%nat) = (Normal tt, w').
Proof.
  destruct (registered_starts_scheduler Scenario.healthy 0%nat "framework"
              (MasterInfo.mk "master" 5050) (ScaleScheduler_init 0%nat)) as [_ Hreturns].
  apply Hreturns.
  - intros n h p. reflexivity.
  - intros n. reflexivity.
  - intros n. reflexivity.
  - intros n. reflexivity.
  - intros n. eexists. reflexivity.
  - intros n i t e. reflexivity.
Defined.

(** The busy scheduler after an agent was lost, a status update arrived
    and the master changed. *)
Lemma registration_is_permanent_witness :
  ∃ w',
    statusUpdate Scenario.healthy 0%nat (Scenario.status "t3" TASK_FINISHED)
      (invoke_all Scenario.healthy
         [SlaveLost 0%nat "a1"; StatusUpdate 0%nat (Scenario.status "t3" TASK_RUNNING);
          Reregistered 1%nat (MasterInfo.mk "master2" 5050); Shutdown]
         Scenario.busy) = (Normal tt, w').
Proof.
  destruct (registration_is_permanent Scenario.healthy
              [SlaveLost 0%nat "a1"; StatusUpdate 0%nat (Scenario.status "t3" TASK_RUNNING);
               Reregistered 1%nat (MasterInfo.mk "master2" 5050); Shutdown]
              Scenario.busy) as (_ & Hstatus & _).
  - split_and!; eexists; reflexivity.
  - apply Hstatus.
Defined.

(** The busy scheduler shuts down. *)
Lemma shutdown_stops_the_three_loops_witness :
  ∃ w',
    shutdown Scenario.busy = (Normal tt, w') ∧
    _recon_thread w' = Some (ReconciliationThread.shutdown Scenario.recon_thread) ∧
    recon_set w' = recon_set Scenario.busy.
Proof.
  destruct (shutdown_stops_the_three_loops (DatabaseSyncThread.new (Some 0%nat))
              Scenario.recon_thread (SchedulingThread.new (Some 0%nat)) Scenario.busy
              eq_refl eq_refl eq_refl)
    as (w' & Hrun & _ & _ & Hrt & _ & Hset & _).
  exists w'. split_and!; [exact Hrun|exact Hrt|exact Hset].
Defined.

(** A status update delivered to a freshly constructed scheduler. *)
Lemma statusUpdate_before_registered_witness :
  statusUpdate Scenario.healthy 0%nat (Scenario.status "t1" TASK_RUNNING)
    (ScaleScheduler_init 0%nat) =
  (Raise AttributeError,
   set_trace [EvLog INFO "Status update for task %s: %s" [LStr "t1"; LStr "TASK"]; EvNow]
     (ScaleScheduler_init 0%nat)).
Proof.
  apply (statusUpdate_before_registered Scenario.healthy 0%nat
           (Scenario.status "t1" TASK_RUNNING) (ScaleScheduler_init 0%nat)).
  reflexivity.
Defined.

(** A STAGING update for the launched execution 1. *)
Lemma statusUpdate_without_transition_witness :
  ∃ w',
    statusUpdate Scenario.healthy 0%nat (Scenario.status "t1" TASK_STAGING) Scenario.busy =
      (Normal tt, w') ∧
    _job_exe_manager w' = _job_exe_manager Scenario.busy ∧
    recon_set w' = recon_set Scenario.busy ∖ {["t1"]}.
Proof.
  destruct (statusUpdate_without_transition Scenario.healthy 0%nat
              (Scenario.status "t1" TASK_STAGING) Scenario.recon_thread Scenario.exe1
              Scenario.busy)
    as (w' & finished & Hrun & _ & _ & Hm & Hset);
    [reflexivity|left; reflexivity|reflexivity|].
  exists w'. split_and!; [exact Hrun|exact Hm|exact Hset].
Defined.

(** A FINISHED update for task t1 leaves the tasks t2 and t3 where they
    were. *)
Lemma statusUpdate_touches_only_its_task_id_witness :
  ∃ w',
    statusUpdate Scenario.healthy 0%nat (Scenario.status "t1" TASK_FINISHED) Scenario.busy =
      (Normal tt, w') ∧
    ("t2" ∈ recon_set w' ↔ "t2" ∈ recon_set Scenario.busy).
Proof.
  destruct (statusUpdate_touches_only_its_task_id Scenario.healthy 0%nat
              (Scenario.status "t1" TASK_FINISHED) Scenario.recon_thread Scenario.busy
              eq_refl) as (w' & Hrun & Hother).
  exists w'. split; [exact Hrun|]. apply Hother. discriminate.
Defined.

(** The FINISHED update for task t1, delivered twice to the busy
    scheduler. *)
Lemma repeated_finished_update_fails_execution_witness :
  ∃ w1 w2 new when,
    statusUpdate Scenario.healthy 0%nat (Scenario.status "t1" TASK_FINISHED) Scenario.busy =
      (Normal tt, w1) ∧
    statusUpdate Scenario.healthy 0%nat (Scenario.status "t1" TASK_FINISHED) w1 =
      (Normal tt, w2) ∧
    history w2 = (history w1 ++ new)%list ∧
    EvHandleJobFailure 1 when (BuiltinError "scheduler-lost") ∈ new.
Proof.
  destruct (repeated_finished_update_fails_execution Scenario.healthy 0%nat
              (Scenario.status "t1" TASK_FINISHED) Scenario.recon_thread Scenario.exe1
              Scenario.busy)
    as (w1 & w2 & new & when & Hrun1 & _ & Hrun2 & Hh & Hin & _);
    [reflexivity|reflexivity|reflexivity|intros n results; split; reflexivity|].
  exists w1, w2, new, when. split_and!; [exact Hrun1|exact Hrun2|exact Hh|exact Hin].
Defined.

(** Agent a1 is lost while [execution_lost] crashes: the call that raised
    is the last thing [slaveLost] did. *)
Lemma slaveLost_tells_executions_in_turn_witness :
  ∃ w',
    slaveLost Scenario.execution_lost_crashes 0%nat "a1" Scenario.busy =
      (Raise (OtherException "ValueError"), w') ∧
    ∃ new pre exe,
      history w' =
        (history Scenario.busy ++
         [EvNow; EvGetNode "a1"; EvLog ERROR "Node lost on host %s" [LStr "host1"];
          EvNodeLost "a1"; EvOfferLost "a1"] ++ new)%list ∧
      executions_told new = RunningJobExecution.id <$> (pre ++ [exe])%list ∧
      last new = Some (EvExecutionLost (RunningJobExecution.id exe) 0).
Proof.
  eexists. split; [vm_compute; reflexivity|].
  edestruct (slaveLost_tells_executions_in_turn Scenario.execution_lost_crashes 0%nat "a1"
               Scenario.recon_thread Scenario.busy (Raise (OtherException "ValueError")))
    as (new & Hh & _ & pre & exe & post & n & _ & _ & Htold & Hlast);
    [reflexivity|vm_compute; reflexivity|].
  exists new, pre, exe. split_and!; [exact Hh|exact Htold|exact Hlast].
Defined.

(** The busy scheduler re-registers while the backing store is down. *)
Lemma reregistered_failure_modes_witness :
  ∃ w',
    reregistered Scenario.database_down 1%nat (MasterInfo.mk "master2" 5050) Scenario.busy =
      (Raise DatabaseError, w') ∧
    _driver w' = Some 1%nat ∧
    _recon_thread w' = Some Scenario.recon_thread ∧
    ReconciliationThread.driver Scenario.recon_thread = Some 0%nat.
Proof.
  eexists.
  edestruct (reregistered_failure_modes Scenario.database_down 1%nat
               (MasterInfo.mk "master2" 5050) (DatabaseSyncThread.new (Some 0%nat))
               Scenario.recon_thread (SchedulingThread.new (Some 0%nat)) Scenario.busy
               DatabaseError)
    as (Hdriver & _ & _ & Hmodes);
    [reflexivity|reflexivity|reflexivity|vm_compute; reflexivity|].
  change (update_master Scenario.database_down (length (trace Scenario.busy))
            (MasterInfo.hostname (MasterInfo.mk "master2" 5050))
            (MasterInfo.port (MasterInfo.mk "master2" 5050)))
    with (@Raise unit DatabaseError) in Hmodes.
  cbv beta iota in Hmodes. destruct Hmodes as (_ & _ & Hrt & _).
  split_and!; [reflexivity|exact Hdriver|exact Hrt|reflexivity].
Defined.

(** A FINISHED update for task t1 keeps the busy scheduler indexed. *)
Lemma callbacks_keep_manager_keyed_witness :
  keyed
    (invoke Scenario.healthy (StatusUpdate 0%nat (Scenario.status "t1" TASK_FINISHED))
       Scenario.busy).2.
Proof.
  apply (callbacks_keep_manager_keyed Scenario.healthy
           (StatusUpdate 0%nat (Scenario.status "t1" TASK_FINISHED)) Scenario.busy).
  exact busy_keyed.
Defined.

(** A FINISHED update for task t1: at most one method call, on
    execution 1. *)
Lemma statusUpdate_applies_at_most_one_transition_witness :
  ∃ w' new,
    statusUpdate Scenario.healthy 0%nat (Scenario.status "t1" TASK_FINISHED) Scenario.busy =
      (Normal tt, w') ∧
    history w' = (history Scenario.busy ++ new)%list ∧
    (transitions new = [] ∨ transitions new = [1]).
Proof.
  destruct (statusUpdate_applies_at_most_one_transition Scenario.healthy 0%nat
              (Scenario.status "t1" TASK_FINISHED) Scenario.recon_thread Scenario.busy
              eq_refl) as (w' & new & Hrun & Hh & Htr).
  exists w', new. split_and!; [exact Hrun|exact Hh|exact Htr].
Defined.
